(** * Staging of JupyterLab dynamic extensions

    A shallow embedding of [jupyterlab/dynamic_labextensions.py]: the
    destination resolver [_get_labextension_dir], the staleness check
    [_should_copy], the file synchroniser [_maybe_copy], the staging engine
    [develop_labextension] and its multi-target variant
    [develop_labextension_py], over a model of the POSIX file system the
    Python code drives through [os], [os.path] and [shutil].

    Layout: path arithmetic ([Posixpath]), Python exceptions ([Py]), the file
    system and the [os]/[shutil] calls ([Os]), the embedded source functions,
    and then the theorems about them. *)

From stdpp Require Import base strings list gmap.
From Stdlib Require Import Ascii QArith Lqa.

Close Scope Q_scope.
Local Open Scope string_scope.
Local Open Scope list_scope.

(** ** Path arithmetic: the functions of [posixpath] the module calls *)

Module Posixpath.

Definition sep : ascii := "/"%char.

Definition is_sep (c : ascii) : bool := Ascii.eqb c sep.

(** [s.startswith('/')] *)
Definition startswith_sep (s : string) : bool :=
  match s with
  | String c _ => is_sep c
  | EmptyString => false
  end.

(** [s.endswith('/')] *)
Fixpoint endswith_sep (s : string) : bool :=
  match s with
  | EmptyString => false
  | String c EmptyString => is_sep c
  | String _ s' => endswith_sep s'
  end.

Definition isabs (s : string) : bool := startswith_sep s.

(** One round of the loop of [posixpath.join]. *)
Definition join2 (path b : string) : string :=
  if startswith_sep b then b
  else if String.eqb path "" || endswith_sep path then path +:+ b
  else path +:+ "/" +:+ b.

(** [posixpath.join(a, *p)] *)
Definition join (a : string) (p : list string) : string :=
  fold_left join2 p a.

(** [s.split('/')]: never empty, [''.split('/') == ['']]. *)
Fixpoint split_sep (s : string) : list string :=
  match s with
  | EmptyString => [EmptyString]
  | String c s' =>
      if is_sep c then EmptyString :: split_sep s'
      else match split_sep s' with
           | h :: t => String c h :: t
           | [] => [String c EmptyString]
           end
  end.

(** ['/'.join(comps)] *)
Fixpoint join_sep (comps : list string) : string :=
  match comps with
  | [] => ""
  | [c] => c
  | c :: cs => c +:+ "/" +:+ join_sep cs
  end.

(** [s == '/' * len(s)] *)
Fixpoint all_sep (s : string) : bool :=
  match s with
  | EmptyString => true
  | String c s' => is_sep c && all_sep s'
  end.

(** [s.rstrip('/')] *)
Fixpoint rstrip_sep (s : string) : string :=
  match s with
  | EmptyString => EmptyString
  | String c s' =>
      match rstrip_sep s' with
      | EmptyString => if is_sep c then EmptyString else String c EmptyString
      | r => String c r
      end
  end.

(** [posixpath.split(p)]: everything up to the last slash, and the rest. *)
Definition split (p : string) : string * string :=
  let cs := split_sep p in
  let head := fold_right (fun c acc => c +:+ "/" +:+ acc) "" (removelast cs) in
  let tail := List.last cs "" in
  let head := if negb (String.eqb head "") && negb (all_sep head)
              then rstrip_sep head else head in
  (head, tail).

Definition basename (p : string) : string := snd (split p).
Definition dirname (p : string) : string := fst (split p).

(** The loop body of [posixpath.normpath] over the components. *)
Definition norm_step (initial_slashes : nat) (new_comps : list string)
    (comp : string) : list string :=
  if String.eqb comp "" || String.eqb comp "." then new_comps
  else if negb (String.eqb comp "..")
          || (Nat.eqb initial_slashes 0 && Nat.eqb (length new_comps) 0)
          || (negb (Nat.eqb (length new_comps) 0)
              && String.eqb (List.last new_comps "") "..")
  then new_comps ++ [comp]
  else removelast new_comps.

Definition initial_slashes (path : string) : nat :=
  match path with
  | String c1 (String c2 (String c3 _)) =>
      if is_sep c1 then (if is_sep c2 && negb (is_sep c3) then 2 else 1)
      else 0
  | String c1 (String c2 EmptyString) =>
      if is_sep c1 then (if is_sep c2 then 2 else 1) else 0
  | String c1 EmptyString => if is_sep c1 then 1 else 0
  | EmptyString => 0
  end%nat.

Fixpoint slashes (n : nat) : string :=
  match n with
  | O => ""
  | S n' => String sep (slashes n')
  end.

(** [posixpath.normpath(path)] *)
Definition normpath (path : string) : string :=
  if String.eqb path "" then "."
  else
    let n := initial_slashes path in
    let comps := fold_left (norm_step n) (split_sep path) [] in
    let path := slashes n +:+ join_sep comps in
    if String.eqb path "" then "." else path.

(** [posixpath.abspath(path)], with [cwd] the value of [os.getcwd()]. *)
Definition abspath (cwd path : string) : string :=
  if isabs path then normpath path else normpath (join cwd [path]).

(** The slice [s[n:]]. *)
Fixpoint drop_chars (n : nat) (s : string) : string :=
  match n, s with
  | O, _ => s
  | S n', String _ s' => drop_chars n' s'
  | S _, EmptyString => EmptyString
  end.

End Posixpath.

Abbreviation pjoin := Posixpath.join.
Abbreviation normpath := Posixpath.normpath.
Abbreviation basename := Posixpath.basename.

(** ** Python values and exceptions *)

Module Py.

(** A raised exception: the name of its class and its message. *)
Inductive exn : Type :=
  | Exn (cls : string) (msg : string).

Definition exn_class (e : exn) : string :=
  match e with Exn c _ => c end.

(** The names bound in the module's global namespace when one of its
    functions runs: the imports of lines 9-32, the two module constants and
    the functions the file defines. *)
Definition module_globals : list string :=
  [ "print_function"; "json"; "os"; "osp"; "shutil"; "sys"; "tarfile";
    "zipfile"; "basename"; "pjoin"; "normpath"; "subprocess"; "urlparse";
    "urlretrieve"; "jupyter_data_dir"; "jupyter_config_path";
    "jupyter_path"; "SYSTEM_JUPYTER_PATH"; "ENV_JUPYTER_PATH";
    "ensure_dir_exists"; "string_types"; "cast_unicode_py2";
    "TemporaryDirectory"; "BaseJSONConfigManager"; "import_item"; "build";
    "AppOptions"; "DEPRECATED_ARGUMENT"; "HERE"; "develop_labextension";
    "develop_labextension_py"; "build_labextension"; "watch_labextension";
    "_ensure_builder"; "_should_copy"; "_maybe_copy";
    "_get_labextension_dir"; "_get_labextension_metadata" ].

(** The exception classes of [builtins] that the module names. *)
Definition builtin_names : list string :=
  [ "Exception"; "TypeError"; "ValueError"; "KeyError"; "IndexError";
    "NameError"; "OSError"; "IOError" ].

Definition bound (name : string) : bool :=
  existsb (String.eqb name) module_globals
  || existsb (String.eqb name) builtin_names.

(** [raise cls(msg)]: the class name is looked up first (globals, then
    builtins); an unbound name raises [NameError] before the message
    expression is evaluated. *)
Definition raise_stmt (cls : string) (msg : string) : exn :=
  if bound cls then Exn cls msg
  else Exn "NameError" ("name '" +:+ cls +:+ "' is not defined").

(** [repr(True)], [repr(False)] *)
Definition repr_bool (b : bool) : string :=
  if b then "True" else "False".

(** Truthiness of an optional string: [None] and [''] are falsy. *)
Definition truthy_str (o : option string) : bool :=
  match o with
  | Some s => negb (String.eqb s "")
  | None => false
  end.

End Py.

Import Py.

(** ** The environment of a call

    What the module reads from [jupyter_core.paths], from the process and
    from the interpreter. *)

(** One record of the sequence a module's [_jupyter_labextension_paths()]
    returns. *)
Record labext_entry : Type := {
  src : string;
  dest : string;
}.

(** An imported module: its [__file__] and, when it has the attribute, what
    [_jupyter_labextension_paths()] returns. *)
Record module_obj : Type := {
  module_file : string;
  labextension_paths : option (list labext_entry);
}.

Record Env : Type := {
  jupyter_data_dir : string;           (* [jupyter_data_dir()] *)
  ENV_JUPYTER_PATH : list string;
  SYSTEM_JUPYTER_PATH : list string;
  getcwd : string;                     (* [os.getcwd()] *)
  repr_str : string -> string;         (* [repr] on a [str] *)
  recursion_limit : nat;               (* nesting at which [os.walk] gives up *)
  import_item : string -> option module_obj;  (* [None]: the import raises *)
  find_packages : string -> list string;      (* [setuptools.find_packages] *)
}.

(** ** DestinationResolver: [_get_labextension_dir] (lines 278-314) *)

(** The four selectors, typed as the docstring declares them. *)
Record selectors : Type := {
  user : bool;
  sys_prefix : bool;
  prefix : option string;
  labextensions_dir : option string;
}.

(** A selector value as the list [conflicting] holds it. *)
Inductive selval : Type :=
  | VBool (b : bool)
  | VStr (o : option string).

Definition selval_truthy (v : selval) : bool :=
  match v with
  | VBool b => b
  | VStr o => truthy_str o
  end.

Definition selval_repr (env : Env) (v : selval) : string :=
  match v with
  | VBool b => repr_bool b
  | VStr (Some s) => repr_str env s
  | VStr None => "None"
  end.

(** The list [conflicting] of lines 293-298. *)
Definition conflicting (sel : selectors) : list (string * selval) :=
  [ ("user", VBool (user sel));
    ("prefix", VStr (prefix sel));
    ("labextensions_dir", VStr (labextensions_dir sel));
    ("sys_prefix", VBool (sys_prefix sel)) ].

(** The selectors that are set, in the order of [conflicting]. *)
Definition conflicting_pairs (sel : selectors) : list (string * selval) :=
  List.filter (fun nv => selval_truthy (snd nv)) (conflicting sel).

(** [conflicting_set] of line 299: ['{}={!r}'.format(n, v)] for the set ones. *)
Definition conflicting_set (env : Env) (sel : selectors) : list string :=
  List.map (fun nv => fst nv +:+ "=" +:+ selval_repr env (snd nv))
    (conflicting_pairs sel).

(** [', '.join(l)] *)
Fixpoint join_comma (l : list string) : string :=
  match l with
  | [] => ""
  | [x] => x
  | x :: xs => x +:+ ", " +:+ join_comma xs
  end.

(** [l[0]] on a list of paths. *)
Definition first_entry (l : list string) : exn + string :=
  match l with
  | x :: _ => inr x
  | [] => inl (Exn "IndexError" "list index out of range")
  end.

Definition _get_labextension_dir (env : Env) (sel : selectors) : exn + string :=
  let conflicting_set := conflicting_set env sel in
  if Nat.ltb 1 (length conflicting_set) then
    inl (raise_stmt "ArgumentConflict"
           ("cannot specify more than one of user, sys_prefix, prefix, or labextensions_dir, but got: "
            +:+ join_comma conflicting_set))
  else if user sel then
    inr (pjoin (jupyter_data_dir env) ["labextensions"])
  else if sys_prefix sel then
    match first_entry (ENV_JUPYTER_PATH env) with
    | inr p => inr (pjoin p ["labextensions"])
    | inl e => inl e
    end
  else if truthy_str (prefix sel) then
    inr (pjoin (default "" (prefix sel)) ["share"; "jupyter"; "labextensions"])
  else if truthy_str (labextensions_dir sel) then
    inr (default "" (labextensions_dir sel))
  else
    match first_entry (SYSTEM_JUPYTER_PATH env) with
    | inr p => inr (pjoin p ["labextensions"])
    | inl e => inl e
    end.


(** ** The file system and the calls into [os], [os.path] and [shutil] *)

Module Os.

(** A canonical location: the names from the root down. *)
Abbreviation key := (list string).

(** Modification times are seconds as exact rationals; permission bits are
    kept for regular files only. A directory holds the names of its entries
    in directory order. *)
Inductive node : Type :=
  | File (st_mtime : Q) (st_mode : N) (data : string)
  | Dir (st_mtime : Q) (entries : list string)
  | Symlink (target : string).

(** The file system and the wall clock that stamps what is created. *)
Record state : Type := {
  files : gmap key node;
  now : Q;
}.

Definition with_files (st : state) (m : gmap key node) : state :=
  {| files := m; now := now st |}.

(** What the code asks of the operating system, in call order. *)
Inductive event : Type :=
  | os_path_exists (p : string)
  | os_path_lexists (p : string)
  | os_path_isdir (p : string)
  | os_path_islink (p : string)
  | os_stat (p : string)
  | os_scandir (p : string)
  | ensure_dir_exists (p : string)
  | os_makedirs (p : string) (exist_ok : bool)
  | os_remove (p : string)
  | shutil_rmtree (p : string)
  | os_symlink (target linkpath : string)
  | shutil_copy2 (source destination : string).

(** The calls that can change the file system. *)
Definition mutating (e : event) : bool :=
  match e with
  | ensure_dir_exists _ | os_makedirs _ _ | os_remove _ | shutil_rmtree _
  | os_symlink _ _ | shutil_copy2 _ _ => true
  | _ => false
  end.

(** The calls that delete. *)
Definition deleting (e : event) : bool :=
  match e with
  | os_remove _ | shutil_rmtree _ => true
  | _ => false
  end.

(** *** Name resolution *)

(** The names of a path: empty names and [.] designate nothing new. *)
Definition components (p : string) : list string :=
  List.filter (fun c => negb (String.eqb c "" || String.eqb c "."))
    (Posixpath.split_sep p).

(** The names to walk from the root: a relative path starts at [cwd]. *)
Definition from_root (cwd p : string) : list string :=
  if Posixpath.isabs p then components p else components cwd ++ components p.

(** Symbolic links followed by one resolution before it fails with ELOOP. *)
Definition max_symlinks : nat := 40.

(** Walk [rest] from the directory [cur]. Every name but the last must be a
    directory, possibly through links; the last may be absent (the result is
    then where it would be created). A link in last position is followed
    when [follow] is set. *)
Fixpoint resolve (fuel : nat) (m : gmap key node) (follow : bool)
    (cur : key) (rest : list string) {struct fuel} : option key :=
  match fuel with
  | O => None
  | S fuel' =>
      (fix walk (cur : key) (rest : list string) {struct rest} : option key :=
         match rest with
         | [] => Some cur
         | c :: rest' =>
             if String.eqb c ".." then walk (removelast cur) rest'
             else
               let k := cur ++ [c] in
               match m !! k with
               | Some (Dir _ _) => walk k rest'
               | Some (Symlink t) =>
                   match rest', follow with
                   | [], false => Some k
                   | _, _ =>
                       resolve fuel' m follow
                         (if Posixpath.isabs t then [] else cur)
                         (components t ++ rest')
                   end
               | _ => match rest' with [] => Some k | _ => None end
               end
         end) cur rest
  end.

Definition locate (cwd : string) (st : state) (follow : bool) (p : string)
    : option key :=
  if String.eqb p "" then None
  else resolve (S max_symlinks) (files st) follow [] (from_root cwd p).

(** What [os.lstat] finds. *)
Definition lstat_node (cwd : string) (st : state) (p : string) : option node :=
  match locate cwd st false p with
  | Some k => files st !! k
  | None => None
  end.

(** What [os.stat] finds, links followed. *)
Definition stat_node (cwd : string) (st : state) (p : string) : option node :=
  match locate cwd st true p with
  | Some k => files st !! k
  | None => None
  end.

Definition exists_b (cwd : string) (st : state) (p : string) : bool :=
  match stat_node cwd st p with Some _ => true | None => false end.

Definition lexists_b (cwd : string) (st : state) (p : string) : bool :=
  match lstat_node cwd st p with Some _ => true | None => false end.

Definition isdir_b (cwd : string) (st : state) (p : string) : bool :=
  match stat_node cwd st p with Some (Dir _ _) => true | _ => false end.

Definition islink_b (cwd : string) (st : state) (p : string) : bool :=
  match lstat_node cwd st p with Some (Symlink _) => true | _ => false end.

(** *** Changing the tree *)

Definition parent (k : key) : key := removelast k.
Definition name_of (k : key) : string := List.last k "".

(** The parent directory gains or loses a name and is stamped. *)
Definition add_entry (t : Q) (k : key) (m : gmap key node) : gmap key node :=
  match k, m !! parent k with
  | _ :: _, Some (Dir _ es) => <[parent k := Dir t (es ++ [name_of k])]> m
  | _, _ => m
  end.

Definition del_entry (t : Q) (k : key) (m : gmap key node) : gmap key node :=
  match k, m !! parent k with
  | _ :: _, Some (Dir _ es) =>
      <[parent k :=
          Dir t (List.filter (fun c => negb (String.eqb c (name_of k))) es)]> m
  | _, _ => m
  end.

Definition create (t : Q) (k : key) (n : node) (m : gmap key node)
    : gmap key node :=
  <[k := n]> (add_entry t k m).

Definition unlink (t : Q) (k : key) (m : gmap key node) : gmap key node :=
  delete k (del_entry t k m).

(** Everything at or below [k] goes. *)
Definition remove_tree (t : Q) (k : key) (m : gmap key node)
    : gmap key node :=
  filter (fun kv => ¬ (k `prefix_of` kv.1)) (del_entry t k m).

End Os.

Import Os.

(** ** The computations: state, errors and the trace of calls *)

Definition M (A : Type) : Type := state -> (exn + A) * state * list event.

Definition ret {A : Type} (a : A) : M A := fun st => (inr a, st, []).

Definition raise {A : Type} (e : exn) : M A := fun st => (inl e, st, []).

Definition bind {A B : Type} (m : M A) (k : A -> M B) : M B :=
  fun st =>
    match m st with
    | (inl e, st', t) => (inl e, st', t)
    | (inr a, st', t) =>
        match k a st' with
        | (r, st'', t') => (r, st'', t ++ t')
        end
    end.

#[global] Instance M_ret : MRet M := @ret.
#[global] Instance M_bind : MBind M := fun _ _ k m => bind m k.

(** A pure result lifted into a computation. *)
Definition lift {A : Type} (r : exn + A) : M A :=
  match r with
  | inr a => ret a
  | inl e => raise e
  end.

(** A call that only reads. *)
Definition observe {A : Type} (ev : event) (f : state -> A) : M A :=
  fun st => (inr (f st), st, [ev]).

(** A call that may write or fail. *)
Definition perform {A : Type} (ev : event) (f : state -> (exn + A) * state)
    : M A :=
  fun st => let (r, st') := f st in (r, st', [ev]).

(** [for x in l: body(x)] *)
Fixpoint for_each {A : Type} (l : list A) (body : A -> M unit) : M unit :=
  match l with
  | [] => ret tt
  | x :: l' => body x;; for_each l' body
  end.

(** ** The library calls, as the code makes them *)

Definition os_error (cls : string) (p : string) : exn := Exn cls p.

Section Calls.

Variable env : Env.

Let cwd : string := getcwd env.

Definition exists_ (p : string) : M bool :=
  observe (os_path_exists p) (fun st => exists_b cwd st p).

Definition lexists (p : string) : M bool :=
  observe (os_path_lexists p) (fun st => lexists_b cwd st p).

Definition isdir (p : string) : M bool :=
  observe (os_path_isdir p) (fun st => isdir_b cwd st p).

Definition islink (p : string) : M bool :=
  observe (os_path_islink p) (fun st => islink_b cwd st p).

(** [os.stat(p)]: the fields the code reads. *)
Record stat_result : Type := {
  st_mtime : Q;
  st_mode : N;
}.

Definition stat_of (n : node) : stat_result :=
  match n with
  | File t md _ => {| st_mtime := t; st_mode := md |}
  | Dir t _ => {| st_mtime := t; st_mode := 0 |}
  | Symlink _ => {| st_mtime := 0; st_mode := 0 |}
  end.

Definition stat (p : string) : M stat_result :=
  perform (os_stat p) (fun st =>
    match stat_node cwd st p with
    | Some n => (inr (stat_of n), st)
    | None => (inl (os_error "FileNotFoundError" p), st)
    end).

(** [os.mkdir(name)] *)
Definition mkdir (name : string) (st : state) : (exn + unit) * state :=
  match locate cwd st false name with
  | None => (inl (os_error "FileNotFoundError" name), st)
  | Some k =>
      match k, files st !! k with
      | _ :: _, None =>
          (inr tt, with_files st (create (now st) k (Dir (now st) []) (files st)))
      | _, _ => (inl (os_error "FileExistsError" name), st)
      end
  end.

(** [os.makedirs(name, exist_ok=exist_ok)], following its source: the
    missing ancestors first, then the leaf. [fuel] bounds the recursion on
    the ever shorter [head]; the length of [name] is enough. *)
Fixpoint makedirs_rec (fuel : nat) (name : string) (exist_ok : bool)
    (st : state) : (exn + unit) * state :=
  match fuel with
  | O => (inl (Exn "RecursionError" name), st)
  | S fuel' =>
      let (head, tail) := Posixpath.split name in
      let (head, tail) :=
        if String.eqb tail "" then Posixpath.split head else (head, tail) in
      let leaf (st : state) : (exn + unit) * state :=
        match mkdir name st with
        | (inl e, st') =>
            if negb exist_ok || negb (isdir_b cwd st' name)
            then (inl e, st') else (inr tt, st')
        | ok => ok
        end in
      if negb (String.eqb head "") && negb (String.eqb tail "")
         && negb (exists_b cwd st head)
      then
        match makedirs_rec fuel' head exist_ok st with
        | (inl e, st') =>
            if String.eqb (exn_class e) "FileExistsError"
            then (if String.eqb tail "." then (inr tt, st') else leaf st')
            else (inl e, st')
        | (inr _, st') =>
            if String.eqb tail "." then (inr tt, st') else leaf st'
        end
      else leaf st
  end.

Definition makedirs (name : string) (exist_ok : bool) : M unit :=
  perform (os_makedirs name exist_ok)
    (makedirs_rec (S (String.length name)) name exist_ok).

(** [jupyter_core.utils.ensure_dir_exists(path)]: create it and what is
    missing above it, tolerate that it is there, insist on a directory. *)
Definition ensure_dir (path : string) : M unit :=
  perform (ensure_dir_exists path) (fun st =>
    match makedirs_rec (S (String.length path)) path false st with
    | (inl e, st') =>
        if String.eqb (exn_class e) "FileExistsError"
        then (if isdir_b cwd st' path then (inr tt, st')
              else (inl (Exn "IOError" path), st'))
        else (inl e, st')
    | (inr _, st') =>
        if isdir_b cwd st' path then (inr tt, st')
        else (inl (Exn "IOError" path), st')
    end).

(** [os.remove(p)] *)
Definition remove (p : string) : M unit :=
  perform (os_remove p) (fun st =>
    match locate cwd st false p with
    | None => (inl (os_error "FileNotFoundError" p), st)
    | Some k =>
        match files st !! k with
        | None => (inl (os_error "FileNotFoundError" p), st)
        | Some (Dir _ _) => (inl (os_error "IsADirectoryError" p), st)
        | Some _ => (inr tt, with_files st (unlink (now st) k (files st)))
        end
    end).

(** [shutil.rmtree(p)]: refuses a link, removes a directory with all below
    it (links inside are unlinked, not followed). *)
Definition rmtree (p : string) : M unit :=
  perform (shutil_rmtree p) (fun st =>
    match locate cwd st false p with
    | None => (inl (os_error "FileNotFoundError" p), st)
    | Some k =>
        match files st !! k with
        | None => (inl (os_error "FileNotFoundError" p), st)
        | Some (Symlink _) =>
            (inl (Exn "OSError" "Cannot call rmtree on a symbolic link"), st)
        | Some (File _ _ _) => (inl (os_error "NotADirectoryError" p), st)
        | Some (Dir _ _) =>
            (inr tt, with_files st (remove_tree (now st) k (files st)))
        end
    end).

(** [os.symlink(target, linkpath)]: the target is stored as given and need
    not exist; the link path must be free. *)
Definition symlink_ (target linkpath : string) : M unit :=
  perform (os_symlink target linkpath) (fun st =>
    match locate cwd st false linkpath with
    | None => (inl (os_error "FileNotFoundError" linkpath), st)
    | Some k =>
        match k, files st !! k with
        | _ :: _, None =>
            (inr tt, with_files st (create (now st) k (Symlink target) (files st)))
        | _, _ => (inl (os_error "FileExistsError" linkpath), st)
        end
    end).

(** [shutil.copy2(source, destination)]: into the directory when the
    destination is one; contents, modification time and permission bits of
    the source end up at the destination, links followed on both sides. *)
Definition copy2 (source destination : string) : M unit :=
  perform (shutil_copy2 source destination) (fun st =>
    let destination :=
      if isdir_b cwd st destination
      then pjoin destination [basename source] else destination in
    match locate cwd st true source with
    | None => (inl (os_error "FileNotFoundError" source), st)
    | Some ks =>
        match files st !! ks with
        | Some (File t md data) =>
            match locate cwd st true destination with
            | None => (inl (os_error "FileNotFoundError" destination), st)
            | Some kd =>
                match files st !! kd with
                | None =>
                    (inr tt,
                     with_files st (create (now st) kd (File t md data) (files st)))
                | Some (File _ _ _) =>
                    if bool_decide (ks = kd)
                    then (inl (Exn "SameFileError" source), st)
                    else (inr tt, with_files st (<[kd := File t md data]> (files st)))
                | Some _ => (inl (os_error "IsADirectoryError" destination), st)
                end
            end
        | Some (Dir _ _) => (inl (os_error "IsADirectoryError" source), st)
        | _ => (inl (os_error "FileNotFoundError" source), st)
        end
    end).

(** One directory read of [os.walk]: the names that are directories (links
    followed) and the others; [None] when [top] cannot be listed, which
    [os.walk] passes over in silence. *)
Definition listing (st : state) (top : string)
    : option (list string * list string) :=
  match locate cwd st true top with
  | Some k =>
      match files st !! k with
      | Some (Dir _ es) =>
          let present :=
            List.filter (fun c => bool_decide (is_Some (files st !! (k ++ [c])))) es in
          Some (List.filter (fun c => isdir_b cwd st (pjoin top [c])) present,
                List.filter (fun c => negb (isdir_b cwd st (pjoin top [c]))) present)
      | _ => None
      end
  | None => None
  end.

Definition scandir (top : string) : M (option (list string * list string)) :=
  observe (os_scandir top) (fun st => listing st top).

End Calls.

(** ** The embedded source functions

    [logger] is left at its default [None] throughout: every [if logger:]
    block only emits a message. [cast_unicode_py2] is the identity on
    Python 3. *)

(** The tolerance of line 248. *)
Definition epsilon : Q := 1e-6%Q.

(** The [path] argument of [develop_labextension]. *)
Inductive path_arg : Type :=
  | PathStr (s : string)
  | PathList (l : list string)
  | PathTuple (l : list string).

(** The message of line 87. *)
Definition single_path_msg : string :=
  "path must be a string pointing to a single extension to install; call this function multiple times to install multiple extensions".

Section Source.

Variable env : Env.

(** StalenessChecker: [_should_copy] (lines 231-256) *)
Definition _should_copy (src dest : string) : M bool :=
  e ← exists_ env dest;
  if negb e then mret true
  else
    s ← stat env src;
    d ← stat env dest;
    if Qlt_le_dec epsilon (st_mtime s - st_mtime d)%Q then mret true
    else mret false.

(** FileSync: [_maybe_copy] (lines 259-275) *)
Definition _maybe_copy (src dest : string) : M unit :=
  b ← _should_copy src dest;
  if (b : bool) then copy2 env src dest else mret tt.

(** The body of the [for parent, dirs, files in os.walk(path)] loop,
    lines 119-127. *)
Definition walk_body (path full_dest parent : string) (files : list string)
    : M unit :=
  let dest_dir :=
    pjoin full_dest [Posixpath.drop_chars (String.length path) parent] in
  e ← exists_ env dest_dir;
  (if negb e then makedirs env dest_dir false else mret tt);;
  for_each files (fun file_name =>
    let src := pjoin parent [file_name] in
    let dest_file := pjoin dest_dir [file_name] in
    _maybe_copy src dest_file).

(** TreeStager: [os.walk(top)] top-down with the loop body run at each
    directory it yields. A directory that cannot be read is passed over; a
    name that is a link is not descended into. [depth] is the nesting the
    interpreter still allows. *)
Fixpoint walk_loop (depth : nat) (path full_dest top : string) : M unit :=
  match depth with
  | O => raise (Exn "RecursionError" top)
  | S depth' =>
      l ← scandir env top;
      match l with
      | None => mret tt
      | Some (dirs, nondirs) =>
          walk_body path full_dest top nondirs;;
          for_each dirs (fun dirname =>
            let new_path := pjoin top [dirname] in
            fun st =>
              if islink_b (getcwd env) st new_path then (inr tt, st, [])
              else walk_loop depth' path full_dest new_path st)
      end
  end.

(** The name the entry is installed under, lines 91-93. *)
Definition destination_name (destination : option string) (path : string)
    : string :=
  if truthy_str destination then default "" destination
  else basename (normpath path).

(** Removal of what is in the way, lines 96-102; run when [overwrite]. *)
Definition purge (full_dest : string) : M unit :=
  l ← lexists env full_dest;
  if (l : bool) then
    d ← isdir env full_dest;
    k ← (if (d : bool) then islink env full_dest else mret true);
    if d && negb k then rmtree env full_dest
    else remove env full_dest
  else mret tt.

(** Link-mode, lines 108-114. *)
Definition link_mode (path full_dest : string) : M unit :=
  let path := Posixpath.abspath (getcwd env) path in
  e ← exists_ env full_dest;
  if negb e then symlink_ env path full_dest
  else
    l ← islink env full_dest;
    if negb l then
      raise (raise_stmt "ValueError" (path +:+ " exists and is not a symlink"))
    else mret tt.

(** Copy-mode, lines 116-130: a tree or a single file. *)
Definition copy_mode (path full_dest : string) : M unit :=
  d ← isdir env path;
  if (d : bool) then
    let path := pjoin (Posixpath.abspath (getcwd env) path) [""] in
    walk_loop (recursion_limit env) path full_dest path
  else
    _maybe_copy path full_dest.

(** The path the entry is installed at, line 95. *)
Definition full_dest_of (labext destination : string) : string :=
  normpath (pjoin labext [destination]).

(** Lines 104-132: the parent directory, the link or the copy, and the
    path returned. *)
Definition install_at (path : string) (symlink : bool) (full_dest : string)
    : M string :=
  makedirs env (Posixpath.dirname full_dest) true;;
  (if symlink then link_mode path full_dest else copy_mode path full_dest);;
  mret full_dest.

(** Lines 86-132 of [develop_labextension]: what it does once the
    labextensions directory [labext] is there. *)
Definition stage_under (labext : string) (path : path_arg)
    (symlink overwrite : bool) (destination : option string) : M string :=
  path ← match path with
         | PathStr s => mret s
         | _ => raise (raise_stmt "TypeError" single_path_msg)
         end;
  let destination := destination_name destination path in
  let full_dest := full_dest_of labext destination in
  (if overwrite then purge full_dest else mret tt);;
  install_at path symlink full_dest.

(** StagingEngine: [develop_labextension] (lines 44-132); it is not given
    a [prefix]. *)
Definition develop_labextension (path : path_arg)
    (symlink overwrite user : bool) (labextensions_dir : option string)
    (destination : option string) (sys_prefix : bool) : M string :=
  labext ← lift (_get_labextension_dir env
                   {| user := user; sys_prefix := sys_prefix;
                      prefix := None;
                      labextensions_dir := labextensions_dir |});
  ensure_dir env labext;;
  stage_under labext path symlink overwrite destination.

(** [_get_labextension_metadata] (lines 317-349) *)
Definition has_paths (m : option module_obj) : bool :=
  match m with
  | Some mo => bool_decide (is_Some (labextension_paths mo))
  | None => false
  end.

Definition _get_labextension_metadata (module : string)
    : M (module_obj * list labext_entry) :=
  let m := import_item env module in
  m ← (if negb (has_paths m) then
         e ← exists_ env (Posixpath.abspath (getcwd env) module);
         if (e : bool) then
           match find_packages env module with
           | [] => raise (raise_stmt "ValueError" ("Could not find module " +:+ module))
           | p :: _ =>
               match import_item env p with
               | Some m' => mret (Some m')
               | None => raise (Exn "ImportError" p)
               end
           end
         else mret m
       else mret m);
  match m with
  | Some {| module_file := f; labextension_paths := Some labexts |} =>
      mret ({| module_file := f; labextension_paths := Some labexts |}, labexts)
  | _ =>
      raise (raise_stmt "KeyError"
               ("The Python module " +:+ module +:+ " is not a valid labextension, it is missing the `_jupyter_labextension_paths()` method."))
  end.

(** The [for labext in labexts] loop of lines 146-157, with the list
    [full_dests] it appends to. *)
Fixpoint labexts_loop (base_path : string) (user sys_prefix overwrite symlink : bool)
    (labextensions_dir : option string) (labexts : list labext_entry)
    (full_dests : list string) : M (list string) :=
  match labexts with
  | [] => mret full_dests
  | labext :: rest =>
      let src := pjoin base_path [src labext] in
      let dest := dest labext in
      full_dest ← develop_labextension (PathStr src) symlink overwrite user
                    labextensions_dir (Some dest) sys_prefix;
      labexts_loop base_path user sys_prefix overwrite symlink
        labextensions_dir rest (full_dests ++ [full_dest])
  end.

(** Multi-target variant: [develop_labextension_py] (lines 135-159) *)
Definition develop_labextension_py (module : string)
    (user sys_prefix overwrite symlink : bool)
    (labextensions_dir : option string) : M (list string) :=
  ml ← _get_labextension_metadata module;
  let base_path := fst (Posixpath.split (module_file (fst ml))) in
  labexts_loop base_path user sys_prefix overwrite symlink labextensions_dir
    (snd ml) [].

End Source.

(** ** Reference points for the statements *)

(** Names in ascending order, the order the specification gives for the
    conflict message. *)
Fixpoint sorted_by_name (l : list string) : bool :=
  match l with
  | a :: (b :: _) as t => String.leb a b && sorted_by_name t
  | _ => true
  end.

(** A Linux installation, for the closed examples. *)
Definition env0 : Env :=
  {| jupyter_data_dir := "/home/u/.local/share/jupyter";
     ENV_JUPYTER_PATH := ["/opt/env/share/jupyter"];
     SYSTEM_JUPYTER_PATH := ["/usr/local/share/jupyter"; "/usr/share/jupyter"];
     getcwd := "/work";
     repr_str := fun s => "'" +:+ s +:+ "'";
     recursion_limit := 64;
     import_item := fun _ => None;
     find_packages := fun _ => [] |}.

(** A path argument that is a list or a tuple (the test of line 86). *)
Definition is_sequence (path : path_arg) : bool :=
  match path with
  | PathStr _ => false
  | PathList _ | PathTuple _ => true
  end.

(** The single-target call [develop_labextension_py] makes for one record. *)
Definition stage_entry (env : Env) (base_path : string)
    (user sys_prefix overwrite symlink : bool)
    (labextensions_dir : option string) (labext : labext_entry) : M string :=
  develop_labextension env (PathStr (pjoin base_path [src labext])) symlink
    overwrite user labextensions_dir (Some (dest labext)) sys_prefix.

(** The records staged one after the other, each from the state the one
    before left: the resulting paths, the final state and the calls made. *)
Inductive staged_in_order (stage : labext_entry -> M string)
    : list labext_entry -> state -> list string -> state -> list event -> Prop :=
  | staged_nil (st : state) : staged_in_order stage [] st [] st []
  | staged_cons (x : labext_entry) (rest : list labext_entry)
      (st st1 st2 : state) (d : string) (ds : list string)
      (t1 t2 : list event) :
      stage x st = (inr d, st1, t1) ->
      staged_in_order stage rest st1 ds st2 t2 ->
      staged_in_order stage (x :: rest) st (d :: ds) st2 (t1 ++ t2).

(** An empty disk with a root directory, at time 100. *)
Definition st_empty : state :=
  {| files := {[ [] := Dir 0 [] ]}; now := 100 |}.

(** A source file newer than its copy: [/s/a.js] written at 10, [/d/a.js]
    at 5. *)
Definition st_newer_source : state :=
  {| files :=
       list_to_map
         [ ([], Dir 0 ["s"; "d"]);
           (["s"], Dir 0 ["a.js"]);
           (["s"; "a.js"], File 10 420 "new");
           (["d"], Dir 0 ["a.js"]);
           (["d"; "a.js"], File 5 420 "old") ];
     now := 100 |}.

(** A package [mypkg] that declares two extensions, on the example
    installation. *)
Definition mypkg : module_obj :=
  {| module_file := "/pkgs/mypkg/__init__.py";
     labextension_paths :=
       Some [ {| src := "one"; dest := "x" |}; {| src := "two"; dest := "y" |} ] |}.

Definition env_pkg : Env :=
  {| jupyter_data_dir := jupyter_data_dir env0;
     ENV_JUPYTER_PATH := ENV_JUPYTER_PATH env0;
     SYSTEM_JUPYTER_PATH := SYSTEM_JUPYTER_PATH env0;
     getcwd := getcwd env0;
     repr_str := repr_str env0;
     recursion_limit := recursion_limit env0;
     import_item := fun name => if String.eqb name "mypkg" then Some mypkg else None;
     find_packages := fun _ => [] |}.

(** The package on disk with only its first extension built: [one] holds a
    file, [two] is missing. *)
Definition st_pkg : state :=
  {| files :=
       list_to_map
         [ ([], Dir 0 ["pkgs"]);
           (["pkgs"], Dir 0 ["mypkg"]);
           (["pkgs"; "mypkg"], Dir 0 ["__init__.py"; "one"]);
           (["pkgs"; "mypkg"; "__init__.py"], File 1 420 "");
           (["pkgs"; "mypkg"; "one"], Dir 2 ["index.js"]);
           (["pkgs"; "mypkg"; "one"; "index.js"], File 3 420 "js") ];
     now := 100 |}.

(** Every call a computation makes, from any state, satisfies [P]. *)
Definition emits {A : Type} (P : event -> Prop) (m : M A) : Prop :=
  forall st, Forall P (m st).2.

(** The call that removes an entry found to be [n]: [shutil.rmtree] for a
    directory, [os.remove] for anything else. *)
Definition removal_of (n : node) (full_dest : string) : event :=
  match n with
  | Dir _ _ => shutil_rmtree full_dest
  | _ => os_remove full_dest
  end.

(** The file system once the entry at [k], found to be [n], is removed. *)
Definition removed (st : state) (k : key) (n : node) : state :=
  match n with
  | Dir _ _ => with_files st (remove_tree (now st) k (files st))
  | _ => with_files st (unlink (now st) k (files st))
  end.

(** A call that does not delete. *)
Definition keeps (e : event) : Prop := deleting e = false.

(** An installed copy in the way: [/lab/foo] is a directory with a file,
    next to another extension [/lab/bar]; the source [/ext/foo] holds one
    file. *)
Definition st_installed : state :=
  {| files :=
       list_to_map
         [ ([], Dir 0 ["ext"; "lab"]);
           (["ext"], Dir 0 ["foo"]);
           (["ext"; "foo"], Dir 0 ["index.js"]);
           (["ext"; "foo"; "index.js"], File 10 420 "new");
           (["lab"], Dir 0 ["foo"; "bar"]);
           (["lab"; "foo"], Dir 0 ["old.js"]);
           (["lab"; "foo"; "old.js"], File 5 420 "old");
           (["lab"; "bar"], Dir 0 ["keep.js"]);
           (["lab"; "bar"; "keep.js"], File 5 420 "keep") ];
     now := 100 |}.

(** A labextensions directory [/lab] that is there and empty; nothing at
    [/ext]. *)
Definition st_lab : state :=
  {| files := list_to_map [ ([], Dir 0 ["lab"]); (["lab"], Dir 0 []) ];
     now := 100 |}.

(** [/lab/foo] is a link to [/old/foo], which is a directory; [/new/foo] is
    another one. *)
Definition st_linked : state :=
  {| files :=
       list_to_map
         [ ([], Dir 0 ["lab"; "old"; "new"]);
           (["lab"], Dir 0 ["foo"]);
           (["lab"; "foo"], Symlink "/old/foo");
           (["old"], Dir 0 ["foo"]);
           (["old"; "foo"], Dir 0 []);
           (["new"], Dir 0 ["foo"]);
           (["new"; "foo"], Dir 0 []) ];
     now := 100 |}.

(** Two nodes of the same kind; links of the same kind have one target. *)
Definition same_kind (n n' : node) : Prop :=
  match n, n' with
  | File _ _ _, File _ _ _ => True
  | Dir _ _, Dir _ _ => True
  | Symlink t, Symlink t' => t = t'
  | _, _ => False
  end.

(** [m'] has everything [m] has, of the same kind. *)
Definition extends (m m' : gmap key node) : Prop :=
  forall k n, m !! k = Some n -> exists n', m' !! k = Some n' /\ same_kind n n'.

(** ** Names and paths of a tree walk *)

(** No separator inside. *)
Fixpoint sep_free (s : string) : bool :=
  match s with
  | EmptyString => true
  | String c s' => negb (Posixpath.is_sep c) && sep_free s'
  end.

(** A name a directory can hold: not empty, not [.] or [..], no separator. *)
Definition nice (c : string) : bool :=
  negb (String.eqb c "") && negb (String.eqb c ".")
  && negb (String.eqb c "..") && sep_free c.

(** [c] put in front of the first of the pieces. *)
Definition prepend (c : ascii) (l : list string) : list string :=
  match l with
  | h :: t => String c h :: t
  | [] => [String c EmptyString]
  end.

(** Every piece followed by a separator. *)
Definition head_raw (l : list string) : string :=
  fold_right (fun c acc => c +:+ "/" +:+ acc) "" l.

(** The pair of head and tail [os.makedirs] works with: the split of the
    name, taken again when the name ends in a separator. *)
Definition msplit (name : string) : string * string :=
  let (head, tail) := Posixpath.split name in
  if String.eqb tail "" then Posixpath.split head else (head, tail).

(** The test [components] applies to a piece. *)
Definition ok_name (c : string) : bool :=
  negb (String.eqb c "" || String.eqb c ".").

(** ** Link-free trees *)

(** No symbolic link anywhere. *)
Definition no_symlinks (m : gmap key node) : Prop :=
  forall k t, m !! k <> Some (Symlink t).

Definition is_dir (o : option node) : bool :=
  match o with Some (Dir _ _) => true | _ => false end.

(** No [..] among the names. *)
Definition no_dotdot (l : list string) : Prop := Forall (fun c => c <> "..") l.

(** Every name of [l] but the last is a directory, walking down from
    [cur]. *)
Fixpoint reach (m : gmap key node) (cur : key) (l : list string) : bool :=
  match l with
  | [] => true
  | c :: rest =>
      match rest with
      | [] => true
      | _ => is_dir (m !! (cur ++ [c])) && reach m (cur ++ [c]) rest
      end
  end.

(** What is found at the names [l] from the root in a link-free tree. *)
Definition node_at (m : gmap key node) (l : list string) : option node :=
  if reach m [] l then m !! l else None.

(** [m'] differs from [m] only by directories that are new or were
    directories already, and only at or above [l]. *)
Definition grows_within (l : key) (m m' : gmap key node) : Prop :=
  forall k,
    m' !! k = m !! k
    \/ (k `prefix_of` l /\ is_dir (m' !! k) = true
        /\ (m !! k = None \/ is_dir (m !! k) = true)).

(** The last step of [os.makedirs]: [mkdir], tolerated when the name is a
    directory and [exist_ok] is set. *)
Definition mkdir_leaf (env : Env) (name : string) (exist_ok : bool)
    (st : state) : (exn + unit) * state :=
  match mkdir env name st with
  | (inl e, st') =>
      if negb exist_ok || negb (isdir_b (getcwd env) st' name)
      then (inl e, st') else (inr tt, st')
  | ok => ok
  end.

(** A result that leaves the name in place: success, or the complaint that
    it exists. *)
Definition settled (r : exn + unit) : Prop :=
  match r with
  | inr _ => True
  | inl e => exn_class e = "FileExistsError"
  end.

(** ** Synchronisation of a tree: the objects of the idempotence proof *)

Definition is_file (o : option node) : bool :=
  match o with Some (File _ _ _) => true | _ => false end.

Section TreeSync.

Variable env : Env.

(** The source, as [os.walk] is given it (with its final separator), and
    the destination. *)
Variables source_prefix full_dest : string.

(** The file map the source is read from. *)
Variable m0 : gmap key node.

(** Where the two trees are. *)
Definition src_key : key := from_root (getcwd env) source_prefix.
Definition dst_key : key := from_root (getcwd env) full_dest.

(** A state in which the walk can run: no links, a root directory, the
    source as in [m0] and reachable, and no directory in the destination
    where the source has a file. *)
Definition sync_inv (st : state) : Prop :=
  no_symlinks (files st)
  /\ is_dir (files st !! []) = true
  /\ (forall r, files st !! (src_key ++ r) = m0 !! (src_key ++ r))
  /\ reach (files st) [] src_key = true
  /\ is_dir (files st !! src_key) = true
  /\ (forall r, is_file (m0 !! (src_key ++ r)) = true ->
        is_dir (files st !! (dst_key ++ r)) = false).

(** The file at [r] below the destination is no older than the file at [r]
    below the source, within the tolerance. *)
Definition synced (st : state) (r : list string) : Prop :=
  exists t md data t' md' data',
    m0 !! (src_key ++ r) = Some (File t md data)
    /\ node_at (files st) (dst_key ++ r) = Some (File t' md' data')
    /\ ~ (epsilon < t - t')%Q.

(** [st'] comes later: everything is still there and what was in step with
    the source still is. *)
Definition later (st st' : state) : Prop :=
  extends (files st) (files st')
  /\ (forall r, synced st r -> synced st' r).

(** A step of the walk that, run again in any later state, changes nothing
    and makes only read-only calls. *)
Definition idempotent (m : M unit) : Prop :=
  forall st st' t,
    sync_inv st -> m st = (inr tt, st', t) ->
    sync_inv st' /\ later st st'
    /\ forall st2, sync_inv st2 -> later st' st2 ->
         exists t2, m st2 = (inr tt, st2, t2)
                    /\ Forall (fun e => mutating e = false) t2.

(** A directory string of the walk and the names it stands for below the
    source. *)
Definition top_ok (top : string) (rel : list string) : Prop :=
  exists rs,
    top = source_prefix +:+ rs
    /\ Posixpath.startswith_sep rs = false
    /\ components rs = rel
    /\ Forall (fun c => nice c = true) rel.

End TreeSync.

(** A regular file appears or is replaced at [d]; apart from that only the
    listing of the directory above it may change. *)
Definition writes_file (d : key) (n : node) (m m' : gmap key node) : Prop :=
  is_file (Some n) = true
  /\ m' !! d = Some n
  /\ (m !! d = None \/ is_file (m !! d) = true)
  /\ (forall j, j <> d ->
        m' !! j = m !! j
        \/ (j = parent d /\ is_dir (m !! j) = true /\ is_dir (m' !! j) = true)).

Section SourceView.

Variable env : Env.
Variable source_prefix : string.
Variable m0 : gmap key node.

(** The names [rel] lead through directories below the source. *)
Definition src_ok (rel : list string) : bool :=
  match rel with
  | [] => true
  | _ => reach m0 (src_key env source_prefix) rel
  end.

(** What the walk finds at [rel] below the source. *)
Definition src_node (rel : list string) : option node :=
  if src_ok rel then m0 !! (src_key env source_prefix ++ rel) else None.

(** What [os.walk] lists at [rel] below the source. *)
Definition src_listing (rel : list string)
    : option (list string * list string) :=
  match src_node rel with
  | Some (Dir _ es) =>
      let present :=
        List.filter
          (fun c => bool_decide
                      (is_Some (m0 !! ((src_key env source_prefix ++ rel) ++ [c]))))
          es in
      Some (List.filter (fun c => is_dir (src_node (rel ++ [c]))) present,
            List.filter (fun c => negb (is_dir (src_node (rel ++ [c])))) present)
  | _ => None
  end.

End SourceView.

(** The calls that write a file. *)
Definition file_write (e : event) : bool :=
  match e with
  | shutil_copy2 _ _ => true
  | _ => false
  end.

(** A source tree [/ext/foo] with a file and a directory holding a file,
    next to an empty labextensions directory [/lab]. *)
Definition tree_nodes : list (key * node) :=
  [ ([], Dir 0 ["ext"; "lab"]);
    (["ext"], Dir 0 ["foo"]);
    (["ext"; "foo"], Dir 0 ["index.js"; "lib"]);
    (["ext"; "foo"; "index.js"], File 10 420 "index");
    (["ext"; "foo"; "lib"], Dir 0 ["a.js"]);
    (["ext"; "foo"; "lib"; "a.js"], File 12 420 "a");
    (["lab"], Dir 0 []) ].

Definition st_tree : state :=
  {| files := list_to_map tree_nodes; now := 100 |}.

(** A destination with a directory [/lab/s/x] where the source [/s] has the
    file [x]; the directory is older than the file and holds a file [x]
    itself. *)
Definition st_clash : state :=
  {| files :=
       list_to_map
         [ ([], Dir 0 ["s"; "lab"]);
           (["s"], Dir 0 ["x"]);
           (["s"; "x"], File 10 420 "new");
           (["lab"], Dir 0 ["s"]);
           (["lab"; "s"], Dir 0 ["x"]);
           (["lab"; "s"; "x"], Dir 5 ["x"]);
           (["lab"; "s"; "x"; "x"], File 3 420 "old") ];
     now := 100 |}.

(** The test of a property of every node of a disk given as a list. *)
Definition every_node (f : key -> node -> bool) (l : list (key * node))
    : bool :=
  forallb (fun kn => f kn.1 kn.2) l.

Definition not_a_link (_ : key) (n : node) : bool :=
  match n with Symlink _ => false | _ => true end.

Definition nice_listing (_ : key) (n : node) : bool :=
  match n with Dir _ es => forallb nice es | _ => true end.

(** No directory at [kd ++ r] when [ks ++ r] is a file of [m]. *)
Definition no_dir_over_file (m : gmap key node) (ks kd : key) (k : key)
    (n : node) : bool :=
  match n with
  | Dir _ _ =>
      negb (bool_decide (take (length kd) k = kd))
      || negb (is_file (m !! (ks ++ drop (length kd) k)))
  | _ => true
  end.

(** ** Further reference points *)

(** A source checkout [/work/ext]: the name [ext] does not import, the
    directory holds the packages [ext_pkg] and [ext_pkg.tests], and
    [ext_pkg] declares one extension. *)
Definition ext_pkg : module_obj :=
  {| module_file := "/work/ext/ext_pkg/__init__.py";
     labextension_paths := Some [ {| src := "static"; dest := "ext" |} ] |}.

Definition env_checkout : Env :=
  {| jupyter_data_dir := jupyter_data_dir env0;
     ENV_JUPYTER_PATH := ENV_JUPYTER_PATH env0;
     SYSTEM_JUPYTER_PATH := SYSTEM_JUPYTER_PATH env0;
     getcwd := getcwd env0;
     repr_str := repr_str env0;
     recursion_limit := recursion_limit env0;
     import_item :=
       fun name => if String.eqb name "ext_pkg" then Some ext_pkg else None;
     find_packages :=
       fun d => if String.eqb d "ext" then ["ext_pkg"; "ext_pkg.tests"] else [] |}.

Definition st_checkout : state :=
  {| files :=
       list_to_map
         [ ([], Dir 0 ["work"]);
           (["work"], Dir 0 ["ext"]);
           (["work"; "ext"], Dir 0 ["ext_pkg"]);
           (["work"; "ext"; "ext_pkg"], Dir 0 ["__init__.py"]);
           (["work"; "ext"; "ext_pkg"; "__init__.py"], File 1 420 "") ];
     now := 100 |}.

(** A module that has the function and declares nothing. *)
Definition quiet_pkg : module_obj :=
  {| module_file := "/pkgs/quiet/__init__.py"; labextension_paths := Some [] |}.

Definition env_quiet : Env :=
  {| jupyter_data_dir := jupyter_data_dir env0;
     ENV_JUPYTER_PATH := ENV_JUPYTER_PATH env0;
     SYSTEM_JUPYTER_PATH := SYSTEM_JUPYTER_PATH env0;
     getcwd := getcwd env0;
     repr_str := repr_str env0;
     recursion_limit := recursion_limit env0;
     import_item :=
       fun name => if String.eqb name "quiet" then Some quiet_pkg else None;
     find_packages := fun _ => [] |}.

(** The message of the [KeyError] of lines 346-347. *)
Definition missing_paths_msg (module : string) : string :=
  "The Python module " +:+ module
  +:+ " is not a valid labextension, it is missing the `_jupyter_labextension_paths()` method.".

(** ** What name resolution depends on *)

(** Of a node, resolution sees whether it is a directory, a link (and
    where to) or anything else, a missing node included. *)
Inductive shape : Type :=
  | ShDir
  | ShLink (target : string)
  | ShOther.

Definition shape_of (o : option node) : shape :=
  match o with
  | Some (Dir _ _) => ShDir
  | Some (Symlink t) => ShLink t
  | _ => ShOther
  end.

Definition same_shape (m m' : gmap key node) : Prop :=
  forall k, shape_of (m !! k) = shape_of (m' !! k).

(** The calls [_should_copy] makes when the destination exists. *)
Definition staleness_probes (src dest : string) : list event :=
  [os_path_exists dest; os_stat src; os_stat dest].

(** A computation after which everything that was on the disk is still
    there, of the same kind. *)
Definition only_adds {A : Type} (m : M A) : Prop :=
  forall st, extends (files st) (files (m st).1.2).

(** The test that a node is in the listing of the directory above it. *)
Definition listed_in_parent (m : gmap key node) (k : key) (_ : node) : bool :=
  match k with
  | [] => true
  | _ =>
      match m !! parent k with
      | Some (Dir _ es) => existsb (String.eqb (name_of k)) es
      | _ => true
      end
  end.

(** ** The extension builder

    [build_labextension] and [watch_labextension] (lines 162-196) hand the
    work to [build] of [.commands] and to two processes. *)

(** What the two functions use from outside the module: the constant
    [HERE], the [app_dir] attribute of [AppOptions(app_dir=app_dir)], the
    function [build], given here by that attribute and its [command], and
    [subprocess.check_call(argv, cwd=cwd)]. A build or a process can change
    the disk and can fail. *)
Record Tools : Type := {
  HERE : string;
  options_app_dir : option string -> string;
  run_build : string -> string -> state -> (exn + unit) * state;
  run_check_call : list string -> string -> state -> (exn + unit) * state;
}.

(** The calls of these functions, in call order. *)
Inductive call : Type :=
  | fs_call (e : event)
  | build_call (app_dir command : string)
  | process_call (argv : list string) (cwd : string).

Definition B (A : Type) : Type := state -> (exn + A) * state * list call.

Definition bret {A : Type} (a : A) : B A := fun st => (inr a, st, []).

Definition bbind {A C : Type} (m : B A) (k : A -> B C) : B C :=
  fun st =>
    match m st with
    | (inl e, st', t) => (inl e, st', t)
    | (inr a, st', t) =>
        match k a st' with
        | (r, st'', t') => (r, st'', t ++ t')
        end
    end.

#[global] Instance B_ret : MRet B := @bret.
#[global] Instance B_bind : MBind B := fun _ _ k m => bbind m k.

(** A call into the file system made from these functions. *)
Definition fs {A : Type} (m : M A) : B A :=
  fun st => match m st with (r, st', t) => (r, st', List.map fs_call t) end.

Section Builder.

Variable env : Env.
Variable tools : Tools.

Definition build (app_dir command : string) : B unit :=
  fun st =>
    match run_build tools app_dir command st with
    | (r, st') => (r, st', [build_call app_dir command])
    end.

Definition check_call (argv : list string) (cwd : string) : B unit :=
  fun st =>
    match run_check_call tools argv cwd st with
    | (r, st') => (r, st', [process_call argv cwd])
    end.

(** The path of the builder script below the application directory of the
    options, lines 168-169 and 186-187. *)
Definition builder_of (options_dir : string) : string :=
  let staging_path := pjoin options_dir ["staging"] in
  pjoin staging_path
    ["node_modules"; "@jupyterlab"; "buildutils"; "lib"; "build-extension.js"].

(** [build_labextension] (lines 162-177) *)
Definition build_labextension (path : string) (app_dir : option string)
    : B unit :=
  let core_path := pjoin (HERE tools) ["staging"] in
  let options_dir := options_app_dir tools app_dir in
  build options_dir "build:nobuild";;
  let builder := builder_of options_dir in
  let path := Posixpath.abspath (getcwd env) path in
  e ← fs (exists_ env (pjoin path ["node_modules"]));
  (if negb e then check_call ["jlpm"] path else mret tt);;
  check_call ["node"; builder; "--core-path"; core_path; path] path.

(** [watch_labextension] (lines 180-196) *)
Definition watch_labextension (path : string) (app_dir : option string)
    : B unit :=
  let core_path := pjoin (HERE tools) ["staging"] in
  let options_dir := options_app_dir tools app_dir in
  build options_dir "build:nobuild";;
  let builder := builder_of options_dir in
  let path := Posixpath.abspath (getcwd env) path in
  e ← fs (exists_ env (pjoin path ["node_modules"]));
  (if negb e then check_call ["jlpm"] path else mret tt);;
  check_call ["node"; builder; "--core-path"; core_path; "--watch"; path] path.

End Builder.

(** The processes among the calls. *)
Definition processes (t : list call) : list (list string * string) :=
  omap (fun c => match c with
                 | process_call argv cwd => Some (argv, cwd)
                 | _ => None
                 end) t.

(** The command line of the builder, as [build_labextension] gives it. *)
Definition node_argv (tools : Tools) (app_dir : option string)
    (path : string) : list string :=
  ["node"; builder_of (options_app_dir tools app_dir); "--core-path";
   pjoin (HERE tools) ["staging"]; path].

(** A call without the [--watch] argument of the builder. *)
Definition unwatch (c : call) : call :=
  match c with
  | process_call [node; builder; flag; core_path; "--watch"; path] cwd =>
      process_call [node; builder; flag; core_path; path] cwd
  | c => c
  end.

(** Tools that succeed and change nothing, for the closed examples. *)
Definition tools0 : Tools :=
  {| HERE := "/site/jupyterlab";
     options_app_dir := fun d => default "/app" d;
     run_build := fun _ _ st => (inr tt, st);
     run_check_call := fun _ _ st => (inr tt, st) |}.

(** * Theorems *)

(** ** Running a computation *)

Lemma run_bind {A B : Type} (m : M A) (k : A -> M B) (st : state) :
  (m ≫= k) st =
  match m st with
  | (inl e, st', t) => (inl e, st', t)
  | (inr a, st', t) =>
      match k a st' with
      | (r, st'', t') => (r, st'', t ++ t')
      end
  end.
Proof. reflexivity. Qed.

Lemma run_ret {A : Type} (a : A) (st : state) :
  (mret a : M A) st = (inr a, st, []).
Proof. reflexivity. Qed.

Lemma run_bind_ok {A B : Type} (m : M A) (k : A -> M B) st a st' t :
  m st = (inr a, st', t) ->
  (m ≫= k) st = match k a st' with (r, st'', t') => (r, st'', t ++ t') end.
Proof. intros H. rewrite run_bind, H. reflexivity. Qed.

Lemma run_bind_err {A B : Type} (m : M A) (k : A -> M B) st e st' t :
  m st = (inl e, st', t) ->
  (m ≫= k) st = (inl e, st', t).
Proof. intros H. rewrite run_bind, H. reflexivity. Qed.

Lemma run_bind_observe {A B : Type} ev (f : state -> A) (k : A -> M B) st :
  (observe ev f ≫= k) st =
  match k (f st) st with (r, st', t) => (r, st', ev :: t) end.
Proof. rewrite run_bind. unfold observe. reflexivity. Qed.

(** ** Path arithmetic *)

Arguments Posixpath.join : simpl never.
Arguments Posixpath.normpath : simpl never.

Lemma append_assoc (a b c : string) : (a +:+ b) +:+ c = a +:+ (b +:+ c).
Proof.
  induction a as [|x a IH]; [reflexivity |].
  change (String x ((a +:+ b) +:+ c) = String x (a +:+ (b +:+ c))).
  now rewrite IH.
Qed.

Lemma append_nonempty_eqb (a b : string) :
  b <> "" -> String.eqb (a +:+ b) "" = false.
Proof.
  intros Hb. destruct a; [| reflexivity].
  destruct b; [congruence | reflexivity].
Qed.

Lemma endswith_sep_append (a b : string) :
  b <> "" -> Posixpath.endswith_sep (a +:+ b) = Posixpath.endswith_sep b.
Proof.
  intros Hb. induction a as [|x a IH]; [reflexivity |].
  change (Posixpath.endswith_sep (String x (a +:+ b))
          = Posixpath.endswith_sep b).
  rewrite <- IH. destruct (a +:+ b) eqn:E; [| reflexivity].
  destruct a; [| discriminate E].
  change (b = "") in E. congruence.
Qed.

(** Joining a name to a path that ends in a name. *)
Lemma join2_after (a b c : string) :
  b <> "" -> Posixpath.endswith_sep b = false ->
  Posixpath.startswith_sep c = false ->
  Posixpath.join2 (a +:+ b) c = a +:+ (b +:+ "/" +:+ c).
Proof.
  intros Hb He Hc. unfold Posixpath.join2.
  rewrite Hc, (append_nonempty_eqb a b Hb), (endswith_sep_append a b Hb), He.
  cbv iota. change (false || false) with false. cbv iota.
  apply append_assoc.
Qed.

(** Joining the three names one by one is joining their path. *)
Lemma join_share_jupyter (p : string) :
  pjoin p ["share"; "jupyter"; "labextensions"]
  = pjoin p ["share/jupyter/labextensions"].
Proof.
  unfold Posixpath.join, fold_left.
  unfold Posixpath.join2 at 3 4.
  change (Posixpath.startswith_sep "share") with false.
  change (Posixpath.startswith_sep "share/jupyter/labextensions") with false.
  cbv iota.
  destruct (String.eqb p "" || Posixpath.endswith_sep p).
  - rewrite (join2_after p "share" "jupyter") by (discriminate || reflexivity).
    change ("share" +:+ "/" +:+ "jupyter") with "share/jupyter".
    rewrite (join2_after p "share/jupyter" "labextensions")
      by (discriminate || reflexivity).
    reflexivity.
  - rewrite (join2_after p ("/" +:+ "share") "jupyter")
      by (discriminate || reflexivity).
    change (("/" +:+ "share") +:+ "/" +:+ "jupyter") with "/share/jupyter".
    rewrite (join2_after p "/share/jupyter" "labextensions")
      by (discriminate || reflexivity).
    reflexivity.
Qed.

(** ** DestinationResolver *)

Lemma conflicting_set_length env sel :
  length (conflicting_set env sel) = length (conflicting_pairs sel).
Proof. unfold conflicting_set. apply length_map. Qed.

(** The class the resolver names for its error is bound nowhere in the
    module: the [raise] statement ends in a [NameError]. *)
Lemma ArgumentConflict_unbound (msg : string) :
  raise_stmt "ArgumentConflict" msg
  = Exn "NameError" "name 'ArgumentConflict' is not defined".
Proof. reflexivity. Qed.




(** C2: the fixed mapping from the one selector that is set to the
    destination root, and the system-wide default when none is. *)
Theorem C2_destination_mapping (env : Env) (sel : selectors)
    (e0 s0 : string) (erest srest : list string) :
  ENV_JUPYTER_PATH env = e0 :: erest ->
  SYSTEM_JUPYTER_PATH env = s0 :: srest ->
  (length (conflicting_pairs sel) = 1 ->
     (user sel = true ->
        _get_labextension_dir env sel
        = inr (pjoin (jupyter_data_dir env) ["labextensions"]))
     /\ (sys_prefix sel = true ->
        _get_labextension_dir env sel = inr (pjoin e0 ["labextensions"]))
     /\ (forall p, prefix sel = Some p -> p <> "" ->
        _get_labextension_dir env sel
        = inr (pjoin p ["share/jupyter/labextensions"]))
     /\ (forall d, labextensions_dir sel = Some d -> d <> "" ->
        _get_labextension_dir env sel = inr d))
  /\ (length (conflicting_pairs sel) = 0 ->
        _get_labextension_dir env sel = inr (pjoin s0 ["labextensions"])).
Proof.
  intros He Hs.
  assert (Hne : forall s : string, s <> "" -> String.eqb s "" = false).
  { intros s H. apply String.eqb_neq. exact H. }
  unfold _get_labextension_dir. rewrite conflicting_set_length, He, Hs.
  destruct sel as [u sp p d]. unfold conflicting_pairs, conflicting. simpl.
  split.
  - intros Hone. repeat split.
    + intros ->. simpl in *.
      destruct (truthy_str p), (truthy_str d), sp; simpl in *;
        first [discriminate | reflexivity].
    + intros ->. simpl in *.
      destruct u, (truthy_str p), (truthy_str d); simpl in *;
        first [discriminate | reflexivity].
    + intros q -> Hq. simpl in *. rewrite (Hne q Hq) in *. simpl in *.
      destruct u, (truthy_str d), sp; simpl in *; try discriminate.
      rewrite join_share_jupyter. reflexivity.
    + intros q -> Hq. simpl in *. rewrite (Hne q Hq) in *. simpl in *.
      destruct u, (truthy_str p), sp; simpl in *;
        first [discriminate | reflexivity].
  - intros Hzero.
    destruct u, (truthy_str p), (truthy_str d), sp; simpl in *;
      first [discriminate | reflexivity].
Qed.

(** The mapping at an explicit prefix on the example installation. *)
Lemma C2_destination_mapping_witness :
  ENV_JUPYTER_PATH env0 = "/opt/env/share/jupyter" :: []
  /\ SYSTEM_JUPYTER_PATH env0
     = "/usr/local/share/jupyter" :: ["/usr/share/jupyter"]
  /\ _get_labextension_dir env0
       {| user := false; sys_prefix := false; prefix := Some "/opt/p";
          labextensions_dir := None |}
     = inr "/opt/p/share/jupyter/labextensions".
Proof.
  split; [reflexivity | split; [reflexivity |]].
  destruct (C2_destination_mapping env0
              {| user := false; sys_prefix := false; prefix := Some "/opt/p";
                 labextensions_dir := None |}
              "/opt/env/share/jupyter" "/usr/local/share/jupyter"
              [] ["/usr/share/jupyter"] eq_refl eq_refl) as [Hone _].
  destruct (Hone eq_refl) as [_ [_ [Hp _]]].
  rewrite (Hp "/opt/p" eq_refl); [reflexivity | discriminate].
Defined.

(** ** StalenessChecker *)

Lemma should_copy_missing env src dest st :
  exists_b (getcwd env) st dest = false ->
  _should_copy env src dest st = (inr true, st, [os_path_exists dest]).
Proof.
  intros H. unfold _should_copy, exists_. rewrite run_bind_observe, H.
  reflexivity.
Qed.

Lemma should_copy_present env src dest st s d :
  stat_node (getcwd env) st src = Some s ->
  stat_node (getcwd env) st dest = Some d ->
  _should_copy env src dest st
  = (inr (if Qlt_le_dec epsilon (st_mtime (stat_of s) - st_mtime (stat_of d))%Q
          then true else false),
     st, [os_path_exists dest; os_stat src; os_stat dest]).
Proof.
  intros Hs Hd. unfold _should_copy, exists_.
  rewrite run_bind_observe. unfold exists_b. rewrite Hd. cbn [negb].
  rewrite run_bind. unfold stat at 1, perform. rewrite Hs.
  rewrite run_bind. unfold stat at 1, perform. rewrite Hd.
  destruct (Qlt_le_dec _ _); reflexivity.
Qed.

Lemma should_copy_source_missing env src dest st d :
  stat_node (getcwd env) st src = None ->
  stat_node (getcwd env) st dest = Some d ->
  _should_copy env src dest st
  = (inl (os_error "FileNotFoundError" src), st,
     [os_path_exists dest; os_stat src]).
Proof.
  intros Hs Hd. unfold _should_copy, exists_.
  rewrite run_bind_observe. unfold exists_b. rewrite Hd. cbn [negb].
  rewrite run_bind. unfold stat at 1, perform. rewrite Hs. reflexivity.
Qed.


(** C10: the staleness check reads the source's metadata only when the
    destination exists; with the destination missing it answers stale after
    the one existence test, whatever the source is. *)
Theorem C10_source_read_only_when_dest_exists (env : Env) (src dest : string)
    (st : state) :
  (exists_b (getcwd env) st dest = false ->
     exists t, _should_copy env src dest st = (inr true, st, t)
               /\ forall p, ~ In (os_stat p) t)
  /\ (forall r st' t p,
        _should_copy env src dest st = (r, st', t) ->
        In (os_stat p) t -> exists_b (getcwd env) st dest = true).
Proof.
  split.
  - intros H. eexists. split; [apply should_copy_missing, H |].
    intros p [Hp | []]. discriminate Hp.
  - intros r st' t p Hrun Hin.
    destruct (exists_b (getcwd env) st dest) eqn:He; [reflexivity |].
    rewrite (should_copy_missing env src dest st He) in Hrun.
    injection Hrun as _ _ <-. destruct Hin as [Hp | []]. discriminate Hp.
Qed.

(** The missing-destination case on a disk where the source is missing too. *)
Lemma C10_source_read_witness :
  exists_b (getcwd env0) st_empty "/d/a.js" = false
  /\ exists t, _should_copy env0 "/s/a.js" "/d/a.js" st_empty
               = (inr true, st_empty, t)
               /\ forall p, ~ In (os_stat p) t.
Proof.
  split; [reflexivity |].
  apply (proj1 (C10_source_read_only_when_dest_exists env0 "/s/a.js" "/d/a.js"
                  st_empty)).
  reflexivity.
Defined.


(** ** StagingEngine: the order of the first steps *)

Lemma develop_labextension_unfold env path symlink overwrite user
    labextensions_dir destination sys_prefix labext st st1 t1 :
  _get_labextension_dir env
    {| user := user; sys_prefix := sys_prefix; prefix := None;
       labextensions_dir := labextensions_dir |} = inr labext ->
  ensure_dir env labext st = (inr tt, st1, t1) ->
  develop_labextension env path symlink overwrite user labextensions_dir
    destination sys_prefix st
  = match stage_under env labext path symlink overwrite destination st1 with
    | (r, st2, t2) => (r, st2, t1 ++ t2)
    end.
Proof.
  intros Hdir Hens. unfold develop_labextension.
  rewrite run_bind, Hdir. cbn [lift]. unfold ret at 1.
  rewrite run_bind, Hens.
  destruct (stage_under env labext path symlink overwrite destination st1)
    as [[r st2] t2].
  reflexivity.
Qed.




(** ** Multi-target staging *)

Lemma labexts_loop_cons env base_path user sys_prefix overwrite symlink
    labextensions_dir x rest acc st :
  labexts_loop env base_path user sys_prefix overwrite symlink
    labextensions_dir (x :: rest) acc st
  = match stage_entry env base_path user sys_prefix overwrite symlink
            labextensions_dir x st with
    | (inl e, st1, t1) => (inl e, st1, t1)
    | (inr d, st1, t1) =>
        match labexts_loop env base_path user sys_prefix overwrite symlink
                labextensions_dir rest (acc ++ [d]) st1 with
        | (r, st2, t2) => (r, st2, t1 ++ t2)
        end
    end.
Proof. reflexivity. Qed.

(** The loop appends the staged paths, in order, to what it was given. *)
Lemma labexts_loop_staged env base_path user sys_prefix overwrite symlink
    labextensions_dir labexts st ds st' t :
  staged_in_order
    (stage_entry env base_path user sys_prefix overwrite symlink
       labextensions_dir) labexts st ds st' t ->
  forall acc,
    labexts_loop env base_path user sys_prefix overwrite symlink
      labextensions_dir labexts acc st = (inr (acc ++ ds), st', t).
Proof.
  induction 1 as [st | x rest st st1 st2 d ds t1 t2 Hx Hrest IH]; intros acc.
  - cbn. rewrite app_nil_r. reflexivity.
  - rewrite labexts_loop_cons, Hx, IH, <- app_assoc. reflexivity.
Qed.

(** A failing record ends the loop with its error, after the records before
    it and whatever the failing call did itself. *)
Lemma labexts_loop_aborts env base_path user sys_prefix overwrite symlink
    labextensions_dir pre st ds st1 t1 :
  staged_in_order
    (stage_entry env base_path user sys_prefix overwrite symlink
       labextensions_dir) pre st ds st1 t1 ->
  forall x post e st2 t2 acc,
    stage_entry env base_path user sys_prefix overwrite symlink
      labextensions_dir x st1 = (inl e, st2, t2) ->
    labexts_loop env base_path user sys_prefix overwrite symlink
      labextensions_dir (pre ++ x :: post) acc st = (inl e, st2, t1 ++ t2).
Proof.
  induction 1 as [st | y rest st sta stb d ds ta tb Hy Hrest IH];
    intros x post e st2 t2 acc Hx.
  - cbn [app]. rewrite labexts_loop_cons, Hx. reflexivity.
  - cbn [app]. rewrite labexts_loop_cons, Hy.
    rewrite (IH x post e st2 t2 (acc ++ [d]) Hx), <- app_assoc. reflexivity.
Qed.

Lemma staged_in_order_length stage l st ds st' t :
  staged_in_order stage l st ds st' t -> length ds = length l.
Proof. induction 1; [reflexivity | cbn; now f_equal]. Qed.

(** A module that has the attribute is taken as imported, without a call
    into the file system. *)
Lemma metadata_of_provider env module m labexts st :
  import_item env module = Some m ->
  labextension_paths m = Some labexts ->
  _get_labextension_metadata env module st = (inr (m, labexts), st, []).
Proof.
  intros Him Hp. unfold _get_labextension_metadata. rewrite Him.
  unfold has_paths. rewrite Hp.
  rewrite bool_decide_eq_true_2 by (eexists; reflexivity).
  cbn [negb]. rewrite run_bind, run_ret.
  destruct m as [f p]. cbn in Hp. subst p. reflexivity.
Qed.



(** Scenario C of the specification, in copy-mode: the first extension is
    copied, the second has no source, the call fails on it and the first
    stays staged. *)
Example multi_target_second_source_missing :
  exists st' t,
    develop_labextension_py env_pkg "mypkg" false false false false
      (Some "/lab") st_pkg
    = (inl (os_error "FileNotFoundError" "/pkgs/mypkg/two"), st', t)
    /\ files st' !! ["lab"; "x"; "index.js"] = Some (File 3 420 "js")
    /\ files st' !! ["lab"; "y"] = None.
Proof.
  eexists _, _. split; [vm_compute; reflexivity | split; vm_compute; reflexivity].
Qed.

(** ** Name resolution *)

Lemma resolve_nil fuel m follow cur :
  resolve (S fuel) m follow cur [] = Some cur.
Proof. reflexivity. Qed.

Lemma resolve_cons fuel m follow cur c rest :
  resolve (S fuel) m follow cur (c :: rest)
  = if String.eqb c ".." then resolve (S fuel) m follow (removelast cur) rest
    else
      match m !! (cur ++ [c]) with
      | Some (Dir _ _) => resolve (S fuel) m follow (cur ++ [c]) rest
      | Some (Symlink t) =>
          match rest, follow with
          | [], false => Some (cur ++ [c])
          | _, _ =>
              resolve fuel m follow (if Posixpath.isabs t then [] else cur)
                (components t ++ rest)
          end
      | _ => match rest with [] => Some (cur ++ [c]) | _ => None end
      end.
Proof. reflexivity. Qed.

(** Following a last link or not makes no difference when the name found is
    not a link. *)
Lemma resolve_follow_same fuel m cur rest k :
  resolve fuel m false cur rest = Some k ->
  (forall t, m !! k <> Some (Symlink t)) ->
  resolve fuel m true cur rest = Some k.
Proof.
  revert cur rest. induction fuel as [|fuel IHf]; intros cur rest; [discriminate |].
  revert cur. induction rest as [|c rest IHr]; intros cur.
  - rewrite !resolve_nil. auto.
  - rewrite !resolve_cons. destruct (String.eqb c ".."); [apply IHr |].
    destruct (m !! (cur ++ [c])) as [[| |t]|] eqn:Hk.
    + auto.
    + apply IHr.
    + destruct rest as [|c' rest'].
      * intros [= <-] Hno. exfalso. exact (Hno t Hk).
      * apply IHf.
    + auto.
Qed.

Lemma resolve_follow_none fuel m cur rest :
  resolve fuel m false cur rest = None ->
  resolve fuel m true cur rest = None.
Proof.
  revert cur rest. induction fuel as [|fuel IHf]; intros cur rest; [reflexivity |].
  revert cur. induction rest as [|c rest IHr]; intros cur.
  - rewrite !resolve_nil. auto.
  - rewrite !resolve_cons. destruct (String.eqb c ".."); [apply IHr |].
    destruct (m !! (cur ++ [c])) as [[| |t]|] eqn:Hk.
    + auto.
    + apply IHr.
    + destruct rest as [|c' rest'].
      * discriminate.
      * apply IHf.
    + auto.
Qed.

(** A directory that is not reached through a last link is what [isdir]
    accepts and [islink] rejects. *)
Lemma real_directory_tests cwd st p :
  (isdir_b cwd st p && negb (islink_b cwd st p) = true)
  <-> (exists t es, lstat_node cwd st p = Some (Dir t es)).
Proof.
  unfold isdir_b, islink_b, stat_node, lstat_node, locate.
  destruct (String.eqb p ""); [split; [discriminate | intros (? & ? & [=])] |].
  destruct (resolve _ (files st) false _ _) as [k|] eqn:Hn.
  - destruct (files st !! k) as [[| |t]|] eqn:Hk.
    + rewrite (resolve_follow_same _ _ _ _ _ Hn), Hk by congruence.
      split; [discriminate | intros (? & ? & [=])].
    + rewrite (resolve_follow_same _ _ _ _ _ Hn), Hk by congruence.
      split; [eauto | reflexivity].
    + rewrite andb_false_r. split; [discriminate | intros (? & ? & [=])].
    + rewrite (resolve_follow_same _ _ _ _ _ Hn), Hk by congruence.
      split; [discriminate | intros (? & ? & [=])].
  - rewrite (resolve_follow_none _ _ _ _ Hn).
    split; [discriminate | intros (? & ? & [=])].
Qed.

(** What is not there is not there through links either. *)
Lemma lexists_false_exists_false cwd st p :
  lexists_b cwd st p = false -> exists_b cwd st p = false.
Proof.
  unfold lexists_b, exists_b, stat_node, lstat_node, locate.
  destruct (String.eqb p ""); [reflexivity |].
  destruct (resolve _ (files st) false _ _) as [k|] eqn:Hn.
  - destruct (files st !! k) eqn:Hk; [discriminate |]. intros _.
    rewrite (resolve_follow_same _ _ _ _ _ Hn), Hk by congruence. reflexivity.
  - rewrite (resolve_follow_none _ _ _ _ Hn). reflexivity.
Qed.

(** ** What a computation can call *)

Lemma emits_ret {A} P (a : A) : emits P (mret a : M A).
Proof. intros st. constructor. Qed.

Lemma emits_raise {A} P e : emits P (raise e : M A).
Proof. intros st. constructor. Qed.

Lemma emits_lift {A} P (r : exn + A) : emits P (lift r).
Proof. destruct r; [apply emits_raise | apply (emits_ret P)]. Qed.

Lemma emits_bind {A B} P (m : M A) (k : A -> M B) :
  emits P m -> (forall a, emits P (k a)) -> emits P (m ≫= k).
Proof.
  intros Hm Hk st. rewrite run_bind. specialize (Hm st).
  destruct (m st) as [[[e|a] st'] t]; [exact Hm |].
  specialize (Hk a st'). destruct (k a st') as [[r st''] t'].
  cbn in *. apply Forall_app. split; assumption.
Qed.

Lemma emits_observe {A} (P : event -> Prop) ev (f : state -> A) :
  P ev -> emits P (observe ev f).
Proof. intros H st. repeat constructor. exact H. Qed.

Lemma emits_perform {A} (P : event -> Prop) ev
    (f : state -> (exn + A) * state) :
  P ev -> emits P (perform ev f).
Proof.
  intros H st. unfold perform. destruct (f st). repeat constructor. exact H.
Qed.

Lemma emits_for_each {A} P (l : list A) (body : A -> M unit) :
  (forall x, emits P (body x)) -> emits P (for_each l body).
Proof.
  intros H. induction l as [|x l IH]; [apply (emits_ret P) |].
  cbn [for_each]. apply emits_bind; [apply H | intros _; exact IH].
Qed.

Ltac emits_step :=
  first
    [ apply emits_ret | apply emits_raise | apply emits_lift
    | apply emits_observe; reflexivity
    | apply emits_perform; reflexivity
    | apply emits_bind; [| intros ?]
    | apply emits_for_each; intros ?
    | match goal with |- emits _ (if ?b then _ else _) => destruct b end
    | match goal with |- emits _ (match ?x with _ => _ end) => destruct x end ].

Lemma should_copy_keeps env src dest : emits keeps (_should_copy env src dest).
Proof.
  unfold _should_copy, exists_, stat. repeat emits_step.
Qed.

Lemma maybe_copy_keeps env src dest : emits keeps (_maybe_copy env src dest).
Proof.
  unfold _maybe_copy, copy2. apply emits_bind; [apply should_copy_keeps |].
  intros []; repeat emits_step.
Qed.

Lemma walk_body_keeps env path full_dest parent files :
  emits keeps (walk_body env path full_dest parent files).
Proof.
  unfold walk_body, exists_, makedirs.
  apply emits_bind; [repeat emits_step |]. intros e.
  apply emits_bind; [destruct (negb e); repeat emits_step |]. intros _.
  apply emits_for_each. intros f. apply maybe_copy_keeps.
Qed.

Lemma walk_loop_keeps env depth path full_dest top :
  emits keeps (walk_loop env depth path full_dest top).
Proof.
  revert top. induction depth as [|depth IH]; intros top; cbn [walk_loop].
  - apply emits_raise.
  - unfold scandir. apply emits_bind; [repeat emits_step |].
    intros [[dirs nondirs]|]; [| apply (emits_ret keeps)].
    apply emits_bind; [apply walk_body_keeps |]. intros _.
    apply emits_for_each. intros d st.
    destruct (islink_b _ _ _); [constructor | apply IH].
Qed.

Lemma install_at_keeps env path symlink full_dest :
  emits keeps (install_at env path symlink full_dest).
Proof.
  unfold install_at, makedirs.
  apply emits_bind; [repeat emits_step |]. intros _.
  apply emits_bind; [| intros _; apply (emits_ret keeps)].
  destruct symlink.
  - unfold link_mode, exists_, islink, symlink_. repeat emits_step.
  - unfold copy_mode, isdir.
    apply emits_bind; [repeat emits_step |].
    intros []; [apply walk_loop_keeps | apply maybe_copy_keeps].
Qed.

(** ** Removal leaves the rest of the tree alone *)

Lemma del_entry_other t k m k' :
  k' <> parent k -> del_entry t k m !! k' = m !! k'.
Proof.
  intros Hne. unfold del_entry. destruct k as [|c k0]; [reflexivity |].
  destruct (m !! parent (c :: k0)) as [[| |]|]; try reflexivity.
  apply lookup_insert_ne. congruence.
Qed.

Lemma remove_tree_outside t k m k' :
  ~ k `prefix_of` k' -> k' <> parent k ->
  remove_tree t k m !! k' = m !! k'.
Proof.
  intros Hout Hne. unfold remove_tree.
  etransitivity; [| apply (del_entry_other t k m k' Hne)].
  destruct (del_entry t k m !! k') as [n|] eqn:Hl.
  - apply map_lookup_filter_Some. split; [exact Hl | exact Hout].
  - apply map_lookup_filter_None. left. exact Hl.
Qed.

Lemma remove_tree_inside t k m k' :
  k `prefix_of` k' -> remove_tree t k m !! k' = None.
Proof.
  intros Hin. unfold remove_tree. apply map_lookup_filter_None. right.
  intros n _ Hn. apply Hn. exact Hin.
Qed.

Lemma unlink_other t k m k' :
  k' <> k -> k' <> parent k -> unlink t k m !! k' = m !! k'.
Proof.
  intros Hk Hp. unfold unlink. rewrite lookup_delete_ne by congruence.
  apply del_entry_other, Hp.
Qed.

Lemma unlink_gone t k m : unlink t k m !! k = None.
Proof. unfold unlink. apply lookup_delete_eq. Qed.

(** The parent keeps being what it was, a directory loses the name. *)
Lemma del_entry_parent t c k0 m :
  del_entry t (k0 ++ [c]) m !! k0
  = match m !! k0 with
    | Some (Dir _ es) =>
        Some (Dir t (List.filter (fun x => negb (String.eqb x c)) es))
    | o => o
    end.
Proof.
  assert (Hp : parent (k0 ++ [c]) = k0) by apply removelast_last.
  assert (Hn : name_of (k0 ++ [c]) = c) by apply last_last.
  assert (Hne : k0 ++ [c] <> []) by (now destruct k0).
  unfold del_entry.
  destruct (k0 ++ [c]) as [|x l]; [congruence |]. rewrite Hp, Hn.
  destruct (m !! k0) as [[| |]|] eqn:Hl; rewrite ?Hl; try reflexivity.
  apply lookup_insert_eq.
Qed.

Lemma lstat_stat_same cwd st p n :
  lstat_node cwd st p = Some n ->
  (forall t, n <> Symlink t) ->
  stat_node cwd st p = Some n.
Proof.
  unfold lstat_node, stat_node, locate.
  destruct (String.eqb p ""); [discriminate |].
  destruct (resolve _ (files st) false _ _) as [k|] eqn:Hn; [| discriminate].
  intros Hk Hno.
  rewrite (resolve_follow_same _ _ _ _ _ Hn); [exact Hk |].
  intros t. rewrite Hk. intros [= ->]. exact (Hno t eq_refl).
Qed.

(** ** Overwrite *)

(** What [purge] does to an entry that is there: tests, then the one
    removal that fits the entry. *)
Lemma purge_removes env full_dest st k n :
  locate (getcwd env) st false full_dest = Some k ->
  files st !! k = Some n ->
  exists probes,
    purge env full_dest st
    = (inr tt, removed st k n, probes ++ [removal_of n full_dest])
    /\ Forall (fun e => mutating e = false) probes.
Proof.
  intros Hk Hn.
  assert (Hl : lstat_node (getcwd env) st full_dest = Some n).
  { unfold lstat_node. rewrite Hk. exact Hn. }
  unfold purge, lexists, isdir, islink.
  rewrite run_bind_observe. unfold lexists_b at 1. rewrite Hl.
  rewrite run_bind_observe.
  destruct n as [t md data | t es | tgt].
  - assert (Hd : isdir_b (getcwd env) st full_dest = false).
    { unfold isdir_b. rewrite (lstat_stat_same _ _ _ _ Hl) by discriminate.
      reflexivity. }
    rewrite Hd. rewrite run_bind, run_ret. cbn [andb].
    unfold remove, perform. rewrite Hk, Hn.
    exists [os_path_lexists full_dest; os_path_isdir full_dest].
    split; [reflexivity | repeat constructor].
  - assert (Hreal : isdir_b (getcwd env) st full_dest
                    && negb (islink_b (getcwd env) st full_dest) = true)
      by (apply real_directory_tests; eauto).
    apply andb_prop in Hreal as [Hd Hi].
    rewrite Hd. rewrite run_bind_observe.
    apply negb_true_iff in Hi. rewrite Hi. cbn [andb negb].
    unfold rmtree, perform. rewrite Hk, Hn.
    exists [os_path_lexists full_dest; os_path_isdir full_dest;
            os_path_islink full_dest].
    split; [reflexivity | repeat constructor].
  - assert (Hi : islink_b (getcwd env) st full_dest = true).
    { unfold islink_b. rewrite Hl. reflexivity. }
    destruct (isdir_b (getcwd env) st full_dest).
    + rewrite run_bind_observe, Hi. cbn [andb negb].
      unfold remove, perform. rewrite Hk, Hn.
      exists [os_path_lexists full_dest; os_path_isdir full_dest;
              os_path_islink full_dest].
      split; [reflexivity | repeat constructor].
    + rewrite run_bind, run_ret. cbn [andb].
      unfold remove, perform. rewrite Hk, Hn.
      exists [os_path_lexists full_dest; os_path_isdir full_dest].
      split; [reflexivity | repeat constructor].
Qed.

(** The removal is confined to the entry: below it nothing is left when it
    was a directory, the name itself is gone otherwise, and every other
    location but the parent directory, which loses the name, holds what it
    held. *)
Lemma removed_frame st k n :
  files st !! k = Some n ->
  (forall k', k `prefix_of` k' ->
     (exists t es, n = Dir t es) \/ k' = k -> files (removed st k n) !! k' = None)
  /\ (forall k', ~ k `prefix_of` k' -> k' <> parent k ->
        files (removed st k n) !! k' = files st !! k')
  /\ ((forall t es, n <> Dir t es) ->
      forall k', k' <> k -> k' <> parent k ->
        files (removed st k n) !! k' = files st !! k').
Proof.
  intros Hn. split; [| split].
  - intros k' Hpre Hcase. destruct n as [| |]; cbn.
    + destruct Hcase as [(? & ? & [=]) | ->]. apply unlink_gone.
    + apply remove_tree_inside, Hpre.
    + destruct Hcase as [(? & ? & [=]) | ->]. apply unlink_gone.
  - intros k' Hout Hp. destruct n as [| |]; cbn.
    + apply unlink_other; [| exact Hp]. intros ->. apply Hout. reflexivity.
    + apply remove_tree_outside; assumption.
    + apply unlink_other; [| exact Hp]. intros ->. apply Hout. reflexivity.
  - intros Hnd k' Hk Hp. destruct n as [| t es |]; cbn.
    + apply unlink_other; assumption.
    + exfalso. exact (Hnd t es eq_refl).
    + apply unlink_other; assumption.
Qed.

(** C5: with [overwrite] set and something at the destination path once
    the labextensions directory is there, [develop_labextension] removes
    that entry before it stages: with [shutil.rmtree] exactly when it is a
    directory that is not a link, with one [os.remove] otherwise; nothing
    but tests comes before the removal, it is the only deleting call of the
    whole run, and it leaves everything outside the entry in place. *)
Theorem C5_overwrite_removes_only_the_entry (env : Env) (path : string)
    (symlink user : bool) (labextensions_dir destination : option string)
    (sys_prefix : bool) (labext : string) (st0 st : state) (t0 : list event)
    (k : key) (n : node) :
  let full_dest := full_dest_of labext (destination_name destination path) in
  _get_labextension_dir env
    {| user := user; sys_prefix := sys_prefix; prefix := None;
       labextensions_dir := labextensions_dir |} = inr labext ->
  ensure_dir env labext st0 = (inr tt, st, t0) ->
  locate (getcwd env) st false full_dest = Some k ->
  files st !! k = Some n ->
  exists probes r st2 t2,
    develop_labextension env (PathStr path) symlink true user
      labextensions_dir destination sys_prefix st0
    = (r, st2, t0 ++ probes ++ removal_of n full_dest :: t2)
    /\ install_at env path symlink full_dest (removed st k n) = (r, st2, t2)
    /\ Forall (fun e => mutating e = false) probes
    /\ Forall keeps (t0 ++ probes ++ t2)
    /\ (removal_of n full_dest = shutil_rmtree full_dest
        <-> exists t es, lstat_node (getcwd env) st full_dest = Some (Dir t es))
    /\ (removal_of n full_dest = shutil_rmtree full_dest
        \/ removal_of n full_dest = os_remove full_dest)
    /\ (forall k', k `prefix_of` k' ->
          (exists t es, n = Dir t es) \/ k' = k ->
          files (removed st k n) !! k' = None)
    /\ (forall k', ~ k `prefix_of` k' -> k' <> parent k ->
          files (removed st k n) !! k' = files st !! k')
    /\ ((forall t es, n <> Dir t es) ->
        forall k', k' <> k -> k' <> parent k ->
          files (removed st k n) !! k' = files st !! k').
Proof.
  intros full_dest Hdir Hens Hk Hn.
  destruct (purge_removes env full_dest st k n Hk Hn) as (probes & Hpurge & Hprobes).
  destruct (install_at env path symlink full_dest (removed st k n))
    as [[r st2] t2] eqn:Hinst.
  exists probes, r, st2, t2.
  assert (Hl : lstat_node (getcwd env) st full_dest = Some n).
  { unfold lstat_node. rewrite Hk. exact Hn. }
  split; [| split; [reflexivity | split; [exact Hprobes | split; [| split; [| split]]]]].
  - rewrite (develop_labextension_unfold _ _ _ _ _ _ _ _ _ _ _ _ Hdir Hens).
    unfold stage_under. rewrite run_bind, run_ret.
    fold full_dest. rewrite run_bind, Hpurge, Hinst.
    cbn [app]. rewrite <- app_assoc. reflexivity.
  - apply Forall_app. split.
    + pose proof (emits_perform keeps (ensure_dir_exists labext)
                    (fun st => match makedirs_rec env (S (String.length labext)) labext false st with
                               | (inl e, st') =>
                                   if String.eqb (exn_class e) "FileExistsError"
                                   then (if isdir_b (getcwd env) st' labext then (inr tt, st')
                                         else (inl (Exn "IOError" labext), st'))
                                   else (inl e, st')
                               | (inr _, st') =>
                                   if isdir_b (getcwd env) st' labext then (inr tt, st')
                                   else (inl (Exn "IOError" labext), st')
                               end) eq_refl st0) as H.
      fold (ensure_dir env labext) in H. rewrite Hens in H. exact H.
    + apply Forall_app. split.
      * eapply Forall_impl; [exact Hprobes |].
        intros [] H; first [reflexivity | discriminate H].
      * pose proof (install_at_keeps env path symlink full_dest (removed st k n)) as H.
        rewrite Hinst in H. exact H.
  - rewrite Hl. destruct n; cbn; split;
      first [ discriminate | intros (? & ? & [=]); fail | eauto ].
  - destruct n; cbn; auto.
  - apply (removed_frame st k n Hn).
Qed.

(** An installed directory replaced by a link: the theorem applied to
    [/lab/foo] on the example disk. *)
Lemma C5_overwrite_witness :
  _get_labextension_dir env0
    {| user := false; sys_prefix := false; prefix := None;
       labextensions_dir := Some "/lab" |} = inr "/lab"
  /\ ensure_dir env0 "/lab" st_installed
     = (inr tt, st_installed, [ensure_dir_exists "/lab"])
  /\ locate (getcwd env0) st_installed false "/lab/foo" = Some ["lab"; "foo"]
  /\ files st_installed !! ["lab"; "foo"] = Some (Dir 0 ["old.js"])
  /\ exists probes r st2 t2,
       develop_labextension env0 (PathStr "/ext/foo") true true false
         (Some "/lab") None false st_installed
       = (r, st2,
          [ensure_dir_exists "/lab"] ++ probes ++ shutil_rmtree "/lab/foo" :: t2)
       /\ Forall keeps ([ensure_dir_exists "/lab"] ++ probes ++ t2).
Proof.
  assert (H1 : _get_labextension_dir env0
                 {| user := false; sys_prefix := false; prefix := None;
                    labextensions_dir := Some "/lab" |} = inr "/lab")
    by reflexivity.
  assert (H2 : ensure_dir env0 "/lab" st_installed
               = (inr tt, st_installed, [ensure_dir_exists "/lab"]))
    by (vm_compute; reflexivity).
  assert (H3 : locate (getcwd env0) st_installed false
                 (full_dest_of "/lab" (destination_name None "/ext/foo"))
               = Some ["lab"; "foo"]) by (vm_compute; reflexivity).
  assert (H4 : files st_installed !! ["lab"; "foo"] = Some (Dir 0 ["old.js"]))
    by (vm_compute; reflexivity).
  split; [exact H1 | split; [exact H2 | split; [exact H3 | split; [exact H4 |]]]].
  destruct (C5_overwrite_removes_only_the_entry env0 "/ext/foo" true false
              (Some "/lab") None false "/lab" st_installed st_installed
              [ensure_dir_exists "/lab"] ["lab"; "foo"] (Dir 0 ["old.js"])
              H1 H2 H3 H4)
    as (probes & r & st2 & t2 & Hrun & _ & _ & Hkeeps & _).
  exists probes, r, st2, t2. split; [exact Hrun | exact Hkeeps].
Defined.

(** Overwriting on the example disk: the old file is gone, the neighbour is
    untouched, and the entry is now the link. *)
Example overwrite_replaces_the_tree :
  exists st' t,
    develop_labextension env0 (PathStr "/ext/foo") true true false
      (Some "/lab") None false st_installed = (inr "/lab/foo", st', t)
    /\ files st' !! ["lab"; "foo"; "old.js"] = None
    /\ files st' !! ["lab"; "foo"] = Some (Symlink "/ext/foo")
    /\ files st' !! ["lab"; "bar"; "keep.js"] = Some (File 5 420 "keep").
Proof.
  eexists _, _.
  split; [vm_compute; reflexivity | repeat split; vm_compute; reflexivity].
Qed.

(** ** Link-mode *)

(** C4, where the code departs from it: the destination is a link whose
    target is not there. Staging a source that does not exist creates such a
    link; staging it again finds the link, takes the destination for absent
    because [os.path.exists] follows it, calls [os.symlink] over it and fails
    with FileExistsError. *)
Theorem C4_restage_over_dangling_link_fails :
  exists st1 t1 t2,
    develop_labextension env0 (PathStr "/ext/foo") true false false
      (Some "/lab") None false st_lab = (inr "/lab/foo", st1, t1)
    /\ lstat_node (getcwd env0) st1 "/lab/foo" = Some (Symlink "/ext/foo")
    /\ islink_b (getcwd env0) st1 "/lab/foo" = true
    /\ exists_b (getcwd env0) st1 "/lab/foo" = false
    /\ develop_labextension env0 (PathStr "/ext/foo") true false false
         (Some "/lab") None false st1
       = (inl (os_error "FileExistsError" "/lab/foo"), st1, t2)
    /\ t2 = [ensure_dir_exists "/lab"; os_makedirs "/lab" true;
             os_path_exists "/lab/foo"; os_symlink "/ext/foo" "/lab/foo"].
Proof.
  eexists _, _, _.
  split; [vm_compute; reflexivity |].
  repeat split; vm_compute; reflexivity.
Qed.

(** The four ways through the link-mode step, by what is at the
    destination: nothing, a link that resolves, something that is not a link,
    a link that does not resolve. *)
Lemma link_mode_cases env path full_dest st :
  let source := Posixpath.abspath (getcwd env) path in
  (forall k, lexists_b (getcwd env) st full_dest = false ->
     locate (getcwd env) st false full_dest = Some k -> k <> [] ->
     link_mode env path full_dest st
     = (inr tt,
        with_files st (create (now st) k (Symlink source) (files st)),
        [os_path_exists full_dest; os_symlink source full_dest]))
  /\ (islink_b (getcwd env) st full_dest = true ->
      exists_b (getcwd env) st full_dest = true ->
      link_mode env path full_dest st
      = (inr tt, st, [os_path_exists full_dest; os_path_islink full_dest]))
  /\ (exists_b (getcwd env) st full_dest = true ->
      islink_b (getcwd env) st full_dest = false ->
      link_mode env path full_dest st
      = (inl (Exn "ValueError" (source +:+ " exists and is not a symlink")),
         st, [os_path_exists full_dest; os_path_islink full_dest]))
  /\ (islink_b (getcwd env) st full_dest = true ->
      exists_b (getcwd env) st full_dest = false ->
      link_mode env path full_dest st
      = (inl (os_error "FileExistsError" full_dest), st,
         [os_path_exists full_dest; os_symlink source full_dest])).
Proof.
  intros source. unfold link_mode, exists_, islink. fold source.
  repeat split.
  - intros k Hl Hk Hne. rewrite run_bind_observe.
    rewrite (lexists_false_exists_false _ _ _ Hl). cbn [negb].
    unfold symlink_, perform. rewrite Hk.
    unfold lexists_b, lstat_node in Hl. rewrite Hk in Hl.
    destruct k as [|c k0]; [congruence |].
    destruct (files st !! (c :: k0)); [discriminate | reflexivity].
  - intros Hi He. rewrite run_bind_observe, He. cbn [negb].
    rewrite run_bind_observe, Hi. reflexivity.
  - intros He Hi. rewrite run_bind_observe, He. cbn [negb].
    rewrite run_bind_observe, Hi. reflexivity.
  - intros Hi He. rewrite run_bind_observe, He. cbn [negb].
    unfold symlink_, perform.
    unfold islink_b, lstat_node in Hi.
    destruct (locate (getcwd env) st false full_dest) as [k|]; [| discriminate].
    destruct k as [|c k0].
    + destruct (files st !! []); reflexivity.
    + destruct (files st !! (c :: k0)) as [n|]; [reflexivity | discriminate].
Qed.

(** ** Creating directories only adds *)

Lemma same_kind_refl n : same_kind n n.
Proof. destruct n; cbn; auto. Qed.

Lemma same_kind_trans n1 n2 n3 :
  same_kind n1 n2 -> same_kind n2 n3 -> same_kind n1 n3.
Proof. destruct n1, n2, n3; cbn; intuition congruence. Qed.

Lemma extends_refl m : extends m m.
Proof. intros k n H. exists n. split; [exact H | apply same_kind_refl]. Qed.

Lemma extends_trans m1 m2 m3 :
  extends m1 m2 -> extends m2 m3 -> extends m1 m3.
Proof.
  intros H12 H23 k n H. destruct (H12 k n H) as (n2 & H2 & K2).
  destruct (H23 k n2 H2) as (n3 & H3 & K3).
  exists n3. split; [exact H3 | eapply same_kind_trans; eassumption].
Qed.

Lemma add_entry_extends t k m : extends m (add_entry t k m).
Proof.
  unfold add_entry. destruct k as [|c k0]; [apply extends_refl |].
  destruct (m !! parent (c :: k0)) as [[| t' es |]|] eqn:Hp;
    try apply extends_refl.
  intros j n Hj. destruct (decide (j = parent (c :: k0))) as [->|Hne].
  - rewrite lookup_insert_eq. eexists. split; [reflexivity |].
    rewrite Hp in Hj. injection Hj as <-. exact I.
  - rewrite lookup_insert_ne by congruence.
    exists n. split; [exact Hj | apply same_kind_refl].
Qed.

Lemma create_extends t k n m :
  m !! k = None -> extends m (create t k n m).
Proof.
  intros Hk j nj Hj. unfold create.
  destruct (decide (j = k)) as [->|Hne]; [congruence |].
  rewrite lookup_insert_ne by congruence.
  apply add_entry_extends, Hj.
Qed.

Lemma mkdir_extends env name st r st' :
  mkdir env name st = (r, st') -> extends (files st) (files st').
Proof.
  unfold mkdir. destruct (locate _ st false name) as [k|].
  - destruct k as [|c k0].
    + intros [= _ <-]. apply extends_refl.
    + destruct (files st !! (c :: k0)) eqn:Hk.
      * intros [= _ <-]. apply extends_refl.
      * intros [= _ <-]. apply create_extends, Hk.
  - intros [= _ <-]. apply extends_refl.
Qed.

Lemma makedirs_rec_extends env fuel name exist_ok st r st' :
  makedirs_rec env fuel name exist_ok st = (r, st') ->
  extends (files st) (files st').
Proof.
  revert name st r st'. induction fuel as [|fuel IH]; intros name st r st'.
  - intros [= _ <-]. apply extends_refl.
  - cbn [makedirs_rec].
    destruct (Posixpath.split name) as [head0 tail0].
    destruct (if String.eqb tail0 "" then Posixpath.split head0
              else (head0, tail0)) as [head tail].
    assert (Hleaf : forall s r' s',
      match mkdir env name s with
      | (inl e, s1) =>
          if negb exist_ok || negb (isdir_b (getcwd env) s1 name)
          then (inl e, s1) else (inr tt, s1)
      | ok => ok
      end = (r', s') -> extends (files s) (files s')).
    { intros s r' s'. destruct (mkdir env name s) as [[e|[]] s1] eqn:Hm.
      - destruct (negb exist_ok || negb (isdir_b _ s1 name));
          intros [= _ <-]; eapply mkdir_extends; eassumption.
      - intros [= _ <-]. eapply mkdir_extends; eassumption. }
    destruct (negb (String.eqb head "") && negb (String.eqb tail "")
              && negb (exists_b (getcwd env) st head)); [| apply Hleaf].
    destruct (makedirs_rec env fuel head exist_ok st) as [[e|[]] s1] eqn:Hrec.
    + destruct (String.eqb (exn_class e) "FileExistsError").
      * destruct (String.eqb tail ".").
        -- intros [= _ <-]. eapply IH; eassumption.
        -- intros H. eapply extends_trans; [eapply IH; eassumption |].
           eapply Hleaf; eassumption.
      * intros [= _ <-]. eapply IH; eassumption.
    + destruct (String.eqb tail ".").
      * intros [= _ <-]. eapply IH; eassumption.
      * intros H. eapply extends_trans; [eapply IH; eassumption |].
        eapply Hleaf; eassumption.
Qed.

Lemma makedirs_extends env name exist_ok st r st' t :
  makedirs env name exist_ok st = (r, st', t) ->
  extends (files st) (files st').
Proof.
  unfold makedirs, perform.
  destruct (makedirs_rec env _ name exist_ok st) as [r0 s0] eqn:H.
  intros [= _ <- _]. eapply makedirs_rec_extends; eassumption.
Qed.

Lemma ensure_dir_extends env path st r st' t :
  ensure_dir env path st = (r, st', t) ->
  extends (files st) (files st').
Proof.
  unfold ensure_dir, perform.
  destruct (makedirs_rec env _ path false st) as [[e|[]] s0] eqn:H;
    repeat match goal with |- context [if ?b then _ else _] => destruct b end;
    intros [= _ <- _]; eapply makedirs_rec_extends; eassumption.
Qed.

(** A name that resolved to something resolves to the same place after
    additions. *)
Lemma resolve_extends fuel m m' follow cur rest k :
  extends m m' ->
  resolve fuel m follow cur rest = Some k ->
  is_Some (m !! k) ->
  resolve fuel m' follow cur rest = Some k.
Proof.
  intros Hext. revert cur rest.
  induction fuel as [|fuel IHf]; intros cur rest; [discriminate |].
  revert cur. induction rest as [|c rest IHr]; intros cur.
  - rewrite !resolve_nil. auto.
  - rewrite !resolve_cons. destruct (String.eqb c ".."); [apply IHr |].
    destruct (m !! (cur ++ [c])) as [n|] eqn:Hk.
    + destruct (Hext _ _ Hk) as (n' & Hk' & Hkind). rewrite Hk'.
      destruct n as [| |t], n' as [| |t']; cbn in Hkind; try contradiction.
      * auto.
      * apply IHr.
      * subst t'. destruct rest as [|c' rest'].
        -- destruct follow; [apply IHf | auto].
        -- apply IHf.
    + destruct rest as [|c' rest']; [| discriminate].
      intros [= <-] [n Hn]. congruence.
Qed.

Lemma lstat_extends cwd st st' p n :
  extends (files st) (files st') ->
  lstat_node cwd st p = Some n ->
  exists n', lstat_node cwd st' p = Some n' /\ same_kind n n'.
Proof.
  intros Hext. unfold lstat_node, locate.
  destruct (String.eqb p ""); [discriminate |].
  destruct (resolve _ (files st) false _ _) as [k|] eqn:Hr; [| discriminate].
  intros Hk.
  rewrite (resolve_extends _ _ _ _ _ _ _ Hext Hr) by (rewrite Hk; eauto).
  apply Hext, Hk.
Qed.

Lemma stat_extends cwd st st' p n :
  extends (files st) (files st') ->
  stat_node cwd st p = Some n ->
  exists n', stat_node cwd st' p = Some n' /\ same_kind n n'.
Proof.
  intros Hext. unfold stat_node, locate.
  destruct (String.eqb p ""); [discriminate |].
  destruct (resolve _ (files st) true _ _) as [k|] eqn:Hr; [| discriminate].
  intros Hk.
  rewrite (resolve_extends _ _ _ _ _ _ _ Hext Hr) by (rewrite Hk; eauto).
  apply Hext, Hk.
Qed.

Lemma islink_extends cwd st st' p :
  extends (files st) (files st') ->
  islink_b cwd st p = true ->
  islink_b cwd st' p = true /\ lstat_node cwd st' p = lstat_node cwd st p.
Proof.
  intros Hext. unfold islink_b.
  destruct (lstat_node cwd st p) as [[| |t]|] eqn:Hl; try discriminate.
  intros _. destruct (lstat_extends _ _ _ _ _ Hext Hl) as (n' & Hl' & Hkind).
  rewrite Hl'. destruct n'; cbn in Hkind; try contradiction.
  subst. split; reflexivity.
Qed.

Lemma exists_extends cwd st st' p :
  extends (files st) (files st') ->
  exists_b cwd st p = true -> exists_b cwd st' p = true.
Proof.
  intros Hext. unfold exists_b.
  destruct (stat_node cwd st p) as [n|] eqn:Hs; [| discriminate].
  intros _. destruct (stat_extends _ _ _ _ _ Hext Hs) as (n' & Hs' & _).
  rewrite Hs'. reflexivity.
Qed.

(** C9, as the code has it: without [overwrite], a link-mode request whose
    destination is, when the call is made, a symbolic link that resolves to
    something, and that gets past the creation of the labextensions
    directory and of the destination's parent, returns the destination path
    after two tests of the destination and nothing else: no [os.symlink], no
    reading of the link; the link is the same link afterwards, whatever it
    points to. *)
Theorem C9_resolving_link_left_alone (env : Env) (path : string)
    (user : bool) (labextensions_dir destination : option string)
    (sys_prefix : bool) (labext : string) (st st1 st2 : state)
    (t1 t2 : list event) :
  let full_dest := full_dest_of labext (destination_name destination path) in
  _get_labextension_dir env
    {| user := user; sys_prefix := sys_prefix; prefix := None;
       labextensions_dir := labextensions_dir |} = inr labext ->
  islink_b (getcwd env) st full_dest = true ->
  exists_b (getcwd env) st full_dest = true ->
  ensure_dir env labext st = (inr tt, st1, t1) ->
  makedirs env (Posixpath.dirname full_dest) true st1 = (inr tt, st2, t2) ->
  develop_labextension env (PathStr path) true false user labextensions_dir
    destination sys_prefix st
  = (inr full_dest, st2,
     t1 ++ t2 ++ [os_path_exists full_dest; os_path_islink full_dest])
  /\ lstat_node (getcwd env) st2 full_dest = lstat_node (getcwd env) st full_dest.
Proof.
  intros full_dest Hdir Hi He Hens Hmk.
  assert (Hext : extends (files st) (files st2)).
  { eapply extends_trans;
      [eapply ensure_dir_extends | eapply makedirs_extends]; eassumption. }
  destruct (islink_extends _ _ _ _ Hext Hi) as [Hi2 Hsame].
  pose proof (exists_extends _ _ _ _ Hext He) as He2.
  split; [| exact Hsame].
  rewrite (develop_labextension_unfold _ _ _ _ _ _ _ _ _ _ _ _ Hdir Hens).
  unfold stage_under. rewrite run_bind, run_ret. fold full_dest.
  rewrite run_bind, run_ret. unfold install_at.
  rewrite run_bind, Hmk.
  destruct (link_mode_cases env path full_dest st2) as (_ & Hlink & _).
  rewrite run_bind, (Hlink Hi2 He2), run_ret.
  cbn [app]. reflexivity.
Qed.

(** A link to [/old/foo] met by a request for [/new/foo]: nothing changes. *)
Lemma C9_resolving_link_witness :
  _get_labextension_dir env0
    {| user := false; sys_prefix := false; prefix := None;
       labextensions_dir := Some "/lab" |} = inr "/lab"
  /\ islink_b (getcwd env0) st_linked "/lab/foo" = true
  /\ exists_b (getcwd env0) st_linked "/lab/foo" = true
  /\ develop_labextension env0 (PathStr "/new/foo") true false false
       (Some "/lab") None false st_linked
     = (inr "/lab/foo", st_linked,
        [ensure_dir_exists "/lab"; os_makedirs "/lab" true;
         os_path_exists "/lab/foo"; os_path_islink "/lab/foo"])
  /\ lstat_node (getcwd env0) st_linked "/lab/foo" = Some (Symlink "/old/foo").
Proof.
  assert (H1 : _get_labextension_dir env0
                 {| user := false; sys_prefix := false; prefix := None;
                    labextensions_dir := Some "/lab" |} = inr "/lab")
    by reflexivity.
  assert (H2 : islink_b (getcwd env0) st_linked
                 (full_dest_of "/lab" (destination_name None "/new/foo")) = true)
    by (vm_compute; reflexivity).
  assert (H3 : exists_b (getcwd env0) st_linked
                 (full_dest_of "/lab" (destination_name None "/new/foo")) = true)
    by (vm_compute; reflexivity).
  assert (H4 : ensure_dir env0 "/lab" st_linked
               = (inr tt, st_linked, [ensure_dir_exists "/lab"]))
    by (vm_compute; reflexivity).
  assert (H5 : makedirs env0
                 (Posixpath.dirname
                    (full_dest_of "/lab" (destination_name None "/new/foo")))
                 true st_linked
               = (inr tt, st_linked, [os_makedirs "/lab" true]))
    by (vm_compute; reflexivity).
  split; [exact H1 | split; [exact H2 | split; [exact H3 |]]].
  destruct (C9_resolving_link_left_alone env0 "/new/foo" false (Some "/lab")
              None false "/lab" st_linked st_linked st_linked _ _
              H1 H2 H3 H4 H5) as [Hrun Hsame].
  split; [exact Hrun |]. vm_compute. reflexivity.
Defined.

(** C9 as stated fails: with [overwrite] the link that is there is removed
    and a new one made, to the source of the request. *)
Lemma C9_overwrite_replaces_the_link :
  lstat_node (getcwd env0) st_linked "/lab/foo" = Some (Symlink "/old/foo")
  /\ exists st' t,
       develop_labextension env0 (PathStr "/new/foo") true true false
         (Some "/lab") None false st_linked = (inr "/lab/foo", st', t)
       /\ lstat_node (getcwd env0) st' "/lab/foo" = Some (Symlink "/new/foo")
       /\ In (os_remove "/lab/foo") t
       /\ In (os_symlink "/new/foo" "/lab/foo") t.
Proof.
  split; [vm_compute; reflexivity |].
  eexists _, _. split; [vm_compute; reflexivity |].
  split; [vm_compute; reflexivity |].
  split; cbn; tauto.
Qed.

(** ** Strings of paths *)

Lemma append_empty_r (a : string) : a +:+ "" = a.
Proof.
  induction a as [|x a IH]; [reflexivity |].
  change (String x (a +:+ "") = String x a). now rewrite IH.
Qed.

Lemma append_cons (x : ascii) (a b : string) :
  String x a +:+ b = String x (a +:+ b).
Proof. reflexivity. Qed.

Lemma split_sep_cons (c : ascii) (s : string) :
  Posixpath.split_sep (String c s)
  = if Posixpath.is_sep c then "" :: Posixpath.split_sep s
    else prepend c (Posixpath.split_sep s).
Proof. reflexivity. Qed.

Lemma split_sep_nonempty (s : string) : Posixpath.split_sep s <> [].
Proof.
  destruct s as [|c s]; [discriminate |].
  rewrite split_sep_cons. destruct (Posixpath.is_sep c); [discriminate |].
  unfold prepend. destruct (Posixpath.split_sep s); discriminate.
Qed.

Lemma prepend_app (c : ascii) (l l' : list string) :
  l <> [] -> prepend c (l ++ l') = prepend c l ++ l'.
Proof. destruct l; [congruence | reflexivity]. Qed.

Lemma split_sep_app (a b : string) :
  Posixpath.split_sep (a +:+ String Posixpath.sep b)
  = Posixpath.split_sep a ++ Posixpath.split_sep b.
Proof.
  induction a as [|c a IH].
  - reflexivity.
  - rewrite append_cons, !split_sep_cons, IH.
    destruct (Posixpath.is_sep c); [reflexivity |].
    apply prepend_app, split_sep_nonempty.
Qed.

Lemma split_sep_sep_free (s : string) :
  sep_free s = true -> Posixpath.split_sep s = [s].
Proof.
  induction s as [|c s IH]; [reflexivity |].
  cbn [sep_free]. intros [Hc Hs]%andb_prop. rewrite split_sep_cons.
  apply negb_true_iff in Hc. rewrite Hc, (IH Hs). reflexivity.
Qed.

Lemma split_sep_pieces (s : string) :
  Forall (fun c => sep_free c = true) (Posixpath.split_sep s).
Proof.
  induction s as [|c s IH]; [repeat constructor |].
  rewrite split_sep_cons. destruct (Posixpath.is_sep c) eqn:Hc.
  - constructor; [reflexivity | exact IH].
  - unfold prepend. destruct IH as [|h t Hh Ht]; repeat constructor.
    + cbn. now rewrite Hc.
    + cbn. now rewrite Hc, Hh.
    + exact Ht.
Qed.

Lemma components_eq (p : string) :
  components p = List.filter ok_name (Posixpath.split_sep p).
Proof. reflexivity. Qed.

Lemma components_app_sep (a b : string) :
  components (a +:+ String Posixpath.sep b) = components a ++ components b.
Proof. rewrite !components_eq, split_sep_app. apply List.filter_app. Qed.

Lemma components_empty : components "" = [].
Proof. reflexivity. Qed.

Lemma endswith_sep_inv (a : string) :
  Posixpath.endswith_sep a = true -> exists a', a = a' +:+ "/".
Proof.
  induction a as [|c a IH]; [discriminate |].
  cbn [Posixpath.endswith_sep]. destruct a as [|c' a].
  - intros Hc. exists "". unfold Posixpath.is_sep in Hc.
    apply Ascii.eqb_eq in Hc. now subst c.
  - intros H. destruct (IH H) as [a' ->]. exists (String c a'). reflexivity.
Qed.

Lemma components_app_after_sep (a b : string) :
  Posixpath.endswith_sep a = true ->
  components (a +:+ b) = components a ++ components b.
Proof.
  intros [a' ->]%endswith_sep_inv.
  rewrite append_assoc.
  change ("/" +:+ b) with (String Posixpath.sep b).
  change (a' +:+ "/") with (a' +:+ String Posixpath.sep "").
  rewrite !components_app_sep, components_empty, app_nil_r. reflexivity.
Qed.

Lemma startswith_sep_append (a b : string) :
  a <> "" -> Posixpath.startswith_sep (a +:+ b) = Posixpath.startswith_sep a.
Proof. destruct a; [congruence | reflexivity]. Qed.

Lemma eqb_empty_false (a : string) : a <> "" -> String.eqb a "" = false.
Proof. intros H. now apply String.eqb_neq. Qed.

Lemma endswith_sep_nonempty (a : string) :
  Posixpath.endswith_sep a = true -> a <> "".
Proof. destruct a; [discriminate | discriminate]. Qed.

(** The names of a joined path: those of the left part, then those of the
    relative right part. *)
Lemma from_root_join2 (cwd a b : string) :
  Posixpath.startswith_sep b = false ->
  from_root cwd (Posixpath.join2 a b) = from_root cwd a ++ components b.
Proof.
  intros Hb. unfold Posixpath.join2. rewrite Hb.
  destruct a as [|c a].
  - change (String.eqb "" "" || Posixpath.endswith_sep "") with true.
    cbv iota. change ("" +:+ b) with b. unfold from_root, Posixpath.isabs.
    rewrite Hb. change (Posixpath.startswith_sep "") with false. cbv iota.
    rewrite components_empty, app_nil_r. reflexivity.
  - change (String.eqb (String c a) "") with false. cbn [orb].
    destruct (Posixpath.endswith_sep (String c a)) eqn:He.
    + unfold from_root, Posixpath.isabs.
      rewrite startswith_sep_append by discriminate.
      rewrite (components_app_after_sep _ _ He).
      destruct (Posixpath.startswith_sep (String c a));
        rewrite ?app_assoc; reflexivity.
    + unfold from_root, Posixpath.isabs.
      rewrite startswith_sep_append by discriminate.
      change ("/" +:+ b) with (String Posixpath.sep b).
      rewrite components_app_sep.
      destruct (Posixpath.startswith_sep (String c a));
        rewrite ?app_assoc; reflexivity.
Qed.

Lemma join2_nonempty (a b : string) :
  Posixpath.startswith_sep b = false -> (a <> "" \/ b <> "") ->
  Posixpath.join2 a b <> "".
Proof.
  intros Hb Hne. unfold Posixpath.join2. rewrite Hb.
  destruct a as [|c a].
  - change (String.eqb "" "" || Posixpath.endswith_sep "") with true.
    cbv iota. change ("" +:+ b) with b. destruct Hne; congruence.
  - change (String.eqb (String c a) "") with false. cbn [orb].
    destruct (Posixpath.endswith_sep _); discriminate.
Qed.

Lemma nice_inv (c : string) :
  nice c = true ->
  c <> "" /\ c <> "." /\ c <> ".." /\ sep_free c = true.
Proof.
  unfold nice. intros [[[H1 H2]%andb_prop H3]%andb_prop H4]%andb_prop.
  apply negb_true_iff, String.eqb_neq in H1, H2, H3. auto.
Qed.

Lemma components_nice (c : string) : nice c = true -> components c = [c].
Proof.
  intros (H1 & H2 & _ & H4)%nice_inv.
  rewrite components_eq, (split_sep_sep_free c H4). cbn. unfold ok_name.
  apply String.eqb_neq in H1, H2. now rewrite H1, H2.
Qed.

Lemma startswith_sep_nice (c : string) :
  nice c = true -> Posixpath.startswith_sep c = false.
Proof.
  intros (H1 & _ & _ & H4)%nice_inv. destruct c as [|x c]; [congruence |].
  cbn in *. apply andb_prop in H4 as [H4 _]. now apply negb_true_iff in H4.
Qed.

(** The names of [pjoin x [c]] for a name [c]. *)
Lemma from_root_join_name (cwd x c : string) :
  nice c = true ->
  from_root cwd (pjoin x [c]) = from_root cwd x ++ [c].
Proof.
  intros Hc. unfold Posixpath.join. cbn [fold_left].
  rewrite from_root_join2 by (apply startswith_sep_nice, Hc).
  now rewrite components_nice.
Qed.

Lemma join_name_nonempty (x c : string) :
  nice c = true -> pjoin x [c] <> "".
Proof.
  intros Hc. unfold Posixpath.join. cbn [fold_left].
  apply join2_nonempty; [apply startswith_sep_nice, Hc |].
  right. now apply nice_inv in Hc.
Qed.

(** ** The split of a path into head and tail *)

Lemma removelast_cons_ne {A} (x : A) (l : list A) :
  l <> [] -> removelast (x :: l) = x :: removelast l.
Proof. destruct l; [congruence | reflexivity]. Qed.

Lemma last_cons_ne {A} (x d : A) (l : list A) :
  l <> [] -> List.last (x :: l) d = List.last l d.
Proof. destruct l; [congruence | reflexivity]. Qed.

Lemma head_raw_cons (c : string) (l : list string) :
  head_raw (c :: l) = c +:+ "/" +:+ head_raw l.
Proof. reflexivity. Qed.

Lemma prepend_removelast (c : ascii) (h : string) (t : list string) :
  t <> [] -> removelast (prepend c (h :: t)) = String c h :: removelast t.
Proof. intros Ht. cbn [prepend]. now apply removelast_cons_ne. Qed.

(** A path is the head with its separators, then the last piece. *)
Lemma join_split (s : string) :
  head_raw (removelast (Posixpath.split_sep s))
  +:+ List.last (Posixpath.split_sep s) "" = s.
Proof.
  induction s as [|c s IH]; [reflexivity |].
  rewrite split_sep_cons. pose proof (split_sep_nonempty s) as Hne.
  destruct (Posixpath.is_sep c) eqn:Hc.
  - rewrite removelast_cons_ne, last_cons_ne by exact Hne.
    rewrite head_raw_cons.
    change ("" +:+ "/" +:+ head_raw (removelast (Posixpath.split_sep s)))
      with (String "/" (head_raw (removelast (Posixpath.split_sep s)))).
    rewrite append_cons, IH.
    unfold Posixpath.is_sep in Hc. apply Ascii.eqb_eq in Hc. now subst c.
  - destruct (Posixpath.split_sep s) as [|h t]; [congruence |].
    cbn [prepend]. destruct t as [|h' t'].
    + change (head_raw (removelast [h]) +:+ List.last [h] "") with h in IH.
      change (head_raw (removelast [String c h]) +:+ List.last [String c h] "")
        with (String c h). now rewrite IH.
    + rewrite removelast_cons_ne, last_cons_ne by discriminate.
      rewrite removelast_cons_ne, last_cons_ne in IH by discriminate.
      rewrite head_raw_cons in *. rewrite append_cons, append_cons.
      now rewrite IH.
Qed.

Lemma split_sep_head_raw (l : list string) :
  Forall (fun c => sep_free c = true) l ->
  Posixpath.split_sep (head_raw l) = l ++ [""].
Proof.
  induction 1 as [|c l Hc Hl IH]; [reflexivity |].
  rewrite head_raw_cons.
  change ("/" +:+ head_raw l) with (String Posixpath.sep (head_raw l)).
  rewrite split_sep_app, IH, (split_sep_sep_free c Hc). reflexivity.
Qed.

Lemma rstrip_sep_cons (c : ascii) (s : string) :
  Posixpath.rstrip_sep (String c s)
  = match Posixpath.rstrip_sep s with
    | EmptyString =>
        if Posixpath.is_sep c then EmptyString else String c EmptyString
    | r => String c r
    end.
Proof. reflexivity. Qed.

(** Stripping the separators at the end removes empty pieces at the end. *)
Lemma rstrip_sep_pieces (s : string) :
  exists n,
    Posixpath.split_sep s
    = Posixpath.split_sep (Posixpath.rstrip_sep s) ++ repeat "" n.
Proof.
  induction s as [|c s [n IH]]; [exists 0%nat; reflexivity |].
  rewrite rstrip_sep_cons, split_sep_cons, IH.
  destruct (Posixpath.rstrip_sep s) as [|c' r] eqn:Hr.
  - destruct (Posixpath.is_sep c) eqn:Hc.
    + exists (S n). reflexivity.
    + exists n. rewrite split_sep_cons, Hc. reflexivity.
  - exists n. rewrite (split_sep_cons c (String c' r)).
    destruct (Posixpath.is_sep c); [reflexivity |].
    apply prepend_app, split_sep_nonempty.
Qed.

Lemma filter_ok_repeat_empty (n : nat) : List.filter ok_name (repeat "" n) = [].
Proof. induction n; [reflexivity | exact IHn]. Qed.

Lemma components_rstrip (s : string) :
  components (Posixpath.rstrip_sep s) = components s.
Proof.
  destruct (rstrip_sep_pieces s) as [n Hn].
  rewrite !components_eq, Hn, List.filter_app, filter_ok_repeat_empty.
  now rewrite app_nil_r.
Qed.

Lemma rstrip_sep_empty (s : string) :
  Posixpath.rstrip_sep s = "" -> Posixpath.all_sep s = true.
Proof.
  induction s as [|c s IH]; [reflexivity |].
  rewrite rstrip_sep_cons. cbn [Posixpath.all_sep].
  destruct (Posixpath.rstrip_sep s); [| discriminate].
  destruct (Posixpath.is_sep c); [intros _; now rewrite IH | discriminate].
Qed.

Lemma startswith_rstrip (s : string) :
  Posixpath.all_sep s = false ->
  Posixpath.startswith_sep (Posixpath.rstrip_sep s) = Posixpath.startswith_sep s.
Proof.
  destruct s as [|c s]; [reflexivity |].
  rewrite rstrip_sep_cons. cbn [Posixpath.all_sep Posixpath.startswith_sep].
  destruct (Posixpath.rstrip_sep s) eqn:Hr; [| reflexivity].
  destruct (Posixpath.is_sep c) eqn:Hc; [| intros _; cbn; exact Hc].
  rewrite (rstrip_sep_empty s Hr). discriminate.
Qed.

Lemma last_Forall {A} (P : A -> Prop) (l : list A) (d : A) :
  l <> [] -> Forall P l -> P (List.last l d).
Proof.
  intros Hne H. induction H as [|x l Hx Hl IH]; [congruence |].
  destruct l as [|y l]; [exact Hx |].
  rewrite last_cons_ne by discriminate. apply IH. discriminate.
Qed.

Lemma Forall_removelast {A} (P : A -> Prop) (l : list A) :
  Forall P l -> Forall P (removelast l).
Proof.
  induction 1 as [|x l Hx Hl IH]; [constructor |].
  destruct l as [|y l]; [constructor |].
  rewrite removelast_cons_ne by discriminate. constructor; assumption.
Qed.

Lemma split_unfold (p : string) :
  Posixpath.split p
  = (if negb (String.eqb (head_raw (removelast (Posixpath.split_sep p))) "")
        && negb (Posixpath.all_sep
                   (head_raw (removelast (Posixpath.split_sep p))))
     then Posixpath.rstrip_sep (head_raw (removelast (Posixpath.split_sep p)))
     else head_raw (removelast (Posixpath.split_sep p)),
     List.last (Posixpath.split_sep p) "").
Proof. reflexivity. Qed.

(** [posixpath.split]: the tail has no separator; without a head the path
    is its tail; with one, head and path start alike and the names of the
    path are those of the head, then the tail's. *)
Lemma split_spec (p h t : string) :
  Posixpath.split p = (h, t) ->
  sep_free t = true
  /\ (h = "" -> p = t)
  /\ (h <> "" ->
      Posixpath.isabs h = Posixpath.isabs p
      /\ components p = components h ++ components t).
Proof.
  rewrite split_unfold.
  set (cs := Posixpath.split_sep p).
  set (hr := head_raw (removelast cs)).
  assert (Hne : cs <> []) by apply split_sep_nonempty.
  assert (Hpieces : Forall (fun c => sep_free c = true) cs)
    by apply split_sep_pieces.
  assert (Hp : hr +:+ List.last cs "" = p) by apply join_split.
  assert (Hhr : components hr = List.filter ok_name (removelast cs)).
  { rewrite components_eq. unfold hr.
    rewrite split_sep_head_raw by (apply Forall_removelast, Hpieces).
    rewrite List.filter_app. cbn. now rewrite app_nil_r. }
  assert (Ht : sep_free (List.last cs "") = true)
    by (apply (last_Forall (fun c => sep_free c = true)); assumption).
  intros [= <- <-]. split; [exact Ht | split].
  - intros Hh.
    destruct (negb (String.eqb hr "") && negb (Posixpath.all_sep hr)) eqn:Hc.
    + apply andb_prop in Hc as [_ Hall]. apply negb_true_iff in Hall.
      apply rstrip_sep_empty in Hh. congruence.
    + rewrite Hh in Hp. now rewrite <- Hp.
  - intros Hh.
    assert (Hhrne : hr <> "").
    { intros E. rewrite E in Hh. cbn in Hh. congruence. }
    assert (Hcomp : components p
                    = List.filter ok_name (removelast cs)
                      ++ components (List.last cs "")).
    { rewrite (components_eq (List.last cs "")), (split_sep_sep_free _ Ht).
      rewrite <- List.filter_app, <- app_removelast_last by exact Hne.
      reflexivity. }
    assert (Habs : Posixpath.isabs p = Posixpath.isabs hr).
    { rewrite <- Hp. unfold Posixpath.isabs.
      now apply startswith_sep_append. }
    destruct (negb (String.eqb hr "") && negb (Posixpath.all_sep hr)) eqn:Hc.
    + apply andb_prop in Hc as [_ Hall]. apply negb_true_iff in Hall.
      split.
      * rewrite Habs. unfold Posixpath.isabs. now apply startswith_rstrip.
      * now rewrite components_rstrip, Hhr.
    + split; [now rewrite Habs | now rewrite Hhr].
Qed.

Lemma components_sep_free (t : string) :
  sep_free t = true ->
  components t = if ok_name t then [t] else [].
Proof.
  intros Ht. now rewrite components_eq, (split_sep_sep_free t Ht).
Qed.

(** The head and tail [os.makedirs] works with. *)
Lemma msplit_spec (cwd name head tail : string) :
  msplit name = (head, tail) ->
  head <> "" ->
  sep_free tail = true
  /\ from_root cwd name = from_root cwd head ++ components tail.
Proof.
  unfold msplit. destruct (Posixpath.split name) as [h0 t0] eqn:H0.
  destruct (split_spec _ _ _ H0) as (Ht0 & Hempty0 & Hsome0).
  destruct (String.eqb t0 "") eqn:Et.
  - apply String.eqb_eq in Et. subst t0. intros H1 Hne.
    destruct (split_spec _ _ _ H1) as (Ht & _ & Hsome).
    destruct (Hsome Hne) as [Habs Hcomp].
    assert (Hh0 : h0 <> "").
    { intros ->. cbn in H1. injection H1 as <- <-. congruence. }
    destruct (Hsome0 Hh0) as [Habs0 Hcomp0].
    split; [exact Ht |]. unfold from_root.
    rewrite <- Habs0, <- Habs, Hcomp0, Hcomp, components_empty, app_nil_r.
    destruct (Posixpath.isabs head); rewrite ?app_assoc; reflexivity.
  - intros [= <- <-] Hne. destruct (Hsome0 Hne) as [Habs Hcomp].
    split; [exact Ht0 |]. unfold from_root. rewrite <- Habs, Hcomp.
    destruct (Posixpath.isabs h0); rewrite ?app_assoc; reflexivity.
Qed.

(** ** Resolution in a link-free tree *)

Lemma reach_cons m cur c rest :
  reach m cur (c :: rest)
  = match rest with
    | [] => true
    | _ => is_dir (m !! (cur ++ [c])) && reach m (cur ++ [c]) rest
    end.
Proof. reflexivity. Qed.

Lemma resolve_plain fuel m follow cur l :
  no_symlinks m -> no_dotdot l ->
  resolve (S fuel) m follow cur l
  = if reach m cur l then Some (cur ++ l) else None.
Proof.
  intros Hns Hnd. revert cur.
  induction Hnd as [|c rest Hc Hrest IH]; intros cur.
  - rewrite resolve_nil, app_nil_r. reflexivity.
  - rewrite resolve_cons, reach_cons.
    apply String.eqb_neq in Hc. rewrite Hc.
    destruct (m !! (cur ++ [c])) as [[| |t]|] eqn:Hk.
    + destruct rest; [reflexivity | reflexivity].
    + rewrite IH, <- app_assoc. cbn [is_dir andb app].
      destruct rest; [reflexivity | reflexivity].
    + exfalso. exact (Hns _ _ Hk).
    + destruct rest; reflexivity.
Qed.

Lemma locate_plain cwd st follow p :
  no_symlinks (files st) -> no_dotdot (from_root cwd p) -> p <> "" ->
  locate cwd st follow p
  = if reach (files st) [] (from_root cwd p) then Some (from_root cwd p)
    else None.
Proof.
  intros Hns Hnd Hp. unfold locate. rewrite (eqb_empty_false p Hp).
  rewrite resolve_plain by assumption. reflexivity.
Qed.

Lemma stat_node_plain cwd st p :
  no_symlinks (files st) -> no_dotdot (from_root cwd p) -> p <> "" ->
  stat_node cwd st p = node_at (files st) (from_root cwd p).
Proof.
  intros Hns Hnd Hp. unfold stat_node, node_at.
  rewrite locate_plain by assumption.
  destruct (reach _ _ _); reflexivity.
Qed.

Lemma lstat_node_plain cwd st p :
  no_symlinks (files st) -> no_dotdot (from_root cwd p) -> p <> "" ->
  lstat_node cwd st p = node_at (files st) (from_root cwd p).
Proof.
  intros Hns Hnd Hp. unfold lstat_node, node_at.
  rewrite locate_plain by assumption.
  destruct (reach _ _ _); reflexivity.
Qed.

Lemma reach_snoc m cur l c :
  l <> [] ->
  reach m cur (l ++ [c]) = reach m cur l && is_dir (m !! (cur ++ l)).
Proof.
  revert cur. induction l as [|x l IH]; intros cur Hne; [congruence |].
  destruct l as [|y l].
  - cbn. now rewrite andb_true_r.
  - change ((x :: y :: l) ++ [c]) with (x :: (y :: l) ++ [c]).
    rewrite !reach_cons. rewrite IH by discriminate.
    change ((y :: l) ++ [c]) with (y :: l ++ [c]).
    cbn [app]. rewrite <- app_assoc. cbn [app].
    now rewrite andb_assoc.
Qed.

(** What is reached stays reached when directories are only added. *)
Lemma reach_extends m m' cur l :
  extends m m' -> reach m cur l = true -> reach m' cur l = true.
Proof.
  intros Hext. revert cur. induction l as [|c rest IH]; intros cur; [auto |].
  rewrite !reach_cons. destruct rest as [|c' rest']; [auto |].
  intros [Hd Hr]%andb_prop. rewrite (IH _ Hr), andb_true_r.
  destruct (m !! (cur ++ [c])) as [[| |]|] eqn:Hk; try discriminate.
  destruct (Hext _ _ Hk) as (n' & -> & Hkind).
  destruct n'; cbn in Hkind; try contradiction. reflexivity.
Qed.

Lemma reach_prefix m cur l r :
  reach m cur (l ++ r) = true -> reach m cur l = true.
Proof.
  revert cur. induction l as [|c rest IH]; intros cur; [reflexivity |].
  change ((c :: rest) ++ r) with (c :: rest ++ r). rewrite !reach_cons.
  destruct rest as [|c' rest']; [reflexivity |].
  change ((c' :: rest') ++ r) with (c' :: rest' ++ r).
  intros [Hd Hr]%andb_prop. rewrite Hd. cbn [andb]. apply IH, Hr.
Qed.

Lemma reach_dir_prefix m l r :
  l <> [] -> r <> [] -> reach m [] (l ++ r) = true ->
  is_dir (m !! l) = true.
Proof.
  intros Hl Hr. destruct r as [|c r]; [congruence |].
  clear Hr. revert l Hl. induction r as [|c' r IH] using rev_ind; intros l Hl.
  - rewrite reach_snoc by exact Hl. now intros [_ H]%andb_prop.
  - change (l ++ c :: r ++ [c']) with (l ++ (c :: r) ++ [c']).
    rewrite app_assoc, reach_snoc by (now destruct l).
    intros [H _]%andb_prop. now apply IH.
Qed.

(** ** Growth by directories *)

Lemma grows_within_refl l m : grows_within l m m.
Proof. intros k. now left. Qed.

Lemma is_dir_lookup (m : gmap key node) k :
  is_dir (m !! k) = true -> exists t es, m !! k = Some (Dir t es).
Proof. destruct (m !! k) as [[| |]|]; try discriminate. eauto. Qed.

Lemma grows_within_trans l m1 m2 m3 :
  grows_within l m1 m2 -> grows_within l m2 m3 -> grows_within l m1 m3.
Proof.
  intros H12 H23 k. destruct (H23 k) as [E|(Hp & Hd & Hold)].
  - rewrite E. apply H12.
  - destruct (H12 k) as [E|(_ & Hd2 & Hold2)].
    + right. rewrite <- E. auto.
    + right. split; [exact Hp | split; [exact Hd | exact Hold2]].
Qed.

Lemma grows_within_mono l l' m m' :
  l `prefix_of` l' -> grows_within l m m' -> grows_within l' m m'.
Proof.
  intros Hl H k. destruct (H k) as [E|(Hp & Hd & Hold)]; [now left |].
  right. split; [etransitivity; eassumption | auto].
Qed.

Lemma grows_within_extends l m m' : grows_within l m m' -> extends m m'.
Proof.
  intros H k n Hk. destruct (H k) as [E|(_ & Hd & Hold)].
  - exists n. split; [congruence | apply same_kind_refl].
  - apply is_dir_lookup in Hd as (t & es & Hd). rewrite Hd.
    eexists. split; [reflexivity |].
    destruct Hold as [Hnone|Hold]; [congruence |].
    rewrite Hk in Hold. destruct n; try discriminate. exact I.
Qed.

Lemma grows_within_no_symlinks l m m' :
  grows_within l m m' -> no_symlinks m -> no_symlinks m'.
Proof.
  intros H Hns k t Hk. destruct (H k) as [E|(_ & Hd & _)].
  - rewrite E in Hk. exact (Hns _ _ Hk).
  - rewrite Hk in Hd. discriminate.
Qed.

Lemma grows_within_outside l m m' k :
  grows_within l m m' -> ~ k `prefix_of` l -> m' !! k = m !! k.
Proof. intros H Hk. destruct (H k) as [E|(Hp & _)]; [exact E | contradiction]. Qed.

Lemma grows_within_file l m m' k t md data :
  grows_within l m m' -> m !! k = Some (File t md data) ->
  m' !! k = Some (File t md data).
Proof.
  intros H Hk. destruct (H k) as [E|(_ & _ & [Hnone|Hold])].
  - congruence.
  - congruence.
  - rewrite Hk in Hold. discriminate.
Qed.

Lemma parent_snoc (k : key) (c : string) : parent (k ++ [c]) = k.
Proof. apply removelast_last. Qed.

Lemma name_of_snoc (k : key) (c : string) : name_of (k ++ [c]) = c.
Proof. apply last_last. Qed.

Lemma add_entry_snoc t k c m :
  add_entry t (k ++ [c]) m
  = match m !! k with
    | Some (Dir _ es) => <[k := Dir t (es ++ [c])]> m
    | _ => m
    end.
Proof.
  unfold add_entry.
  assert (Hp := parent_snoc k c). assert (Hn := name_of_snoc k c).
  destruct (k ++ [c]) as [|x l] eqn:E; [now destruct k |].
  rewrite Hp, Hn. reflexivity.
Qed.

(** A new directory: the tree grows at its place and in its parent. *)
Lemma create_dir_grows t k m n :
  k <> [] -> m !! k = None -> is_dir (Some n) = true ->
  grows_within k m (create t k n m).
Proof.
  intros Hne Hk Hn j. unfold create.
  destruct (decide (j = k)) as [->|Hjk].
  - right. rewrite lookup_insert_eq. auto.
  - rewrite lookup_insert_ne by congruence.
    destruct (exists_last Hne) as (k0 & c & ->).
    rewrite add_entry_snoc.
    destruct (m !! k0) as [[| t' es |]|] eqn:Hp; try (now left).
    destruct (decide (j = k0)) as [->|Hj0].
    + right. rewrite lookup_insert_eq, Hp.
      split; [now exists [c] | auto].
    + left. now rewrite lookup_insert_ne by congruence.
Qed.

(** ** Directory creation in a link-free tree *)

Lemma makedirs_rec_S env fuel name exist_ok st :
  makedirs_rec env (S fuel) name exist_ok st
  = let (head, tail) := msplit name in
    if negb (String.eqb head "") && negb (String.eqb tail "")
       && negb (exists_b (getcwd env) st head)
    then
      match makedirs_rec env fuel head exist_ok st with
      | (inl e, st') =>
          if String.eqb (exn_class e) "FileExistsError"
          then (if String.eqb tail "." then (inr tt, st')
                else mkdir_leaf env name exist_ok st')
          else (inl e, st')
      | (inr _, st') =>
          if String.eqb tail "." then (inr tt, st')
          else mkdir_leaf env name exist_ok st'
      end
    else mkdir_leaf env name exist_ok st.
Proof.
  cbn [makedirs_rec]. unfold msplit.
  destruct (Posixpath.split name) as [h0 t0].
  destruct (if String.eqb t0 "" then Posixpath.split h0 else (h0, t0));
    reflexivity.
Qed.

Lemma locate_empty cwd st follow : locate cwd st follow "" = None.
Proof. reflexivity. Qed.

Lemma mkdir_plain env name st :
  no_symlinks (files st) -> no_dotdot (from_root (getcwd env) name) ->
  name <> "" ->
  mkdir env name st
  = let l := from_root (getcwd env) name in
    if reach (files st) [] l then
      match l, files st !! l with
      | _ :: _, None =>
          (inr tt,
           with_files st (create (now st) l (Dir (now st) []) (files st)))
      | _, _ => (inl (os_error "FileExistsError" name), st)
      end
    else (inl (os_error "FileNotFoundError" name), st).
Proof.
  intros Hns Hnd Hne. unfold mkdir. rewrite locate_plain by assumption.
  cbv zeta. destruct (reach _ _ _); reflexivity.
Qed.

Lemma mkdir_grows env name st r st' :
  no_symlinks (files st) -> no_dotdot (from_root (getcwd env) name) ->
  mkdir env name st = (r, st') ->
  grows_within (from_root (getcwd env) name) (files st) (files st')
  /\ now st' = now st.
Proof.
  intros Hns Hnd. destruct (decide (name = "")) as [->|Hne].
  - unfold mkdir. rewrite locate_empty. intros [= _ <-].
    split; [apply grows_within_refl | reflexivity].
  - rewrite mkdir_plain by assumption. cbv zeta.
    destruct (reach _ _ _).
    + destruct (from_root (getcwd env) name) as [|c l] eqn:El.
      * intros [= _ <-]. split; [apply grows_within_refl | reflexivity].
      * destruct (files st !! (c :: l)) eqn:Hk.
        -- intros [= _ <-]. split; [apply grows_within_refl | reflexivity].
        -- intros [= _ <-]. split; [| reflexivity].
           apply create_dir_grows; [discriminate | exact Hk | reflexivity].
    + intros [= _ <-]. split; [apply grows_within_refl | reflexivity].
Qed.

Lemma mkdir_leaf_grows env name exist_ok st r st' :
  no_symlinks (files st) -> no_dotdot (from_root (getcwd env) name) ->
  mkdir_leaf env name exist_ok st = (r, st') ->
  grows_within (from_root (getcwd env) name) (files st) (files st')
  /\ now st' = now st.
Proof.
  intros Hns Hnd. unfold mkdir_leaf.
  destruct (mkdir env name st) as [[e|[]] s1] eqn:Hm.
  - destruct (negb exist_ok || negb (isdir_b _ s1 name));
      intros [= _ <-]; eapply mkdir_grows; eassumption.
  - intros [= _ <-]. eapply mkdir_grows; eassumption.
Qed.

Lemma msplit_empty : msplit "" = ("", "").
Proof. reflexivity. Qed.

Lemma msplit_head_nonempty name head tail :
  msplit name = (head, tail) -> head <> "" -> name <> "".
Proof. intros H Hh ->. rewrite msplit_empty in H. congruence. Qed.

Lemma no_dotdot_app_l (l r : list string) : no_dotdot (l ++ r) -> no_dotdot l.
Proof. intros H. apply Forall_app in H. tauto. Qed.

(** [os.makedirs] only adds directories, at or above the name it is given. *)
Lemma makedirs_rec_grows env fuel name exist_ok st r st' :
  no_symlinks (files st) -> no_dotdot (from_root (getcwd env) name) ->
  makedirs_rec env fuel name exist_ok st = (r, st') ->
  grows_within (from_root (getcwd env) name) (files st) (files st')
  /\ now st' = now st.
Proof.
  revert name st r st'. induction fuel as [|fuel IH]; intros name st r st' Hns Hnd.
  - intros [= _ <-]. split; [apply grows_within_refl | reflexivity].
  - rewrite makedirs_rec_S. destruct (msplit name) as [head tail] eqn:Hms.
    destruct (negb (String.eqb head "") && negb (String.eqb tail "")
              && negb (exists_b (getcwd env) st head)) eqn:Hcond;
      [| now apply mkdir_leaf_grows].
    apply andb_prop in Hcond as [[Hh _]%andb_prop _].
    apply negb_true_iff, String.eqb_neq in Hh.
    destruct (msplit_spec (getcwd env) _ _ _ Hms Hh) as [_ Hroot].
    assert (Hpre : from_root (getcwd env) head
                   `prefix_of` from_root (getcwd env) name)
      by (rewrite Hroot; now eexists).
    assert (Hndh : no_dotdot (from_root (getcwd env) head))
      by (rewrite Hroot in Hnd; now apply no_dotdot_app_l in Hnd).
    destruct (makedirs_rec env fuel head exist_ok st) as [r1 s1] eqn:Hrec.
    destruct (IH _ _ _ _ Hns Hndh Hrec) as [Hg1 Hnow1].
    apply (grows_within_mono _ _ _ _ Hpre) in Hg1.
    assert (Hns1 : no_symlinks (files s1))
      by (eapply grows_within_no_symlinks; eassumption).
    assert (Hleaf : forall r' s', mkdir_leaf env name exist_ok s1 = (r', s') ->
              grows_within (from_root (getcwd env) name) (files st) (files s')
              /\ now s' = now st).
    { intros r' s' Hl.
      destruct (mkdir_leaf_grows _ _ _ _ _ _ Hns1 Hnd Hl) as [Hg2 Hnow2].
      split; [eapply grows_within_trans; eassumption | congruence]. }
    destruct r1 as [e|u].
    + destruct (String.eqb (exn_class e) "FileExistsError").
      * destruct (String.eqb tail ".");
          [intros [= _ <-]; auto | apply Hleaf].
      * intros [= _ <-]; auto.
    + destruct (String.eqb tail ".");
        [intros [= _ <-]; auto | apply Hleaf].
Qed.

Lemma exists_b_plain cwd st p :
  no_symlinks (files st) -> no_dotdot (from_root cwd p) -> p <> "" ->
  exists_b cwd st p
  = match node_at (files st) (from_root cwd p) with
    | Some _ => true
    | None => false
    end.
Proof. intros. unfold exists_b. now rewrite stat_node_plain. Qed.

Lemma isdir_b_plain cwd st p :
  no_symlinks (files st) -> no_dotdot (from_root cwd p) -> p <> "" ->
  isdir_b cwd st p = is_dir (node_at (files st) (from_root cwd p)).
Proof. intros. unfold isdir_b. now rewrite stat_node_plain. Qed.

Lemma isdir_exists cwd st p : isdir_b cwd st p = true -> exists_b cwd st p = true.
Proof.
  unfold isdir_b, exists_b. destruct (stat_node cwd st p); [auto | discriminate].
Qed.

Lemma mkdir_leaf_settles env name exist_ok st r st' :
  no_symlinks (files st) -> no_dotdot (from_root (getcwd env) name) ->
  is_dir (files st !! []) = true ->
  mkdir_leaf env name exist_ok st = (r, st') -> settled r ->
  exists_b (getcwd env) st' name = true.
Proof.
  intros Hns Hnd Hroot. unfold mkdir_leaf.
  destruct (decide (name = "")) as [->|Hne].
  { unfold mkdir. rewrite locate_empty.
    destruct (negb exist_ok || negb (isdir_b _ st "")) eqn:Hc.
    - intros [= <- <-] Hs. cbn in Hs. discriminate.
    - intros [= <- <-] _. apply orb_false_elim in Hc as [_ Hc].
      apply negb_false_iff in Hc. discriminate Hc. }
  rewrite mkdir_plain by assumption. cbv zeta.
  remember (from_root (getcwd env) name) as l eqn:El.
  destruct (reach (files st) [] l) eqn:Hreach.
  - assert (Hthere : is_Some (files st !! l) ->
                     exists_b (getcwd env) st name = true).
    { intros [n Hn]. rewrite exists_b_plain by (rewrite <- ?El; assumption).
      unfold node_at. now rewrite <- El, Hreach, Hn. }
    assert (Hfail : forall r' s',
      (if negb exist_ok || negb (isdir_b (getcwd env) st name)
       then (inl (os_error "FileExistsError" name), st)
       else (inr tt, st)) = (r', s') ->
      is_Some (files st !! l) -> exists_b (getcwd env) s' name = true).
    { intros r' s' H Hsome.
      destruct (negb exist_ok || negb (isdir_b _ st name));
        injection H as _ <-; auto. }
    destruct l as [|c l0].
    + intros H _. apply (Hfail _ _ H).
      destruct (files st !! []); [eauto | discriminate].
    + destruct (files st !! (c :: l0)) as [n|] eqn:Hk.
      * intros H _. apply (Hfail _ _ H). eauto.
      * intros [= <- <-] _.
        assert (Hg : grows_within (c :: l0) (files st)
                       (create (now st) (c :: l0) (Dir (now st) []) (files st)))
          by (apply create_dir_grows; [discriminate | exact Hk | reflexivity]).
        rewrite exists_b_plain; cbn [files with_files];
          [| eapply grows_within_no_symlinks; eassumption
           | rewrite <- El; assumption | assumption].
        unfold node_at. rewrite <- El.
        rewrite (reach_extends _ _ _ _ (grows_within_extends _ _ _ Hg) Hreach).
        unfold create. now rewrite lookup_insert_eq.
  - destruct (negb exist_ok || negb (isdir_b _ st name)) eqn:Hc.
    + intros [= <- <-] Hs. cbn in Hs. discriminate.
    + intros [= <- <-] _. apply orb_false_elim in Hc as [_ Hc].
      apply negb_false_iff in Hc. now apply isdir_exists.
Qed.

(** When [os.makedirs] succeeds, or complains only that the name exists,
    the name exists afterwards. *)
Lemma makedirs_rec_settles env fuel name exist_ok st r st' :
  no_symlinks (files st) -> no_dotdot (from_root (getcwd env) name) ->
  is_dir (files st !! []) = true ->
  makedirs_rec env fuel name exist_ok st = (r, st') -> settled r ->
  exists_b (getcwd env) st' name = true.
Proof.
  revert name st r st'.
  induction fuel as [|fuel IH]; intros name st r st' Hns Hnd Hroot.
  - intros [= <- <-] Hs. cbn in Hs. discriminate.
  - rewrite makedirs_rec_S. destruct (msplit name) as [head tail] eqn:Hms.
    destruct (negb (String.eqb head "") && negb (String.eqb tail "")
              && negb (exists_b (getcwd env) st head)) eqn:Hcond;
      [| now apply mkdir_leaf_settles].
    apply andb_prop in Hcond as [[Hh _]%andb_prop _].
    apply negb_true_iff, String.eqb_neq in Hh.
    destruct (msplit_spec (getcwd env) _ _ _ Hms Hh) as [_ Hfr].
    assert (Hndh : no_dotdot (from_root (getcwd env) head))
      by (rewrite Hfr in Hnd; now apply no_dotdot_app_l in Hnd).
    assert (Hname : name <> "") by (eapply msplit_head_nonempty; eassumption).
    destruct (makedirs_rec env fuel head exist_ok st) as [r1 s1] eqn:Hrec.
    destruct (makedirs_rec_grows _ _ _ _ _ _ _ Hns Hndh Hrec) as [Hg1 _].
    assert (Hns1 : no_symlinks (files s1))
      by (eapply grows_within_no_symlinks; eassumption).
    assert (Hroot1 : is_dir (files s1 !! []) = true).
    { apply is_dir_lookup in Hroot as (t & es & Hr).
      destruct (grows_within_extends _ _ _ Hg1 _ _ Hr) as (n' & -> & Hk).
      destruct n'; cbn in Hk; try contradiction. reflexivity. }
    assert (Hdot : settled r1 -> tail = "." ->
                   exists_b (getcwd env) s1 name = true).
    { intros Hs ->. pose proof (IH _ _ _ _ Hns Hndh Hroot Hrec Hs) as He.
      rewrite exists_b_plain in He |- * by
        (try assumption; rewrite ?Hfr; cbn; rewrite ?app_nil_r; assumption).
      rewrite Hfr. cbn. now rewrite app_nil_r. }
    destruct r1 as [e|u].
    + destruct (String.eqb (exn_class e) "FileExistsError") eqn:Hcls.
      * apply String.eqb_eq in Hcls.
        destruct (String.eqb tail ".") eqn:Htl.
        -- apply String.eqb_eq in Htl. intros [= <- <-] _. now apply Hdot.
        -- now apply mkdir_leaf_settles.
      * intros [= <- <-] Hs. cbn in Hs. apply String.eqb_neq in Hcls.
        contradiction.
    + destruct (String.eqb tail ".") eqn:Htl.
      * apply String.eqb_eq in Htl. intros [= <- <-] _. now apply Hdot.
      * now apply mkdir_leaf_settles.
Qed.

(** * Staging a tree twice *)

(** ** Idempotence of the tree walk *)

Lemma later_refl env full_dest source_prefix m0 st :
  later env source_prefix full_dest m0 st st.
Proof. split; [apply extends_refl | auto]. Qed.

Lemma later_trans env full_dest source_prefix m0 s1 s2 s3 :
  later env source_prefix full_dest m0 s1 s2 ->
  later env source_prefix full_dest m0 s2 s3 ->
  later env source_prefix full_dest m0 s1 s3.
Proof.
  intros [E1 S1] [E2 S2]. split; [eapply extends_trans; eassumption | auto].
Qed.

Lemma idempotent_ret env sp fd m0 : idempotent env sp fd m0 (mret tt).
Proof.
  intros st st' t Hinv [= <- <-]. split; [exact Hinv | split].
  - apply later_refl.
  - intros st2 _ _. exists []. split; [reflexivity | constructor].
Qed.

Lemma idempotent_bind env sp fd m0 (m1 : M unit) (m2 : M unit) :
  idempotent env sp fd m0 m1 -> idempotent env sp fd m0 m2 ->
  idempotent env sp fd m0 (m1 ≫= fun _ => m2).
Proof.
  intros H1 H2 st st' t Hinv. rewrite run_bind.
  destruct (m1 st) as [[[e|[]] sa] ta] eqn:Ha; [discriminate |].
  destruct (m2 sa) as [[r sb] tb] eqn:Hb. intros [= -> <- <-].
  destruct (H1 _ _ _ Hinv Ha) as (Ia & La & Ra).
  destruct (H2 _ _ _ Ia Hb) as (Ib & Lb & Rb).
  split; [exact Ib | split; [eapply later_trans; eassumption |]].
  intros st2 I2 L2.
  destruct (Ra st2 I2 (later_trans _ _ _ _ _ _ _ Lb L2)) as (t1 & E1 & Q1).
  destruct (Rb st2 I2 L2) as (t2 & E2 & Q2).
  exists (t1 ++ t2). rewrite run_bind, E1, E2.
  split; [reflexivity | now apply Forall_app].
Qed.

Lemma idempotent_for_each {A} env sp fd m0 (l : list A) (body : A -> M unit) :
  (forall x, In x l -> idempotent env sp fd m0 (body x)) ->
  idempotent env sp fd m0 (for_each l body).
Proof.
  induction l as [|x l IH]; intros H; [apply idempotent_ret |].
  cbn [for_each]. apply idempotent_bind.
  - apply H. now left.
  - apply IH. intros y Hy. apply H. now right.
Qed.

(** A step may be replaced by one that does the same in the states of the
    walk. *)
Lemma idempotent_ext env sp fd m0 (m m' : M unit) :
  (forall st, sync_inv env sp fd m0 st -> m st = m' st) ->
  idempotent env sp fd m0 m' -> idempotent env sp fd m0 m.
Proof.
  intros Hext H st st' t Hinv. rewrite (Hext _ Hinv). intros Hrun.
  destruct (H _ _ _ Hinv Hrun) as (I' & L' & R').
  split; [exact I' | split; [exact L' |]].
  intros st2 I2 L2. rewrite (Hext _ I2). now apply R'.
Qed.

(** A reading whose answer is the same in all states of the walk. *)
Lemma idempotent_observe {A} env sp fd m0 ev (f : state -> A) (v : A)
    (k : A -> M unit) :
  mutating ev = false ->
  (forall st, sync_inv env sp fd m0 st -> f st = v) ->
  idempotent env sp fd m0 (k v) ->
  idempotent env sp fd m0 (observe ev f ≫= k).
Proof.
  intros Hev Hf Hk st st' t Hinv. rewrite run_bind_observe, (Hf _ Hinv).
  destruct (k v st) as [[r sa] ta] eqn:Ha. intros [= -> <- <-].
  destruct (Hk _ _ _ Hinv Ha) as (I' & L' & R').
  split; [exact I' | split; [exact L' |]].
  intros st2 I2 L2. destruct (R' st2 I2 L2) as (t2 & E2 & Q2).
  exists (ev :: t2). rewrite run_bind_observe, (Hf _ I2), E2.
  split; [reflexivity | now constructor].
Qed.

Lemma bind_assoc_run {A B C} (m : M A) (f : A -> M B) (g : B -> M C) st :
  ((m ≫= f) ≫= g) st = (m ≫= fun x => f x ≫= g) st.
Proof.
  rewrite !run_bind. destruct (m st) as [[[e|a] s1] t1]; [reflexivity |].
  rewrite run_bind. destruct (f a s1) as [[[e|b] s2] t2]; [reflexivity |].
  destruct (g b s2) as [[r s3] t3]. now rewrite app_assoc.
Qed.

Lemma reach_app m cur l r :
  reach m cur (l ++ r)
  = reach m cur l
    && match r with
       | [] => true
       | _ => match l with
              | [] => true
              | _ => is_dir (m !! (cur ++ l))
              end && reach m (cur ++ l) r
       end.
Proof.
  revert cur. induction l as [|c l IH]; intros cur.
  - cbn [app reach andb]. rewrite app_nil_r. now destruct r.
  - change ((c :: l) ++ r) with (c :: l ++ r). rewrite !reach_cons.
    destruct l as [|c' l'].
    + cbn [app]. destruct r as [|x r']; [reflexivity |]. reflexivity.
    + change ((c' :: l') ++ r) with (c' :: l' ++ r).
      specialize (IH (cur ++ [c])).
      change (c' :: l' ++ r) with ((c' :: l') ++ r).
      rewrite IH. rewrite <- !app_assoc. cbn [app].
      destruct r as [|x r']; [now rewrite !andb_true_r |].
      now rewrite !andb_assoc.
Qed.

Lemma reach_frozen (m m0 : gmap key node) ks q rel :
  (forall r, m !! (ks ++ r) = m0 !! (ks ++ r)) ->
  reach m (ks ++ q) rel = reach m0 (ks ++ q) rel.
Proof.
  intros Hf. revert q. induction rel as [|c rest IH]; intros q; [reflexivity |].
  rewrite !reach_cons. destruct rest as [|c' rest']; [reflexivity |].
  rewrite <- !app_assoc, Hf. specialize (IH (q ++ [c])). now rewrite IH.
Qed.

Lemma no_symlinks_islink cwd st p :
  no_symlinks (files st) -> islink_b cwd st p = false.
Proof.
  intros Hns. unfold islink_b, lstat_node.
  destruct (locate cwd st false p) as [k|]; [| reflexivity].
  destruct (files st !! k) as [[| |t]|] eqn:Hk; try reflexivity.
  exfalso. exact (Hns _ _ Hk).
Qed.

Lemma no_dotdot_nice (l : list string) :
  Forall (fun c => nice c = true) l -> no_dotdot l.
Proof.
  intros H. eapply Forall_impl; [exact H |].
  intros c Hc. now apply nice_inv in Hc.
Qed.

Lemma no_dotdot_app (l r : list string) :
  no_dotdot l -> no_dotdot r -> no_dotdot (l ++ r).
Proof. intros. now apply Forall_app. Qed.

Section WalkProof.

Variable env : Env.
Variables sp fd : string.
Variable m0 : gmap key node.

Let ks := src_key env sp.
Let kd := dst_key env fd.

Hypothesis Hsp : Posixpath.endswith_sep sp = true.
Hypothesis Hfd : fd <> "".
Hypothesis Hnd_s : no_dotdot ks.
Hypothesis Hnd_d : no_dotdot kd.
Hypothesis Hdisj_sd : ~ ks `prefix_of` kd.
Hypothesis Hdisj_ds : ~ kd `prefix_of` ks.
Hypothesis Hnice : forall r t es,
  m0 !! (ks ++ r) = Some (Dir t es) -> Forall (fun c => nice c = true) es.
Hypothesis Hns0 : forall r t, m0 !! (ks ++ r) <> Some (Symlink t).

Lemma keys_apart r r' : ~ (ks ++ r) `prefix_of` (kd ++ r').
Proof.
  intros H.
  assert (H1 : ks `prefix_of` kd ++ r') by (eapply prefix_app_l; exact H).
  assert (H2 : kd `prefix_of` kd ++ r') by (now exists r').
  destruct (prefix_weak_total _ _ _ H1 H2); contradiction.
Qed.

Lemma keys_differ r r' : ks ++ r <> kd ++ r'.
Proof. intros E. apply (keys_apart r r'). now rewrite E. Qed.

Lemma sp_nonempty : sp <> "".
Proof. now apply endswith_sep_nonempty. Qed.

Lemma top_ok_root : top_ok sp sp [].
Proof.
  exists "". rewrite append_empty_r. repeat split; constructor.
Qed.

Lemma top_ok_nonempty top rel : top_ok sp top rel -> top <> "".
Proof.
  intros (rs & -> & _). pose proof sp_nonempty.
  destruct sp; [congruence | discriminate].
Qed.

Lemma top_ok_from_root top rel :
  top_ok sp top rel -> from_root (getcwd env) top = ks ++ rel.
Proof.
  intros (rs & -> & Hrs & <- & _). unfold ks, src_key, from_root.
  unfold Posixpath.isabs.
  rewrite startswith_sep_append by apply sp_nonempty.
  rewrite (components_app_after_sep _ _ Hsp).
  destruct (Posixpath.startswith_sep sp); rewrite ?app_assoc; reflexivity.
Qed.

Lemma drop_chars_append (a b : string) :
  Posixpath.drop_chars (String.length a) (a +:+ b) = b.
Proof. induction a as [|c a IH]; [now destruct b | exact IH]. Qed.

Lemma top_ok_nice top rel :
  top_ok sp top rel -> Forall (fun c => nice c = true) rel.
Proof. now intros (rs & _ & _ & _ & H). Qed.

Lemma top_ok_dest_dir top rel :
  top_ok sp top rel ->
  let dest_dir := pjoin fd [Posixpath.drop_chars (String.length sp) top] in
  from_root (getcwd env) dest_dir = kd ++ rel /\ dest_dir <> "".
Proof.
  intros (rs & -> & Hrs & <- & _). cbv zeta. rewrite drop_chars_append.
  unfold Posixpath.join. cbn [fold_left]. split.
  - now rewrite from_root_join2.
  - apply join2_nonempty; [exact Hrs | now left].
Qed.

Lemma endswith_sep_append_iff (a b : string) :
  b <> "" -> Posixpath.endswith_sep (a +:+ b) = Posixpath.endswith_sep b.
Proof. apply endswith_sep_append. Qed.

Lemma top_ok_step top rel d :
  top_ok sp top rel -> nice d = true ->
  top_ok sp (pjoin top [d]) (rel ++ [d]).
Proof.
  intros (rs & -> & Hrs & <- & Hnice_rel) Hd.
  pose proof (startswith_sep_nice d Hd) as Hds.
  pose proof (components_nice d Hd) as Hdc.
  assert (Hall : Forall (fun c => nice c = true) (components rs ++ [d]))
    by (apply Forall_app; split; [exact Hnice_rel | now constructor]).
  unfold Posixpath.join. cbn [fold_left]. unfold Posixpath.join2.
  rewrite Hds.
  assert (Hne : String.eqb (sp +:+ rs) "" = false).
  { apply eqb_empty_false. pose proof sp_nonempty.
    destruct sp; [congruence | discriminate]. }
  rewrite Hne. cbn [orb].
  destruct rs as [|c rs'] eqn:Ers.
  - (* at the source itself *)
    rewrite append_empty_r, Hsp. exists d.
    repeat split; [exact Hds | now rewrite Hdc | exact Hall].
  - rewrite <- Ers in *.
    assert (Hrsne : rs <> "") by (rewrite Ers; discriminate).
    rewrite (endswith_sep_append sp rs Hrsne).
    destruct (Posixpath.endswith_sep rs) eqn:He.
    + exists (rs +:+ d). rewrite append_assoc.
      repeat split.
      * now rewrite startswith_sep_append.
      * now rewrite (components_app_after_sep _ _ He), Hdc.
      * exact Hall.
    + exists (rs +:+ "/" +:+ d). rewrite append_assoc.
      repeat split.
      * now rewrite startswith_sep_append.
      * change ("/" +:+ d) with (String Posixpath.sep d).
        now rewrite components_app_sep, Hdc.
      * exact Hall.
Qed.

(** *** The source, seen from any state of the walk *)

Lemma src_reach st rel :
  sync_inv env sp fd m0 st ->
  reach (files st) [] (ks ++ rel) = src_ok env sp m0 rel.
Proof.
  intros (_ & _ & Hfrozen & Hreach & Hdir & _).
  rewrite reach_app. fold ks in Hreach, Hdir, Hfrozen. rewrite Hreach.
  cbn [andb app]. unfold src_ok. fold ks.
  destruct rel as [|c rel']; [reflexivity |].
  pose proof (reach_frozen (files st) m0 ks [] (c :: rel') Hfrozen) as Hfr.
  rewrite app_nil_r in Hfr. rewrite Hfr.
  destruct ks as [|x ks'] eqn:Eks; [reflexivity |].
  rewrite <- Eks in *. now rewrite Hdir.
Qed.

Lemma src_node_at st rel :
  sync_inv env sp fd m0 st ->
  node_at (files st) (ks ++ rel) = src_node env sp m0 rel.
Proof.
  intros Hinv. unfold node_at, src_node. rewrite (src_reach st rel Hinv).
  destruct Hinv as (_ & _ & Hfrozen & _). fold ks. now rewrite Hfrozen.
Qed.

Lemma src_stat st top rel :
  sync_inv env sp fd m0 st -> top_ok sp top rel ->
  stat_node (getcwd env) st top = src_node env sp m0 rel.
Proof.
  intros Hinv Htop.
  rewrite stat_node_plain;
    [| apply Hinv
     | rewrite (top_ok_from_root _ _ Htop);
       apply no_dotdot_app; [exact Hnd_s | apply no_dotdot_nice, (top_ok_nice _ _ Htop)]
     | apply (top_ok_nonempty _ _ Htop)].
  rewrite (top_ok_from_root _ _ Htop). now apply src_node_at.
Qed.

Lemma src_listing_stable st top rel :
  sync_inv env sp fd m0 st -> top_ok sp top rel ->
  listing env st top = src_listing env sp m0 rel.
Proof.
  intros Hinv Htop. unfold listing, src_listing.
  assert (Hnd : no_dotdot (from_root (getcwd env) top)).
  { rewrite (top_ok_from_root _ _ Htop).
    apply no_dotdot_app; [exact Hnd_s | apply no_dotdot_nice, (top_ok_nice _ _ Htop)]. }
  pose proof (src_stat st top rel Hinv Htop) as Hstat.
  unfold stat_node in Hstat.
  rewrite locate_plain in Hstat |- *
    by (try apply Hinv; try exact Hnd; apply (top_ok_nonempty _ _ Htop)).
  rewrite (top_ok_from_root _ _ Htop) in Hstat |- *.
  destruct (reach (files st) [] (ks ++ rel)) eqn:Hreach.
  - rewrite Hstat.
    destruct (src_node env sp m0 rel) as [[| t es |]|] eqn:Hsrc; try reflexivity.
    assert (Hes : Forall (fun c => nice c = true) es).
    { unfold src_node in Hsrc. destruct (src_ok env sp m0 rel); [| discriminate].
      exact (Hnice _ _ _ Hsrc). }
    assert (Hfrozen : forall r, files st !! (ks ++ r) = m0 !! (ks ++ r))
      by apply Hinv.
    assert (Hpresent :
      List.filter (fun c => bool_decide (is_Some (files st !! ((ks ++ rel) ++ [c])))) es
      = List.filter (fun c => bool_decide (is_Some (m0 !! ((ks ++ rel) ++ [c])))) es).
    { apply List.filter_ext. intros c. now rewrite <- !app_assoc, Hfrozen. }
    rewrite Hpresent. fold ks.
    set (present := List.filter _ es).
    assert (Hpn : Forall (fun c => nice c = true) present).
    { apply List.Forall_forall. intros c Hc.
      apply List.filter_In in Hc as [Hc _].
      rewrite List.Forall_forall in Hes. now apply Hes. }
    assert (Hisdir : forall c, In c present ->
              isdir_b (getcwd env) st (pjoin top [c])
              = is_dir (src_node env sp m0 (rel ++ [c]))).
    { intros c Hc. rewrite List.Forall_forall in Hpn. specialize (Hpn c Hc).
      unfold isdir_b.
      now rewrite (src_stat st _ _ Hinv (top_ok_step _ _ _ Htop Hpn)). }
    f_equal. f_equal.
    + apply List.filter_ext_in. exact Hisdir.
    + apply List.filter_ext_in. intros c Hc. now rewrite Hisdir.
  - symmetry in Hstat. rewrite Hstat. reflexivity.
Qed.


(** *** Writing a file below the destination *)

Lemma writes_file_extends d n m m' : writes_file d n m m' -> extends m m'.
Proof.
  intros (Hn & Hd & Hold & Hother) j x Hj.
  destruct (decide (j = d)) as [->|Hne].
  - exists n. split; [exact Hd |]. rewrite Hj in Hold.
    destruct Hold as [|Hold]; [discriminate |].
    destruct x, n; cbn in *; try discriminate; exact I.
  - destruct (Hother j Hne) as [E|(_ & H1 & H2)].
    + exists x. split; [congruence | apply same_kind_refl].
    + apply is_dir_lookup in H2 as (t & es & ->). eexists. split; [reflexivity |].
      rewrite Hj in H1. destruct x; try discriminate. exact I.
Qed.

Lemma epsilon_pos : (0 < epsilon)%Q.
Proof. reflexivity. Qed.

Lemma epsilon_refl (t : Q) : ~ (epsilon < t - t)%Q.
Proof. pose proof epsilon_pos. intros H1. lra. Qed.

Lemma writes_file_sync st st' rel f n :
  sync_inv env sp fd m0 st ->
  writes_file (kd ++ rel ++ [f]) n (files st) (files st') ->
  reach (files st) [] (kd ++ rel ++ [f]) = true ->
  m0 !! (ks ++ rel ++ [f]) = Some n ->
  sync_inv env sp fd m0 st' /\ later env sp fd m0 st st'
  /\ synced env sp fd m0 st' (rel ++ [f]).
Proof.
  intros (Hns & Hroot & Hfrozen & Hreach & Hdir & Hnodir) Hw Hrd Hsrc.
  pose proof (writes_file_extends _ _ _ _ Hw) as Hext.
  destruct Hw as (Hn & Hd & Hold & Hother).
  fold ks kd in Hfrozen, Hreach, Hdir, Hnodir.
  set (d := kd ++ rel ++ [f]) in *.
  assert (Hpar : parent d = kd ++ rel).
  { unfold d. rewrite app_assoc. apply parent_snoc. }
  assert (Hkind : forall j, is_dir (files st' !! j) = true ->
                            is_dir (files st !! j) = true).
  { intros j Hj. destruct (decide (j = d)) as [->|Hne].
    - rewrite Hd in Hj. destruct n; discriminate.
    - destruct (Hother j Hne) as [E|(_ & H1 & _)]; [now rewrite <- E | exact H1]. }
  assert (Hsame : forall r, files st' !! (ks ++ r) = files st !! (ks ++ r)).
  { intros r. destruct (Hother (ks ++ r)) as [E|(E & _)].
    - apply keys_differ.
    - exact E.
    - rewrite Hpar in E. now apply keys_differ in E. }
  assert (Hreach' : reach (files st') [] d = true)
    by (eapply reach_extends; eassumption).
  split; [| split].
  - repeat split.
    + intros j t Hj. destruct (decide (j = d)) as [->|Hne].
      * rewrite Hd in Hj. injection Hj as ->. discriminate.
      * destruct (Hother j Hne) as [E|(_ & _ & H2)].
        -- rewrite E in Hj. exact (Hns _ _ Hj).
        -- rewrite Hj in H2. discriminate.
    + destruct (Hother []) as [E|(_ & _ & H2)].
      * unfold d. destruct kd, rel; discriminate.
      * now rewrite E.
      * exact H2.
    + intros r. fold ks. now rewrite Hsame.
    + fold ks. eapply reach_extends; eassumption.
    + fold ks. specialize (Hsame []). rewrite app_nil_r in Hsame.
      now rewrite Hsame.
    + intros r Hr. fold kd.
      destruct (is_dir (files st' !! (kd ++ r))) eqn:E; [| reflexivity].
      apply Hkind in E. rewrite (Hnodir r Hr) in E. discriminate.
  - split; [exact Hext |].
    intros r (t & md & data & t' & md' & data' & Hs & Hdst & Hle).
    fold ks kd in Hs, Hdst.
    destruct (decide (r = rel ++ [f])) as [->|Hr].
    + rewrite Hs in Hsrc. injection Hsrc as <-.
      exists t, md, data, t, md, data. fold ks kd.
      split; [exact Hs | split; [| apply epsilon_refl]].
      unfold node_at. fold d. now rewrite Hreach', Hd.
    + exists t, md, data, t', md', data'. fold ks kd.
      split; [exact Hs | split; [| exact Hle]].
      unfold node_at in Hdst |- *.
      destruct (reach (files st) [] (kd ++ r)) eqn:Hrr; [| discriminate].
      rewrite (reach_extends _ _ _ _ Hext Hrr).
      destruct (Hother (kd ++ r)) as [E|(_ & H1 & _)].
      * unfold d. intros E. apply app_inv_head in E. contradiction.
      * now rewrite E.
      * rewrite Hdst in H1. discriminate.
  - destruct n as [t md data| |]; try discriminate.
    exists t, md, data, t, md, data. fold ks kd.
    split; [exact Hsrc | split; [| apply epsilon_refl]].
    unfold node_at. fold d. now rewrite Hreach', Hd.
Qed.

Lemma copy2_writes st st' tr source dest s d t md data :
  no_symlinks (files st) ->
  from_root (getcwd env) source = s -> from_root (getcwd env) dest = d ->
  no_dotdot s -> no_dotdot d -> source <> "" -> dest <> "" ->
  node_at (files st) s = Some (File t md data) ->
  is_dir (files st !! d) = false ->
  d <> [] ->
  copy2 env source dest st = (inr tt, st', tr) ->
  writes_file d (File t md data) (files st) (files st')
  /\ reach (files st) [] d = true
  /\ Forall (fun e => mutating e = true) tr.
Proof.
  intros Hns <- <- Hnds Hndd Hsne Hdne Hsrc Hnd Hdnil.
  unfold copy2, perform.
  assert (Hisdir : isdir_b (getcwd env) st dest = false).
  { rewrite isdir_b_plain by assumption. unfold node_at.
    destruct (reach _ _ _); [exact Hnd | reflexivity]. }
  rewrite Hisdir. rewrite !locate_plain by assumption.
  unfold node_at in Hsrc.
  destruct (reach (files st) [] (from_root (getcwd env) source));
    [| discriminate].
  rewrite Hsrc.
  destruct (reach (files st) [] (from_root (getcwd env) dest)) eqn:Hrd;
    [| discriminate].
  set (d := from_root (getcwd env) dest) in *.
  destruct (files st !! d) as [[t' md' data' | |]|] eqn:Hd.
  - destruct (bool_decide _); [discriminate |].
    intros [= <- <-]. cbn [files with_files].
    split; [| split; [reflexivity | repeat constructor]].
    split; [reflexivity | split; [apply lookup_insert_eq | split]].
    + right. now rewrite Hd.
    + intros j Hj. left. now rewrite lookup_insert_ne by congruence.
  - discriminate.
  - discriminate.
  - intros [= <- <-]. cbn [files with_files].
    split; [| split; [reflexivity | repeat constructor]].
    split; [reflexivity | split; [apply lookup_insert_eq | split]].
    + left. exact Hd.
    + intros j Hj. unfold create. rewrite lookup_insert_ne by congruence.
      destruct (exists_last Hdnil) as (k0 & c & Ek).
      rewrite Ek, add_entry_snoc, parent_snoc.
      destruct (files st !! k0) as [[| t' es |]|] eqn:Hp; try (now left).
      destruct (decide (j = k0)) as [->|Hj0].
      * right. now rewrite lookup_insert_eq, Hp.
      * left. now rewrite lookup_insert_ne by congruence.
Qed.


(** *** The steps of the loop body *)

Lemma src_ok_step rel f :
  src_ok env sp m0 rel = true -> is_dir (m0 !! (ks ++ rel)) = true ->
  src_ok env sp m0 (rel ++ [f]) = true.
Proof.
  unfold src_ok. fold ks. intros Hok Hdir.
  destruct rel as [|c rel']; [reflexivity |].
  change ((c :: rel') ++ [f]) with (c :: rel' ++ [f]).
  change (c :: rel' ++ [f]) with ((c :: rel') ++ [f]).
  rewrite reach_snoc by discriminate. now rewrite Hok, Hdir.
Qed.

Lemma reach_dir_inside m cur l r :
  l <> [] -> r <> [] -> reach m cur (l ++ r) = true ->
  is_dir (m !! (cur ++ l)) = true.
Proof.
  intros Hl Hr. rewrite reach_app.
  destruct r; [congruence |]. destruct l; [congruence |].
  now intros [_ [H _]%andb_prop]%andb_prop.
Qed.

(** Below a directory of the source, every prefix is a directory of the
    source. *)
Lemma src_prefix_dir st rel r :
  sync_inv env sp fd m0 st ->
  src_ok env sp m0 rel = true -> is_dir (m0 !! (ks ++ rel)) = true ->
  r `prefix_of` rel -> is_dir (m0 !! (ks ++ r)) = true.
Proof.
  intros (_ & _ & Hfrozen & _ & Hdir & _) Hok Hrel [r' ->].
  fold ks in Hfrozen, Hdir.
  destruct r' as [|c r']; [now rewrite app_nil_r in Hrel |].
  destruct r as [|x r].
  - rewrite <- (Hfrozen []), app_nil_r. exact Hdir.
  - unfold src_ok in Hok. fold ks in Hok. cbn [app] in Hok.
    change (x :: r ++ c :: r') with ((x :: r) ++ c :: r') in Hok.
    now apply reach_dir_inside in Hok.
Qed.

Lemma ensure_dest_idempotent top rel :
  top_ok sp top rel ->
  src_ok env sp m0 rel = true -> is_dir (m0 !! (ks ++ rel)) = true ->
  let dest_dir := pjoin fd [Posixpath.drop_chars (String.length sp) top] in
  idempotent env sp fd m0
    (exists_ env dest_dir ≫= fun e =>
       if negb e then makedirs env dest_dir false else mret tt).
Proof.
  intros Htop Hok Hrel dest_dir.
  destruct (top_ok_dest_dir _ _ Htop) as [Hfr Hne]. fold dest_dir in Hfr, Hne.
  assert (Hnd : no_dotdot (from_root (getcwd env) dest_dir)).
  { rewrite Hfr. apply no_dotdot_app; [exact Hnd_d |].
    apply no_dotdot_nice, (top_ok_nice _ _ Htop). }
  intros st st' t Hinv. unfold exists_. rewrite run_bind_observe.
  destruct (exists_b (getcwd env) st dest_dir) eqn:He; cbn [negb].
  - rewrite run_ret. intros [= <- <-].
    split; [exact Hinv | split; [apply later_refl |]].
    intros st2 I2 [E2 _]. exists [os_path_exists dest_dir].
    rewrite run_bind_observe, (exists_extends _ _ _ _ E2 He). cbn [negb].
    rewrite run_ret. split; [reflexivity | repeat constructor].
  - unfold makedirs, perform.
    destruct (makedirs_rec env _ dest_dir false st) as [r s1] eqn:Hmk.
    intros [= -> -> <-].
    pose proof Hinv as (Hns & Hroot & Hfrozen & Hreach & Hdir & Hnodir).
    fold ks kd in Hfrozen, Hreach, Hdir, Hnodir.
    destruct (makedirs_rec_grows _ _ _ _ _ _ _ Hns Hnd Hmk) as [Hg _].
    pose proof (makedirs_rec_settles _ _ _ _ _ _ _ Hns Hnd Hroot Hmk I) as Hex.
    rewrite Hfr in Hg.
    pose proof (grows_within_extends _ _ _ Hg) as Hext.
    assert (Hsrc_same : forall r, files st' !! (ks ++ r) = files st !! (ks ++ r)).
    { intros r. apply (grows_within_outside _ _ _ _ Hg), keys_apart. }
    assert (Hinv' : sync_inv env sp fd m0 st').
    { repeat split.
      - eapply grows_within_no_symlinks; eassumption.
      - apply is_dir_lookup in Hroot as (t0 & es & Hr).
        destruct (Hext _ _ Hr) as (n' & -> & Hk).
        destruct n'; cbn in Hk; try contradiction. reflexivity.
      - intros r. fold ks. now rewrite Hsrc_same.
      - fold ks. eapply reach_extends; eassumption.
      - fold ks. specialize (Hsrc_same []). rewrite app_nil_r in Hsrc_same.
        now rewrite Hsrc_same.
      - intros r Hr. fold kd.
        destruct (Hg (kd ++ r)) as [E|(Hpre & _)]; [rewrite E; now apply Hnodir |].
        apply prefix_app_inv in Hpre.
        pose proof (src_prefix_dir st rel r Hinv Hok Hrel Hpre) as Hd.
        fold ks in Hr.
        destruct (m0 !! (ks ++ r)) as [[| |]|]; discriminate. }
    split; [exact Hinv' | split].
    + split; [exact Hext |].
      intros r (t0 & md & data & t' & md' & data' & Hs & Hdst & Hle).
      exists t0, md, data, t', md', data'.
      split; [exact Hs | split; [| exact Hle]].
      unfold node_at in Hdst |- *.
      destruct (reach (files st) [] (dst_key env fd ++ r)) eqn:Hrr; [| discriminate].
      rewrite (reach_extends _ _ _ _ Hext Hrr).
      eapply grows_within_file; eassumption.
    + intros st2 I2 [E2 _]. exists [os_path_exists dest_dir].
      rewrite run_bind_observe, (exists_extends _ _ _ _ E2 Hex). cbn [negb].
      rewrite run_ret. split; [reflexivity | repeat constructor].
Qed.

Lemma maybe_copy_idempotent top rel f t md data :
  top_ok sp top rel -> nice f = true ->
  src_ok env sp m0 rel = true -> is_dir (m0 !! (ks ++ rel)) = true ->
  m0 !! (ks ++ rel ++ [f]) = Some (File t md data) ->
  let dest_dir := pjoin fd [Posixpath.drop_chars (String.length sp) top] in
  idempotent env sp fd m0
    (_maybe_copy env (pjoin top [f]) (pjoin dest_dir [f])).
Proof.
  intros Htop Hf Hok Hrel Hfile dest_dir.
  set (source := pjoin top [f]). set (dest := pjoin dest_dir [f]).
  destruct (top_ok_dest_dir _ _ Htop) as [Hfr Hne]. fold dest_dir in Hfr, Hne.
  pose proof (top_ok_step _ _ _ Htop Hf) as Htop'. fold source in Htop'.
  assert (Hs_root : from_root (getcwd env) source = ks ++ rel ++ [f])
    by (rewrite (top_ok_from_root _ _ Htop'); reflexivity).
  assert (Hd_root : from_root (getcwd env) dest = kd ++ rel ++ [f]).
  { unfold dest. rewrite from_root_join_name by exact Hf.
    now rewrite Hfr, <- app_assoc. }
  assert (Hs_ne : source <> "") by apply (top_ok_nonempty _ _ Htop').
  assert (Hd_ne : dest <> "") by (now apply join_name_nonempty).
  assert (Hrel_nd : no_dotdot (rel ++ [f])).
  { apply no_dotdot_nice. apply Forall_app. split;
      [apply (top_ok_nice _ _ Htop) | now constructor]. }
  assert (Hs_nd : no_dotdot (from_root (getcwd env) source))
    by (rewrite Hs_root; now apply no_dotdot_app).
  assert (Hd_nd : no_dotdot (from_root (getcwd env) dest))
    by (rewrite Hd_root; now apply no_dotdot_app).
  assert (Hsrc : forall s, sync_inv env sp fd m0 s ->
            stat_node (getcwd env) s source = Some (File t md data)).
  { intros s Hs. rewrite (src_stat s _ _ Hs Htop'). unfold src_node.
    rewrite (src_ok_step rel f Hok Hrel). exact Hfile. }
  assert (Hdst : forall s, sync_inv env sp fd m0 s ->
            stat_node (getcwd env) s dest
            = node_at (files s) (kd ++ rel ++ [f])).
  { intros s Hs. rewrite stat_node_plain; [now rewrite Hd_root | apply Hs | | ];
      assumption. }
  (* what the first run establishes *)
  assert (Hfirst : forall st st' tr,
    sync_inv env sp fd m0 st ->
    _maybe_copy env source dest st = (inr tt, st', tr) ->
    sync_inv env sp fd m0 st' /\ later env sp fd m0 st st'
    /\ synced env sp fd m0 st' (rel ++ [f])).
  { intros st st' tr Hinv. unfold _maybe_copy. rewrite run_bind.
    assert (Hcopy : forall tr', copy2 env source dest st = (inr tt, st', tr') ->
      sync_inv env sp fd m0 st' /\ later env sp fd m0 st st'
      /\ synced env sp fd m0 st' (rel ++ [f])).
    { intros tr' Hc.
      pose proof Hinv as (Hns & _ & _ & _ & _ & Hnodir).
      assert (Hnotdir : is_dir (files st !! (kd ++ rel ++ [f])) = false).
      { apply Hnodir. fold ks. now rewrite Hfile. }
      assert (Hnode : node_at (files st) (ks ++ rel ++ [f])
                      = Some (File t md data)).
      { rewrite <- Hs_root, <- stat_node_plain by assumption. now apply Hsrc. }
      destruct (copy2_writes st st' tr' source dest _ _ t md data Hns
                  Hs_root Hd_root) as (Hw & Hrd & _);
        try assumption.
      - rewrite <- Hs_root. exact Hs_nd.
      - rewrite <- Hd_root. exact Hd_nd.
      - destruct kd, rel; discriminate.
      - apply (writes_file_sync st st' rel f (File t md data) Hinv); assumption. }
    destruct (node_at (files st) (kd ++ rel ++ [f])) as [n|] eqn:Hn.
    - rewrite (should_copy_present env source dest st _ n (Hsrc st Hinv))
        by (now rewrite Hdst).
      destruct (Qlt_le_dec _ _) as [Hlt|Hle].
      + destruct (copy2 env source dest st) as [[rc sc] tc] eqn:Hc.
        intros [= -> <- <-]. now apply (Hcopy tc).
      + rewrite run_ret. intros [= <- <-].
        split; [exact Hinv | split; [apply later_refl |]].
        pose proof Hinv as (Hns & _ & _ & _ & _ & Hnodir).
        assert (Hnotdir : is_dir (files st !! (kd ++ rel ++ [f])) = false).
        { apply Hnodir. fold ks. now rewrite Hfile. }
        unfold node_at in Hn.
        destruct (reach (files st) [] (kd ++ rel ++ [f])) eqn:Hr; [| discriminate].
        destruct n as [t' md' data' | |t'].
        * exists t, md, data, t', md', data'. fold ks kd.
          split; [exact Hfile | split].
          -- unfold node_at. now rewrite Hr.
          -- cbn in Hle. lra.
        * rewrite Hn in Hnotdir. discriminate.
        * exfalso. exact (Hns _ _ Hn).
    - rewrite should_copy_missing
        by (unfold exists_b; now rewrite (Hdst st Hinv), Hn).
      destruct (copy2 env source dest st) as [[rc sc] tc] eqn:Hc.
      intros [= -> <- <-]. now apply (Hcopy tc). }
  intros st st' tr Hinv Hrun.
  destruct (Hfirst _ _ _ Hinv Hrun) as (I' & L' & Hsynced).
  split; [exact I' | split; [exact L' |]].
  intros st2 I2 [_ S2].
  destruct (S2 _ Hsynced) as (t0 & md0 & data0 & t' & md' & data' & Hs0 & Hd0 & Hle).
  fold ks kd in Hs0, Hd0. rewrite Hfile in Hs0. injection Hs0 as <- <- <-.
  exists [os_path_exists dest; os_stat source; os_stat dest].
  unfold _maybe_copy. rewrite run_bind.
  rewrite (should_copy_present env source dest st2 _ _ (Hsrc st2 I2))
    by (rewrite (Hdst st2 I2); exact Hd0).
  destruct (Qlt_le_dec _ _) as [Hlt|_]; [cbn in Hlt; contradiction |].
  rewrite run_ret. split; [reflexivity | repeat constructor].
Qed.


(** What a listing of the source says about the names in it. *)
Lemma src_listing_facts rel dirs nondirs :
  src_listing env sp m0 rel = Some (dirs, nondirs) ->
  src_ok env sp m0 rel = true
  /\ is_dir (m0 !! (ks ++ rel)) = true
  /\ (forall d, In d dirs -> nice d = true)
  /\ (forall f, In f nondirs ->
        nice f = true
        /\ exists t md data, m0 !! (ks ++ rel ++ [f]) = Some (File t md data)).
Proof.
  unfold src_listing.
  destruct (src_node env sp m0 rel) as [[| t es|]|] eqn:Hn; try discriminate.
  intros [= <- <-]. unfold src_node in Hn.
  destruct (src_ok env sp m0 rel) eqn:Hok; [| discriminate]. fold ks in Hn.
  pose proof (Hnice rel t es Hn) as Hes. rewrite List.Forall_forall in Hes.
  split; [reflexivity | split; [now rewrite Hn | split]].
  - intros d Hin. apply List.filter_In in Hin as [Hin _].
    apply List.filter_In in Hin as [Hin _]. now apply Hes.
  - intros f Hin. apply List.filter_In in Hin as [Hin Hnd].
    apply List.filter_In in Hin as [Hin Hpres].
    split; [now apply Hes |].
    apply bool_decide_eq_true in Hpres. destruct Hpres as [n Hn'].
    unfold src_node in Hnd.
    rewrite (src_ok_step rel f Hok) in Hnd by (now rewrite Hn).
    fold ks in Hnd, Hn'. rewrite <- app_assoc in Hn'. rewrite Hn' in Hnd |- *.
    destruct n as [t' md' data'| |tg]; cbn in Hnd.
    + eauto.
    + discriminate.
    + exfalso. exact (Hns0 _ _ Hn').
Qed.

Lemma walk_body_idempotent top rel dirs nondirs :
  top_ok sp top rel ->
  src_listing env sp m0 rel = Some (dirs, nondirs) ->
  idempotent env sp fd m0 (walk_body env sp fd top nondirs).
Proof.
  intros Htop Hl.
  destruct (src_listing_facts _ _ _ Hl) as (Hok & Hdir & _ & Hfiles).
  unfold walk_body.
  eapply idempotent_ext;
    [intros st _; symmetry; apply bind_assoc_run |].
  apply idempotent_bind.
  - now apply (ensure_dest_idempotent top rel).
  - apply idempotent_for_each. intros f Hf.
    destruct (Hfiles f Hf) as (Hnf & t & md & data & Hfile).
    now apply (maybe_copy_idempotent top rel f t md data).
Qed.

Lemma walk_loop_idempotent depth top rel :
  top_ok sp top rel ->
  idempotent env sp fd m0 (walk_loop env depth sp fd top).
Proof.
  revert top rel. induction depth as [|depth IH]; intros top rel Htop.
  - intros st st' t _ [=].
  - cbn [walk_loop]. unfold scandir.
    apply idempotent_observe with (v := src_listing env sp m0 rel);
      [reflexivity | intros st Hinv; now apply src_listing_stable |].
    destruct (src_listing env sp m0 rel) as [[dirs nondirs]|] eqn:Hl;
      [| apply idempotent_ret].
    destruct (src_listing_facts _ _ _ Hl) as (_ & _ & Hdirs & _).
    apply idempotent_bind; [now apply (walk_body_idempotent top rel dirs) |].
    apply idempotent_for_each. intros d Hd.
    apply idempotent_ext
      with (m' := walk_loop env depth sp fd (pjoin top [d])).
    + intros st Hinv. rewrite no_symlinks_islink by apply Hinv. reflexivity.
    + apply (IH _ (rel ++ [d])). apply top_ok_step; [exact Htop | now apply Hdirs].
Qed.

(** A walk that makes only read-only calls found the top of the
    destination in place. *)
Lemma walk_readonly_dest_exists depth st r st' t :
  sync_inv env sp fd m0 st ->
  is_dir (m0 !! ks) = true ->
  walk_loop env (S depth) sp fd sp st = (r, st', t) ->
  Forall (fun e => mutating e = false) t ->
  exists_b (getcwd env) st
    (pjoin fd [Posixpath.drop_chars (String.length sp) sp]) = true.
Proof.
  intros Hinv Hdir. cbn [walk_loop]. unfold scandir.
  rewrite run_bind_observe, (src_listing_stable st sp [] Hinv top_ok_root).
  unfold src_listing, src_node. cbn [src_ok]. fold ks. rewrite app_nil_r.
  destruct (m0 !! ks) as [[|t0 es|]|]; try discriminate.
  rewrite run_bind. unfold walk_body at 1. unfold exists_ at 1.
  rewrite run_bind_observe.
  destruct (exists_b _ st _); [reflexivity |]. cbn [negb].
  rewrite run_bind. unfold makedirs at 1, perform.
  destruct (makedirs_rec _ _ _ _ _) as [[e|[]] s1].
  - intros [= _ _ <-] Ht. exfalso. cbn in Ht.
    apply Forall_cons_1 in Ht as [_ Ht]. apply Forall_cons_1 in Ht as [_ Ht].
    apply Forall_cons_1 in Ht as [Ht _]. discriminate.
  - destruct (for_each _ _ s1) as [[[e|[]] s2] t2];
      [| destruct (for_each _ _ s2) as [[r3 s3] t3]];
      intros [= _ _ <-] Ht; exfalso; cbn in Ht;
      apply Forall_cons_1 in Ht as [_ Ht]; apply Forall_cons_1 in Ht as [_ Ht];
      apply Forall_cons_1 in Ht as [Ht _]; discriminate.
Qed.

End WalkProof.

(** ** Directories that are there already *)

Lemma isdir_extends cwd st st' p :
  extends (files st) (files st') ->
  isdir_b cwd st p = true -> isdir_b cwd st' p = true.
Proof.
  intros Hext. unfold isdir_b.
  destruct (stat_node cwd st p) as [[| |]|] eqn:Hs; try discriminate.
  intros _. destruct (stat_extends _ _ _ _ _ Hext Hs) as (n' & -> & Hk).
  destruct n'; cbn in Hk; try contradiction. reflexivity.
Qed.

Lemma isdir_nonempty cwd st p : isdir_b cwd st p = true -> p <> "".
Proof. intros H ->. discriminate H. Qed.

Lemma no_dotdot_prefix (l l' : list string) :
  l `prefix_of` l' -> no_dotdot l' -> no_dotdot l.
Proof. intros [r ->]. apply no_dotdot_app_l. Qed.

(** [os.makedirs] of a directory that is there changes nothing: it is
    content with it or complains that it exists, as [exist_ok] says. *)
Lemma makedirs_rec_present env fuel name exist_ok st :
  no_symlinks (files st) -> no_dotdot (from_root (getcwd env) name) ->
  is_dir (files st !! []) = true ->
  isdir_b (getcwd env) st name = true ->
  makedirs_rec env (S fuel) name exist_ok st
  = (if exist_ok then inr tt else inl (os_error "FileExistsError" name), st).
Proof.
  intros Hns Hnd Hroot Hdir.
  pose proof (isdir_nonempty _ _ _ Hdir) as Hne.
  pose proof Hdir as Hdir'. rewrite isdir_b_plain in Hdir' by assumption.
  unfold node_at in Hdir'.
  destruct (reach (files st) [] (from_root (getcwd env) name)) eqn:Hr;
    [| discriminate].
  assert (Hleaf : mkdir_leaf env name exist_ok st
                  = (if exist_ok then inr tt
                     else inl (os_error "FileExistsError" name), st)).
  { unfold mkdir_leaf. rewrite mkdir_plain by assumption. cbv zeta. rewrite Hr.
    destruct (files st !! from_root (getcwd env) name) as [n|] eqn:Hn;
      [| discriminate].
    destruct (from_root (getcwd env) name) as [|c l]; rewrite ?Hn;
      cbv beta iota; rewrite Hdir; now destruct exist_ok. }
  rewrite makedirs_rec_S. destruct (msplit name) as [head tail] eqn:Hms.
  destruct (String.eqb head "") eqn:Hh; [exact Hleaf |].
  destruct (String.eqb tail ""); [exact Hleaf |]. cbn [negb andb].
  apply String.eqb_neq in Hh.
  destruct (msplit_spec (getcwd env) _ _ _ Hms Hh) as [_ Hfr].
  rewrite Hfr in Hr, Hnd, Hdir'.
  rewrite exists_b_plain
    by (try assumption; eapply no_dotdot_app_l; eassumption).
  unfold node_at. rewrite (reach_prefix _ _ _ _ Hr).
  destruct (components tail) as [|c l].
  - rewrite app_nil_r in Hdir'.
    destruct (files st !! from_root (getcwd env) head);
      [exact Hleaf | discriminate].
  - destruct (from_root (getcwd env) head) as [|x k].
    + destruct (files st !! []); [exact Hleaf | discriminate].
    + apply reach_dir_prefix in Hr; [| discriminate ..].
      destruct (files st !! (x :: k)); [exact Hleaf | discriminate].
Qed.

Lemma ensure_dir_present env p st :
  no_symlinks (files st) -> no_dotdot (from_root (getcwd env) p) ->
  is_dir (files st !! []) = true ->
  isdir_b (getcwd env) st p = true ->
  ensure_dir env p st = (inr tt, st, [ensure_dir_exists p]).
Proof.
  intros Hns Hnd Hroot Hdir. unfold ensure_dir, perform.
  rewrite makedirs_rec_present by assumption.
  change (exn_class (os_error "FileExistsError" p)) with "FileExistsError".
  change (String.eqb "FileExistsError" "FileExistsError") with true.
  cbv iota. now rewrite Hdir.
Qed.

Lemma makedirs_present env p st :
  no_symlinks (files st) -> no_dotdot (from_root (getcwd env) p) ->
  is_dir (files st !! []) = true ->
  isdir_b (getcwd env) st p = true ->
  makedirs env p true st = (inr tt, st, [os_makedirs p true]).
Proof.
  intros Hns Hnd Hroot Hdir. unfold makedirs, perform.
  now rewrite makedirs_rec_present.
Qed.

(** What a first [ensure_dir_exists] leaves. *)
Lemma ensure_dir_done env p st st' t :
  no_symlinks (files st) -> no_dotdot (from_root (getcwd env) p) ->
  ensure_dir env p st = (inr tt, st', t) ->
  grows_within (from_root (getcwd env) p) (files st) (files st')
  /\ isdir_b (getcwd env) st' p = true.
Proof.
  intros Hns Hnd. unfold ensure_dir, perform.
  destruct (makedirs_rec env _ p false st) as [[e|[]] s1] eqn:Hmk;
    destruct (makedirs_rec_grows _ _ _ _ _ _ _ Hns Hnd Hmk) as [Hg _].
  - destruct (String.eqb _ _); [| discriminate].
    destruct (isdir_b (getcwd env) s1 p) eqn:Hd; [| discriminate].
    intros [= <- _]. now split.
  - destruct (isdir_b (getcwd env) s1 p) eqn:Hd; [| discriminate].
    intros [= <- _]. now split.
Qed.

Lemma makedirs_done env p ok st r st' t :
  no_symlinks (files st) -> no_dotdot (from_root (getcwd env) p) ->
  makedirs env p ok st = (r, st', t) ->
  grows_within (from_root (getcwd env) p) (files st) (files st').
Proof.
  intros Hns Hnd. unfold makedirs, perform.
  destruct (makedirs_rec env _ p ok st) as [r1 s1] eqn:Hmk.
  destruct (makedirs_rec_grows _ _ _ _ _ _ _ Hns Hnd Hmk) as [Hg _].
  now intros [= _ <- _].
Qed.

Lemma makedirs_empty env ok st :
  exists e, makedirs env "" ok st = (inl e, st, [os_makedirs "" ok]).
Proof.
  unfold makedirs, perform. cbn. destruct ok; cbn; eauto.
Qed.

(** ** The paths of a staging call *)

Lemma normpath_nonempty (p : string) : normpath p <> "".
Proof.
  unfold Posixpath.normpath. destruct (String.eqb p ""); [discriminate |].
  cbv zeta. destruct (String.eqb _ "") eqn:E; [discriminate |].
  now apply String.eqb_neq in E.
Qed.

Lemma abspath_nonempty (cwd p : string) : Posixpath.abspath cwd p <> "".
Proof.
  unfold Posixpath.abspath. destruct (Posixpath.isabs p);
    apply normpath_nonempty.
Qed.

Lemma join_empty_endswith_sep (x : string) :
  x <> "" -> Posixpath.endswith_sep (pjoin x [""]) = true.
Proof.
  intros Hx. unfold Posixpath.join. cbn [fold_left]. unfold Posixpath.join2.
  change (Posixpath.startswith_sep "") with false. cbv iota.
  rewrite (eqb_empty_false x Hx). cbn [orb].
  destruct (Posixpath.endswith_sep x) eqn:He.
  - now rewrite append_empty_r.
  - change ("/" +:+ "") with "/". now rewrite endswith_sep_append.
Qed.

Lemma dirname_key (cwd p : string) :
  Posixpath.dirname p <> "" -> ok_name (basename p) = true ->
  from_root cwd p = from_root cwd (Posixpath.dirname p) ++ [basename p].
Proof.
  unfold Posixpath.dirname, Posixpath.basename.
  destruct (Posixpath.split p) as [h t] eqn:Hs. cbn [fst snd]. intros Hh Hok.
  destruct (split_spec _ _ _ Hs) as (Hfree & _ & Hsome).
  destruct (Hsome Hh) as [Habs Hc]. unfold from_root.
  rewrite Habs, Hc, (components_sep_free t Hfree), Hok.
  destruct (Posixpath.isabs p); rewrite ?app_assoc; reflexivity.
Qed.


(** A copy-mode request without [overwrite], call by call. *)
Lemma develop_copy_run env path user labextensions_dir destination sys_prefix
    labext st :
  _get_labextension_dir env
    {| user := user; sys_prefix := sys_prefix; prefix := None;
       labextensions_dir := labextensions_dir |} = inr labext ->
  let full_dest := full_dest_of labext (destination_name destination path) in
  develop_labextension env (PathStr path) false false user labextensions_dir
    destination sys_prefix st
  = (ensure_dir env labext ≫= fun _ =>
     makedirs env (Posixpath.dirname full_dest) true ≫= fun _ =>
     copy_mode env path full_dest ≫= fun _ => mret full_dest) st.
Proof.
  intros Hdir full_dest. unfold develop_labextension.
  rewrite run_bind, Hdir. cbn [lift]. unfold ret at 1.
  rewrite !run_bind. destruct (ensure_dir env labext st) as [[[e|[]] sa] ta];
    [reflexivity |].
  unfold stage_under. rewrite run_bind, run_ret, run_bind, run_ret.
  unfold install_at. fold full_dest.
  destruct ((makedirs env (Posixpath.dirname full_dest) true ≫= _) sa)
    as [[r s] t].
  reflexivity.
Qed.

Lemma is_dir_extends (m m' : gmap key node) k :
  extends m m' -> is_dir (m !! k) = true -> is_dir (m' !! k) = true.
Proof.
  intros Hext Hd. apply is_dir_lookup in Hd as (t & es & Hk).
  destruct (Hext _ _ Hk) as (n' & -> & Hkind).
  destruct n'; cbn in Hkind; try contradiction. reflexivity.
Qed.

Lemma readonly_no_file_write (t : list event) :
  Forall (fun e => mutating e = false) t ->
  Forall (fun e => file_write e = false) t.
Proof.
  intros H. eapply Forall_impl; [exact H |].
  intros e He. destruct e; try reflexivity; discriminate.
Qed.

(** The state in which the walk of a first copy-mode call starts: the two
    directory creations before it have left the source alone and put no
    directory where the source has a file. *)
Lemma prelude_sync_inv env sp fd (st0 sb : state) :
  let ks := src_key env sp in
  let kd := dst_key env fd in
  no_symlinks (files st0) ->
  is_dir (files st0 !! []) = true ->
  is_dir (node_at (files st0) ks) = true ->
  ~ ks `prefix_of` kd -> ~ kd `prefix_of` ks ->
  (forall r, is_file (files st0 !! (ks ++ r)) = true ->
             is_dir (files st0 !! (kd ++ r)) = false) ->
  grows_within kd (files st0) (files sb) ->
  sync_inv env sp fd (files st0) sb.
Proof.
  intros ks kd Hns Hroot Hsrc Hsd Hds Hnodir Hg.
  pose proof (grows_within_extends _ _ _ Hg) as Hext.
  unfold node_at in Hsrc.
  destruct (reach (files st0) [] ks) eqn:Hr; [| discriminate].
  assert (Hfrozen : forall r, files sb !! (ks ++ r) = files st0 !! (ks ++ r)).
  { intros r. apply (grows_within_outside _ _ _ _ Hg).
    rewrite <- (app_nil_r kd). now apply keys_apart. }
  repeat split.
  - eapply grows_within_no_symlinks; eassumption.
  - eapply is_dir_extends; eassumption.
  - exact Hfrozen.
  - eapply reach_extends; eassumption.
  - eapply is_dir_extends; eassumption.
  - intros r Hr'. fold ks kd in Hr' |- *.
    destruct (Hg (kd ++ r)) as [E|(Hp & _)]; [rewrite E; now apply Hnodir |].
    rewrite <- (app_nil_r kd) in Hp at 2. apply prefix_app_inv in Hp.
    apply prefix_nil_inv in Hp. subst r. rewrite app_nil_r in Hr'.
    destruct (files st0 !! ks) as [[| |]|]; discriminate.
Qed.

(** The parent of a destination that is reachable is a directory. *)
Lemma parent_of_reachable cwd st p :
  no_symlinks (files st) -> is_dir (files st !! []) = true ->
  no_dotdot (from_root cwd p) ->
  Posixpath.dirname p <> "" -> ok_name (basename p) = true ->
  reach (files st) [] (from_root cwd p) = true ->
  isdir_b cwd st (Posixpath.dirname p) = true.
Proof.
  intros Hns Hroot Hnd Hdn Hok Hr.
  rewrite (dirname_key cwd p Hdn Hok) in Hr, Hnd.
  rewrite isdir_b_plain
    by (try assumption; eapply no_dotdot_app_l; eassumption).
  unfold node_at. rewrite (reach_prefix _ _ _ _ Hr).
  destruct (from_root cwd (Posixpath.dirname p)) as [|x k]; [exact Hroot |].
  apply reach_dir_prefix in Hr; [exact Hr | discriminate ..].
Qed.




(** ** Disks given as lists *)

Lemma every_node_spec (f : key -> node -> bool) (l : list (key * node)) :
  every_node f l = true ->
  forall k n, (list_to_map l : gmap key node) !! k = Some n -> f k n = true.
Proof.
  intros H k n Hk. apply elem_of_list_to_map_2 in Hk.
  unfold every_node in H. rewrite forallb_forall in H.
  apply (H (k, n)). now apply list_elem_of_In.
Qed.

Lemma no_symlinks_check (l : list (key * node)) :
  every_node not_a_link l = true -> no_symlinks (list_to_map l).
Proof.
  intros H k t Hk. apply (every_node_spec _ _ H) in Hk. discriminate.
Qed.

Lemma nice_listing_check (l : list (key * node)) k t es :
  every_node nice_listing l = true ->
  (list_to_map l : gmap key node) !! k = Some (Dir t es) ->
  Forall (fun c => nice c = true) es.
Proof.
  intros H Hk. apply (every_node_spec _ _ H) in Hk. cbn in Hk.
  apply List.Forall_forall. now apply forallb_forall.
Qed.

Lemma no_dir_over_file_check (l : list (key * node)) (ks kd r : key) :
  every_node (no_dir_over_file (list_to_map l) ks kd) l = true ->
  is_file ((list_to_map l : gmap key node) !! (ks ++ r)) = true ->
  is_dir ((list_to_map l : gmap key node) !! (kd ++ r)) = false.
Proof.
  intros H Hf.
  destruct ((list_to_map l : gmap key node) !! (kd ++ r)) as [[|t es|]|] eqn:Hk;
    try reflexivity.
  apply (every_node_spec _ _ H) in Hk. cbn in Hk.
  rewrite take_app_length, drop_app_length, Hf in Hk.
  rewrite bool_decide_eq_true_2 in Hk by reflexivity. discriminate.
Qed.




(** * Further properties of the code *)

(** ** The metadata lookup *)


(** X2. When the named module gives no extensions and a path of that name
    exists, only the first package found under it is imported: when it has
    the function, it and its records are the result, whatever the other
    packages are. *)
Theorem metadata_falls_back_to_first_package (env : Env) (module p : string)
    (rest : list string) (m : module_obj) (labexts : list labext_entry)
    (st : state) :
  has_paths (import_item env module) = false ->
  exists_b (getcwd env) st (Posixpath.abspath (getcwd env) module) = true ->
  find_packages env module = p :: rest ->
  import_item env p = Some m ->
  labextension_paths m = Some labexts ->
  _get_labextension_metadata env module st
  = (inr (m, labexts), st,
     [os_path_exists (Posixpath.abspath (getcwd env) module)]).
Proof.
  intros Hno Hex Hpk Him Hl. unfold _get_labextension_metadata.
  rewrite Hno. cbn [negb]. rewrite run_bind. unfold exists_ at 1.
  rewrite run_bind_observe, Hex, Hpk, Him, run_ret.
  destruct m as [f l]. cbn in Hl. subst l. reflexivity.
Qed.

Lemma metadata_fallback_witness :
  _get_labextension_metadata env_checkout "ext" st_checkout
  = (inr (ext_pkg, [ {| src := "static"; dest := "ext" |} ]), st_checkout,
     [os_path_exists "/work/ext"]).
Proof.
  apply (metadata_falls_back_to_first_package env_checkout "ext" "ext_pkg"
           ["ext_pkg.tests"] ext_pkg [ {| src := "static"; dest := "ext" |} ]
           st_checkout); vm_compute; reflexivity.
Defined.



(** ** A module that declares nothing *)

(** X4. For a module whose function returns the empty sequence,
    [develop_labextension_py] returns the empty list without a single call:
    the labextensions directory is neither resolved nor created, so that
    even conflicting selectors go unnoticed. *)
Theorem develop_py_of_no_extension (env : Env) (module : string)
    (m : module_obj) (user sys_prefix overwrite symlink : bool)
    (labextensions_dir : option string) (st : state) :
  import_item env module = Some m ->
  labextension_paths m = Some [] ->
  develop_labextension_py env module user sys_prefix overwrite symlink
    labextensions_dir st = (inr [], st, []).
Proof.
  intros Him Hl. unfold develop_labextension_py.
  rewrite run_bind, (metadata_of_provider env module m [] st Him Hl).
  reflexivity.
Qed.

Lemma develop_py_of_no_extension_witness :
  develop_labextension_py env_quiet "quiet" true true false true
    (Some "/lab") st_empty = (inr [], st_empty, []).
Proof.
  apply (develop_py_of_no_extension env_quiet "quiet" quiet_pkg);
    reflexivity.
Defined.


(** ** Copies of a file *)

Lemma resolve_same_shape fuel m m' follow cur rest :
  same_shape m m' ->
  resolve fuel m follow cur rest = resolve fuel m' follow cur rest.
Proof.
  intros H. revert cur rest.
  induction fuel as [|fuel IHf]; intros cur rest; [reflexivity |].
  revert cur. induction rest as [|c rest IHr]; intros cur; [reflexivity |].
  rewrite !resolve_cons. destruct (String.eqb c ".."); [apply IHr |].
  specialize (H (cur ++ [c])).
  destruct (m !! (cur ++ [c])) as [[| |t]|], (m' !! (cur ++ [c])) as [[| |t']|];
    cbn in H; try discriminate; try reflexivity; try apply IHr.
  injection H as ->. destruct rest, follow; try reflexivity; apply IHf.
Qed.

Lemma locate_same_shape cwd st st' follow p :
  same_shape (files st) (files st') ->
  locate cwd st follow p = locate cwd st' follow p.
Proof.
  intros H. unfold locate. destruct (String.eqb p ""); [reflexivity |].
  now apply resolve_same_shape.
Qed.

Lemma add_entry_same_shape t k m : same_shape m (add_entry t k m).
Proof.
  intros j. unfold add_entry. destruct k as [|c k0]; [reflexivity |].
  destruct (m !! parent (c :: k0)) as [[| t' es |]|] eqn:Hp; try reflexivity.
  destruct (decide (j = parent (c :: k0))) as [->|Hne].
  - now rewrite lookup_insert_eq, Hp.
  - now rewrite lookup_insert_ne by congruence.
Qed.

Lemma add_entry_file t k m j tj md data :
  m !! j = Some (File tj md data) ->
  add_entry t k m !! j = Some (File tj md data).
Proof.
  intros Hj. unfold add_entry. destruct k as [|c k0]; [exact Hj |].
  destruct (m !! parent (c :: k0)) as [[| t' es |]|] eqn:Hp; try exact Hj.
  rewrite lookup_insert_ne; [exact Hj | congruence].
Qed.

(** What a successful [shutil.copy2] leaves: the file of the source at the
    place it writes to, which is the destination or, when the destination
    is a directory, the name of the source inside it; the source as it was;
    and every name resolving as before. *)
Lemma copy2_lands env source dest st st' t :
  copy2 env source dest st = (inr tt, st', t) ->
  let target :=
    if isdir_b (getcwd env) st dest then pjoin dest [basename source]
    else dest in
  exists tm md data,
    stat_node (getcwd env) st source = Some (File tm md data)
    /\ stat_node (getcwd env) st' source = Some (File tm md data)
    /\ stat_node (getcwd env) st' target = Some (File tm md data)
    /\ t = [shutil_copy2 source dest].
Proof.
  intros Hrun target. revert Hrun. unfold copy2, perform. cbv zeta.
  fold target. unfold stat_node.
  destruct (locate (getcwd env) st true source) as [ks|] eqn:Hls;
    [| discriminate].
  destruct (files st !! ks) as [[tm md data| |]|] eqn:Hks; try discriminate.
  destruct (locate (getcwd env) st true target) as [kd|] eqn:Hld;
    [| discriminate].
  assert (Hgoal : forall m',
            same_shape (files st) m' -> m' !! ks = Some (File tm md data) ->
            m' !! kd = Some (File tm md data) ->
            exists tm0 md0 data0,
              Some (File tm md data) = Some (File tm0 md0 data0)
              /\ match locate (getcwd env) (with_files st m') true source with
                 | Some k => files (with_files st m') !! k
                 | None => None
                 end = Some (File tm0 md0 data0)
              /\ match locate (getcwd env) (with_files st m') true target with
                 | Some k => files (with_files st m') !! k
                 | None => None
                 end = Some (File tm0 md0 data0)
              /\ [shutil_copy2 source dest] = [shutil_copy2 source dest]).
  { intros m' Hsh H1 H2. exists tm, md, data.
    rewrite <- !(locate_same_shape (getcwd env) st (with_files st m'))
      by exact Hsh.
    rewrite Hls, Hld. cbn [files with_files]. now repeat split. }
  destruct (files st !! kd) as [[td mdd datad| |]|] eqn:Hkd; try discriminate.
  - destruct (bool_decide (ks = kd)) eqn:Heq; [discriminate |].
    apply bool_decide_eq_false in Heq. intros [= <- <-].
    apply Hgoal.
    + intros j. destruct (decide (j = kd)) as [->|Hne].
      * now rewrite lookup_insert_eq, Hkd.
      * now rewrite lookup_insert_ne by congruence.
    + now rewrite lookup_insert_ne by congruence.
    + now rewrite lookup_insert_eq.
  - intros [= <- <-]. apply Hgoal.
    + intros j. unfold create. destruct (decide (j = kd)) as [->|Hne].
      * now rewrite lookup_insert_eq, Hkd.
      * rewrite lookup_insert_ne by congruence. apply add_entry_same_shape.
    + unfold create. rewrite lookup_insert_ne by congruence.
      now apply add_entry_file.
    + unfold create. now rewrite lookup_insert_eq.
Qed.

Lemma copy2_onto_file env source dest st st' t :
  isdir_b (getcwd env) st dest = false ->
  copy2 env source dest st = (inr tt, st', t) ->
  exists tm md data,
    stat_node (getcwd env) st source = Some (File tm md data)
    /\ stat_node (getcwd env) st' source = Some (File tm md data)
    /\ stat_node (getcwd env) st' dest = Some (File tm md data)
    /\ t = [shutil_copy2 source dest].
Proof.
  intros Hnd Hrun. pose proof (copy2_lands _ _ _ _ _ _ Hrun) as H.
  cbv zeta in H. now rewrite Hnd in H.
Qed.

(** The two ways [_maybe_copy] returns for a destination that is not a
    directory: nothing to do, the check having said so; or the check, then
    the copy. *)
Lemma maybe_copy_cases env src dest st st' t :
  isdir_b (getcwd env) st dest = false ->
  _maybe_copy env src dest st = (inr tt, st', t) ->
  (st' = st /\ t = staleness_probes src dest
   /\ _should_copy env src dest st = (inr false, st, staleness_probes src dest))
  \/ (exists t0 tm md data,
        t = t0 ++ [shutil_copy2 src dest]
        /\ Forall (fun e => mutating e = false) t0
        /\ stat_node (getcwd env) st src = Some (File tm md data)
        /\ stat_node (getcwd env) st' src = Some (File tm md data)
        /\ stat_node (getcwd env) st' dest = Some (File tm md data)).
Proof.
  intros Hnd. unfold _maybe_copy. rewrite run_bind.
  assert (Hcopy : forall t0 tc,
            Forall (fun e => mutating e = false) t0 ->
            copy2 env src dest st = (inr tt, st', tc) ->
            exists t1 tm md data,
              t0 ++ tc = t1 ++ [shutil_copy2 src dest]
              /\ Forall (fun e => mutating e = false) t1
              /\ stat_node (getcwd env) st src = Some (File tm md data)
              /\ stat_node (getcwd env) st' src = Some (File tm md data)
              /\ stat_node (getcwd env) st' dest = Some (File tm md data)).
  { intros t0 tc Ht0 Hc.
    destruct (copy2_onto_file _ _ _ _ _ _ Hnd Hc)
      as (tm & md & data & Hs & Hs' & Hd' & ->).
    exists t0, tm, md, data. auto. }
  destruct (exists_b (getcwd env) st dest) eqn:He.
  - unfold exists_b in He.
    destruct (stat_node (getcwd env) st dest) as [d|] eqn:Hd; [| discriminate].
    destruct (stat_node (getcwd env) st src) as [s|] eqn:Hs.
    + rewrite (should_copy_present env src dest st s d Hs Hd).
      destruct (Qlt_le_dec _ _) as [Hlt|Hle].
      * destruct (copy2 env src dest st) as [[rc sc] tc] eqn:Hc.
        intros [= -> <- <-]. right.
        apply (Hcopy [os_path_exists dest; os_stat src; os_stat dest] tc);
          [now repeat constructor | reflexivity].
      * rewrite run_ret. intros [= <- <-]. left.
        split; [reflexivity | split; reflexivity].
    + rewrite (should_copy_source_missing env src dest st d Hs Hd).
      discriminate.
  - rewrite (should_copy_missing env src dest st He).
    destruct (copy2 env src dest st) as [[rc sc] tc] eqn:Hc.
    intros [= -> <- <-]. right.
    apply (Hcopy [os_path_exists dest] tc); [now repeat constructor | reflexivity].
Qed.

(** X5. After [_maybe_copy] has returned for a destination that was not a
    directory, the staleness check finds the destination up to date; and
    when it has called [shutil.copy2], the destination is a file with the
    modification time, the permission bits and the contents of the source.
    Without that call the disk is as it was. *)
Theorem maybe_copy_leaves_up_to_date (env : Env) (src dest : string)
    (st st' : state) (t : list event) :
  isdir_b (getcwd env) st dest = false ->
  _maybe_copy env src dest st = (inr tt, st', t) ->
  _should_copy env src dest st' = (inr false, st', staleness_probes src dest)
  /\ (In (shutil_copy2 src dest) t ->
        exists tm md data,
          stat_node (getcwd env) st src = Some (File tm md data)
          /\ stat_node (getcwd env) st' src = Some (File tm md data)
          /\ stat_node (getcwd env) st' dest = Some (File tm md data))
  /\ (~ In (shutil_copy2 src dest) t -> st' = st).
Proof.
  intros Hnd Hrun.
  destruct (maybe_copy_cases env src dest st st' t Hnd Hrun)
    as [(-> & -> & Hup) | (t0 & tm & md & data & -> & Ht0 & Hs & Hs' & Hd')].
  - split; [exact Hup | split; [| reflexivity]].
    intros [H|[H|[H|[]]]]; discriminate H.
  - split; [| split].
    + rewrite (should_copy_present env src dest st' _ _ Hs' Hd').
      destruct (Qlt_le_dec _ _) as [Hlt|_]; [| reflexivity].
      cbn in Hlt. now apply epsilon_refl in Hlt.
    + intros _. exists tm, md, data. auto.
    + intros Hn. exfalso. apply Hn, in_or_app. right. now left.
Qed.

Lemma maybe_copy_up_to_date_witness :
  exists st' t,
    _maybe_copy env0 "/s/a.js" "/d/a.js" st_newer_source = (inr tt, st', t)
    /\ _should_copy env0 "/s/a.js" "/d/a.js" st'
       = (inr false, st', staleness_probes "/s/a.js" "/d/a.js")
    /\ stat_node (getcwd env0) st' "/d/a.js" = Some (File 10 420 "new").
Proof.
  remember (_maybe_copy env0 "/s/a.js" "/d/a.js" st_newer_source) as res
    eqn:Hres.
  assert (H1 : res.1.1 = inr tt) by (rewrite Hres; vm_compute; reflexivity).
  assert (H2 : In (shutil_copy2 "/s/a.js" "/d/a.js") res.2)
    by (rewrite Hres; vm_compute; tauto).
  destruct res as [[r st'] t]. cbn in H1, H2. subst r. symmetry in Hres.
  destruct (maybe_copy_leaves_up_to_date env0 "/s/a.js" "/d/a.js"
              st_newer_source st' t eq_refl Hres) as (Hup & Hcp & _).
  destruct (Hcp H2) as (tm & md & data & Hs & _ & Hd).
  exists st', t. split; [reflexivity | split; [exact Hup |]].
  rewrite Hd, <- Hs. vm_compute. reflexivity.
Defined.




(** ** Staging without [overwrite] takes nothing away *)

Lemma only_adds_ret {A} (a : A) : only_adds (mret a : M A).
Proof. intros st. apply extends_refl. Qed.

Lemma only_adds_raise {A} e : only_adds (raise e : M A).
Proof. intros st. apply extends_refl. Qed.

Lemma only_adds_lift {A} (r : exn + A) : only_adds (lift r).
Proof. destruct r; [apply only_adds_raise | apply only_adds_ret]. Qed.

Lemma only_adds_observe {A} ev (f : state -> A) : only_adds (observe ev f).
Proof. intros st. apply extends_refl. Qed.

Lemma only_adds_bind {A B} (m : M A) (k : A -> M B) :
  only_adds m -> (forall a, only_adds (k a)) -> only_adds (m ≫= k).
Proof.
  intros Hm Hk st. rewrite run_bind. specialize (Hm st).
  destruct (m st) as [[[e|a] st'] t]; [exact Hm |].
  specialize (Hk a st'). destruct (k a st') as [[r st''] t'].
  cbn in *. eapply extends_trans; eassumption.
Qed.

Lemma only_adds_for_each {A} (l : list A) (body : A -> M unit) :
  (forall x, only_adds (body x)) -> only_adds (for_each l body).
Proof.
  intros H. induction l as [|x l IH]; [apply only_adds_ret |].
  cbn [for_each]. apply only_adds_bind; [apply H | intros _; exact IH].
Qed.

Lemma only_adds_makedirs env name exist_ok :
  only_adds (makedirs env name exist_ok).
Proof.
  intros st. destruct (makedirs env name exist_ok st) as [[r st'] t] eqn:H.
  eapply makedirs_extends; eassumption.
Qed.

Lemma only_adds_ensure_dir env path : only_adds (ensure_dir env path).
Proof.
  intros st. destruct (ensure_dir env path st) as [[r st'] t] eqn:H.
  eapply ensure_dir_extends; eassumption.
Qed.

Lemma only_adds_symlink env target linkpath :
  only_adds (symlink_ env target linkpath).
Proof.
  intros st. unfold symlink_, perform.
  destruct (locate _ st false linkpath) as [k|]; [| apply extends_refl].
  destruct k as [|c k0]; [apply extends_refl |].
  destruct (files st !! (c :: k0)) eqn:Hk; [apply extends_refl |].
  apply create_extends, Hk.
Qed.

Lemma only_adds_copy2 env source destination :
  only_adds (copy2 env source destination).
Proof.
  intros st. unfold copy2, perform.
  destruct (locate _ st true source) as [ks|]; [| apply extends_refl].
  destruct (files st !! ks) as [[tm md data| |]|]; try apply extends_refl.
  destruct (locate _ st true _) as [kd|]; [| apply extends_refl].
  destruct (files st !! kd) as [[td mdd datad| |]|] eqn:Hkd;
    try apply extends_refl.
  - destruct (bool_decide (ks = kd)); [apply extends_refl |].
    intros j n Hj. cbn [fst snd files with_files].
    destruct (decide (j = kd)) as [->|Hne].
    + rewrite lookup_insert_eq. eexists. split; [reflexivity |].
      rewrite Hkd in Hj. injection Hj as <-. exact I.
    + rewrite lookup_insert_ne by congruence. exists n.
      split; [exact Hj | apply same_kind_refl].
  - apply create_extends, Hkd.
Qed.

Lemma only_adds_maybe_copy env src dest : only_adds (_maybe_copy env src dest).
Proof.
  unfold _maybe_copy, _should_copy, exists_, stat.
  apply only_adds_bind.
  - apply only_adds_bind; [apply only_adds_observe |]. intros e.
    destruct (negb e); [apply only_adds_ret |].
    apply only_adds_bind.
    + intros st. unfold perform. destruct (stat_node _ st src);
        apply extends_refl.
    + intros s. apply only_adds_bind.
      * intros st. unfold perform. destruct (stat_node _ st dest);
          apply extends_refl.
      * intros d. destruct (Qlt_le_dec _ _); apply only_adds_ret.
  - intros []; [apply only_adds_copy2 | apply only_adds_ret].
Qed.

Lemma only_adds_walk_loop env depth path full_dest top :
  only_adds (walk_loop env depth path full_dest top).
Proof.
  revert top. induction depth as [|depth IH]; intros top; cbn [walk_loop].
  - apply only_adds_raise.
  - unfold scandir. apply only_adds_bind; [apply only_adds_observe |].
    intros [[dirs nondirs]|]; [| apply only_adds_ret].
    apply only_adds_bind.
    + unfold walk_body, exists_.
      apply only_adds_bind; [apply only_adds_observe |]. intros e.
      apply only_adds_bind.
      * destruct (negb e); [apply only_adds_makedirs | apply only_adds_ret].
      * intros _. apply only_adds_for_each. intros f.
        apply only_adds_maybe_copy.
    + intros _. apply only_adds_for_each. intros d st.
      destruct (islink_b _ _ _); [apply extends_refl | apply IH].
Qed.

Lemma only_adds_install_at env path symlink full_dest :
  only_adds (install_at env path symlink full_dest).
Proof.
  unfold install_at. apply only_adds_bind; [apply only_adds_makedirs |].
  intros _. apply only_adds_bind; [| intros _; apply only_adds_ret].
  destruct symlink.
  - unfold link_mode, exists_, islink.
    apply only_adds_bind; [apply only_adds_observe |]. intros e.
    destruct (negb e); [apply only_adds_symlink |].
    apply only_adds_bind; [apply only_adds_observe |]. intros l.
    destruct (negb l); [apply only_adds_raise | apply only_adds_ret].
  - unfold copy_mode, isdir.
    apply only_adds_bind; [apply only_adds_observe |]. intros d.
    destruct d; [apply only_adds_walk_loop | apply only_adds_maybe_copy].
Qed.

(** X7. Without [overwrite], [develop_labextension] takes nothing away,
    whatever its arguments and however it ends: every file, directory and
    link that was on the disk is still there afterwards, as a file, a
    directory or the same link, and neither [os.remove] nor [shutil.rmtree]
    is called. *)
Theorem staging_without_overwrite_removes_nothing (env : Env)
    (path : path_arg) (symlink user : bool)
    (labextensions_dir destination : option string) (sys_prefix : bool)
    (st : state) :
  let run :=
    develop_labextension env path symlink false user labextensions_dir
      destination sys_prefix st in
  extends (files st) (files run.1.2) /\ Forall keeps run.2.
Proof.
  cbv zeta. split.
  - revert st. change (only_adds (develop_labextension env path symlink false
                         user labextensions_dir destination sys_prefix)).
    unfold develop_labextension, stage_under.
    apply only_adds_bind; [apply only_adds_lift |]. intros labext.
    apply only_adds_bind; [apply only_adds_ensure_dir |]. intros _.
    apply only_adds_bind;
      [destruct path; [apply only_adds_ret | apply only_adds_raise ..] |].
    intros p. apply only_adds_bind; [apply only_adds_ret |].
    intros _. apply only_adds_install_at.
  - revert st. change (emits keeps (develop_labextension env path symlink false
                         user labextensions_dir destination sys_prefix)).
    unfold develop_labextension, stage_under, ensure_dir.
    apply emits_bind; [apply emits_lift |]. intros labext.
    apply emits_bind; [apply emits_perform; reflexivity |]. intros _.
    apply emits_bind;
      [destruct path; [apply (emits_ret keeps) | apply emits_raise ..] |].
    intros p. apply emits_bind; [apply (emits_ret keeps) |].
    intros _. apply install_at_keeps.
Qed.


(** ** What a staging call returns *)

Lemma perform_trace {A} ev (f : state -> (exn + A) * state) st :
  (perform ev f st).2 = [ev].
Proof. unfold perform. now destruct (f st). Qed.


Lemma purge_writes_no_file env full_dest :
  emits (fun e => file_write e = false) (purge env full_dest).
Proof.
  unfold purge, lexists, isdir, islink, rmtree, remove. repeat emits_step.
Qed.

(** A call that returns was given one path, and what it returns is the
    normalised join of the labextensions directory and the destination
    name; its last step was the link or the copy at that path, and no file
    was written before that step. Without [overwrite] nothing was taken
    away before it either. *)
Lemma develop_labextension_returns env path symlink overwrite user
    labextensions_dir destination sys_prefix st d st' t :
  develop_labextension env path symlink overwrite user labextensions_dir
    destination sys_prefix st = (inr d, st', t) ->
  exists p labext sa t0 ta,
    path = PathStr p
    /\ _get_labextension_dir env
         {| user := user; sys_prefix := sys_prefix; prefix := None;
            labextensions_dir := labextensions_dir |} = inr labext
    /\ d = full_dest_of labext (destination_name destination p)
    /\ (if symlink then link_mode env p d else copy_mode env p d) sa
       = (inr tt, st', ta)
    /\ t = t0 ++ ta
    /\ Forall (fun e => file_write e = false) t0
    /\ (overwrite = false -> extends (files st) (files sa)).
Proof.
  unfold develop_labextension. rewrite run_bind.
  destruct (_get_labextension_dir env _) as [e|labext] eqn:Hdir;
    [discriminate |].
  cbn [lift]. unfold ret at 1. rewrite run_bind.
  destruct (ensure_dir env labext st) as [[[e|[]] s1] t1] eqn:H1;
    [discriminate |].
  unfold stage_under. rewrite run_bind.
  destruct path as [p| |]; try discriminate.
  rewrite run_ret, run_bind.
  destruct ((if overwrite then purge env _ else mret tt) s1)
    as [[[e|[]] s2] t2] eqn:H2; [discriminate |].
  unfold install_at. rewrite run_bind.
  destruct (makedirs env _ true s2) as [[[e|[]] s3] t3] eqn:H3;
    [discriminate |].
  rewrite run_bind.
  destruct ((if symlink then link_mode env p _ else copy_mode env p _) s3)
    as [[[e|[]] s4] t4] eqn:Hlast; [discriminate |].
  rewrite run_ret. intros [= <- <- <-].
  exists p, labext, s3, (t1 ++ t2 ++ t3), t4.
  split; [reflexivity | split; [reflexivity | split; [reflexivity |]]].
  split; [exact Hlast | split; [| split]].
  - cbn [app]. now rewrite !app_nil_r, <- !app_assoc.
  - apply Forall_app. split; [| apply Forall_app; split].
    + change t1 with (inr tt : exn + unit, s1, t1).2. rewrite <- H1.
      unfold ensure_dir. rewrite perform_trace. now repeat constructor.
    + change t2 with (inr tt : exn + unit, s2, t2).2. rewrite <- H2.
      destruct overwrite; [apply purge_writes_no_file | constructor].
    + change t3 with (inr tt : exn + unit, s3, t3).2. rewrite <- H3.
      unfold makedirs. rewrite perform_trace. now repeat constructor.
  - intros ->. rewrite run_ret in H2. injection H2 as <- _.
    eapply extends_trans;
      [eapply ensure_dir_extends | eapply makedirs_extends]; eassumption.
Qed.

(** ** Link-mode leaves a link *)

(** A name that resolved to a place where nothing was resolves to the same
    place when something has appeared there, links not followed at the
    end. *)
Lemma resolve_fresh fuel m m' cur rest k :
  (forall j, j <> k -> shape_of (m !! j) = shape_of (m' !! j)) ->
  m !! k = None ->
  resolve fuel m false cur rest = Some k ->
  resolve fuel m' false cur rest = Some k.
Proof.
  intros Hsh Hk. revert cur rest.
  induction fuel as [|fuel IHf]; intros cur rest; [discriminate |].
  revert cur. induction rest as [|c rest IHr]; intros cur.
  - rewrite !resolve_nil. auto.
  - rewrite !resolve_cons. destruct (String.eqb c ".."); [apply IHr |].
    destruct (decide (cur ++ [c] = k)) as [E|Hne].
    + rewrite E, Hk. destruct rest as [|c' rest']; [| discriminate].
      intros _. destruct (m' !! k) as [[| |tg]|]; reflexivity.
    + specialize (Hsh _ Hne).
      destruct (m !! (cur ++ [c])) as [[| |tg]|],
               (m' !! (cur ++ [c])) as [[| |tg']|];
        cbn in Hsh; try discriminate; auto.
      injection Hsh as ->. destruct rest; [auto | apply IHf].
Qed.

Lemma symlink_creates env target linkpath st st' t :
  symlink_ env target linkpath st = (inr tt, st', t) ->
  lstat_node (getcwd env) st' linkpath = Some (Symlink target)
  /\ t = [os_symlink target linkpath].
Proof.
  unfold symlink_, perform, lstat_node.
  destruct (locate (getcwd env) st false linkpath) as [k|] eqn:Hl;
    [| discriminate].
  destruct k as [|c k0]; [destruct (files st !! []); discriminate |].
  destruct (files st !! (c :: k0)) eqn:Hk; [discriminate |].
  intros [= <- <-]. split; [| reflexivity].
  unfold locate in Hl |- *. destruct (String.eqb linkpath ""); [discriminate |].
  cbn [files with_files].
  rewrite (resolve_fresh _ (files st) _ _ _ (c :: k0)); try assumption.
  - unfold create. now rewrite lookup_insert_eq.
  - intros j Hj. unfold create. rewrite lookup_insert_ne by congruence.
    apply add_entry_same_shape.
Qed.

(** X8. When link-mode staging returns, the returned path is a symbolic link:
    either the last call was the [os.symlink] that made it, and it points to
    the absolute source path, or the last two calls were the tests that
    found a link there. *)
Theorem link_staging_leaves_a_link (env : Env) (path : path_arg)
    (overwrite user : bool) (labextensions_dir destination : option string)
    (sys_prefix : bool) (st st' : state) (d : string) (t : list event) :
  develop_labextension env path true overwrite user labextensions_dir
    destination sys_prefix st = (inr d, st', t) ->
  islink_b (getcwd env) st' d = true
  /\ ((exists p t0,
         path = PathStr p
         /\ t = t0 ++ [os_path_exists d;
                       os_symlink (Posixpath.abspath (getcwd env) p) d]
         /\ lstat_node (getcwd env) st' d
            = Some (Symlink (Posixpath.abspath (getcwd env) p)))
      \/ (exists t0, t = t0 ++ [os_path_exists d; os_path_islink d])).
Proof.
  intros Hrun.
  destruct (develop_labextension_returns _ _ _ _ _ _ _ _ _ _ _ _ Hrun)
    as (p & labext & sa & t0 & ta & -> & _ & _ & Hlink & -> & _).
  unfold link_mode, exists_, islink in Hlink.
  rewrite run_bind_observe in Hlink.
  destruct (exists_b (getcwd env) sa d); cbn [negb] in Hlink.
  - rewrite run_bind_observe in Hlink.
    destruct (islink_b (getcwd env) sa d) eqn:Hi; cbn [negb] in Hlink;
      [| discriminate].
    rewrite run_ret in Hlink. injection Hlink as <- <-.
    split; [exact Hi | right; now exists t0].
  - destruct (symlink_ env _ d sa) as [[rs ss] ts] eqn:Hs.
    injection Hlink as -> -> <-.
    destruct (symlink_creates _ _ _ _ _ _ Hs) as [Hl ->].
    split; [unfold islink_b; now rewrite Hl |].
    left. exists p, t0. now repeat split.
Qed.

Lemma link_staging_witness :
  exists st' t,
    develop_labextension env0 (PathStr "/ext/foo") true false false
      (Some "/lab") None false st_lab = (inr "/lab/foo", st', t)
    /\ islink_b (getcwd env0) st' "/lab/foo" = true.
Proof.
  remember (develop_labextension env0 (PathStr "/ext/foo") true false false
              (Some "/lab") None false st_lab) as res eqn:Hres.
  assert (H1 : res.1.1 = inr "/lab/foo")
    by (rewrite Hres; vm_compute; reflexivity).
  destruct res as [[r st'] t]. cbn in H1. subst r. symmetry in Hres.
  exists st', t. split; [reflexivity |].
  exact (proj1 (link_staging_leaves_a_link env0 (PathStr "/ext/foo") false
                  false (Some "/lab") None false st_lab st' "/lab/foo" t
                  Hres)).
Defined.


(** ** A copied tree is complete *)

Section TreeCover.

Variable env : Env.
Variables sp fd : string.
Variable m0 : gmap key node.

Let ks := src_key env sp.
Let kd := dst_key env fd.

Hypothesis Hsp : Posixpath.endswith_sep sp = true.
Hypothesis Hfd : fd <> "".
Hypothesis Hnd_s : no_dotdot ks.
Hypothesis Hnd_d : no_dotdot kd.
Hypothesis Hdisj_sd : ~ ks `prefix_of` kd.
Hypothesis Hdisj_ds : ~ kd `prefix_of` ks.
Hypothesis Hnice : forall r t es,
  m0 !! (ks ++ r) = Some (Dir t es) -> Forall (fun c => nice c = true) es.
Hypothesis Hns0 : forall r t, m0 !! (ks ++ r) <> Some (Symlink t).

(** Every name below a directory of the source is in its listing. *)
Hypothesis Hlisted : forall r c t es,
  m0 !! (ks ++ r) = Some (Dir t es) ->
  is_Some (m0 !! (ks ++ r ++ [c])) -> In c es.

(** After [_maybe_copy] for a file of the source, the destination has it,
    no older than the source. *)
Lemma maybe_copy_synced top rel f tm md data st st' t :
  top_ok sp top rel -> nice f = true ->
  src_ok env sp m0 rel = true -> is_dir (m0 !! (ks ++ rel)) = true ->
  m0 !! (ks ++ rel ++ [f]) = Some (File tm md data) ->
  sync_inv env sp fd m0 st ->
  _maybe_copy env (pjoin top [f])
    (pjoin (pjoin fd [Posixpath.drop_chars (String.length sp) top]) [f]) st
  = (inr tt, st', t) ->
  synced env sp fd m0 st' (rel ++ [f]).
Proof.
  intros Htop Hf Hok Hrel Hfile Hinv Hrun.
  set (dest_dir := pjoin fd [Posixpath.drop_chars (String.length sp) top]) in *.
  set (source := pjoin top [f]) in *. set (dest := pjoin dest_dir [f]) in *.
  destruct (maybe_copy_idempotent env sp fd m0 Hsp Hfd Hnd_s Hnd_d Hdisj_sd
              Hdisj_ds Hnice Hns0 top rel f tm md data Htop Hf Hok Hrel Hfile
              st st' t Hinv Hrun) as (I' & _ & Again).
  destruct (Again st' I' (later_refl _ _ _ _ _)) as (t2 & E2 & Q2).
  fold dest_dir source dest in E2.
  destruct (top_ok_dest_dir env sp fd Hfd top rel Htop) as [Hfr Hne].
  fold dest_dir kd in Hfr, Hne.
  pose proof (top_ok_step env sp fd m0 Hsp Hnd_s Hdisj_sd Hdisj_ds Hnice Hns0
                top rel f Htop Hf) as Htop'. fold source in Htop'.
  assert (Hd_root : from_root (getcwd env) dest = kd ++ rel ++ [f]).
  { unfold dest. rewrite from_root_join_name by exact Hf.
    now rewrite Hfr, <- app_assoc. }
  assert (Hd_ne : dest <> "") by (now apply join_name_nonempty).
  assert (Hd_nd : no_dotdot (from_root (getcwd env) dest)).
  { rewrite Hd_root. apply no_dotdot_app; [exact Hnd_d |].
    apply no_dotdot_nice. apply Forall_app. split;
      [apply (top_ok_nice _ _ _ Htop) | now constructor]. }
  assert (Hsrc : stat_node (getcwd env) st' source = Some (File tm md data)).
  { rewrite (src_stat env sp fd m0 Hsp Hnd_s Hdisj_sd Hdisj_ds Hnice Hns0
               st' _ _ I' Htop').
    unfold src_node. rewrite (src_ok_step env sp m0 rel f Hok Hrel).
    exact Hfile. }
  assert (Hdst : stat_node (getcwd env) st' dest
                 = node_at (files st') (kd ++ rel ++ [f])).
  { rewrite stat_node_plain; [now rewrite Hd_root | apply I' | | ];
      assumption. }
  unfold _maybe_copy in E2.
  destruct (node_at (files st') (kd ++ rel ++ [f])) as [n|] eqn:Hn.
  - pose proof (should_copy_present env source dest st' _ n Hsrc
                  ltac:(now rewrite Hdst)) as Hsc.
    destruct (Qlt_le_dec _ _) as [Hlt|Hle].
    + exfalso. rewrite run_bind, Hsc in E2.
      destruct (copy2 env source dest st') as [[rc sc] tc] eqn:Hc.
      assert (Htc : tc = [shutil_copy2 source dest]).
      { change tc with (rc, sc, tc).2. rewrite <- Hc. apply perform_trace. }
      injection E2 as _ _ <-. subst tc.
      rewrite List.Forall_forall in Q2.
      discriminate (Q2 (shutil_copy2 source dest) ltac:(cbn; tauto)).
    + pose proof I' as (Hns & _ & _ & _ & _ & Hnodir).
      assert (Hnotdir : is_dir (files st' !! (kd ++ rel ++ [f])) = false).
      { apply Hnodir. fold ks. now rewrite Hfile. }
      unfold node_at in Hn.
      destruct (reach (files st') [] (kd ++ rel ++ [f])) eqn:Hr;
        [| discriminate].
      destruct n as [t' md' data' | |tg].
      * exists tm, md, data, t', md', data'. fold ks kd.
        split; [exact Hfile | split].
        -- unfold node_at. now rewrite Hr.
        -- cbn in Hle. lra.
      * rewrite Hn in Hnotdir. discriminate.
      * exfalso. exact (Hns _ _ Hn).
  - exfalso. rewrite run_bind in E2.
    rewrite should_copy_missing in E2
      by (unfold exists_b; now rewrite Hdst).
    destruct (copy2 env source dest st') as [[rc sc] tc] eqn:Hc.
    assert (Htc : tc = [shutil_copy2 source dest]).
    { change tc with (rc, sc, tc).2. rewrite <- Hc. apply perform_trace. }
    injection E2 as _ _ <-. subst tc.
    rewrite List.Forall_forall in Q2.
    discriminate (Q2 (shutil_copy2 source dest) ltac:(cbn; tauto)).
Qed.


(** Every round of a loop whose rounds are steps of the walk was run, from
    a state of the walk, and the final state comes later. *)
Lemma for_each_reaches {A} (l : list A) (body : A -> M unit) st st' t :
  (forall x, In x l -> idempotent env sp fd m0 (body x)) ->
  sync_inv env sp fd m0 st ->
  for_each l body st = (inr tt, st', t) ->
  forall x, In x l ->
    exists sa sb ta,
      sync_inv env sp fd m0 sa
      /\ body x sa = (inr tt, sb, ta)
      /\ later env sp fd m0 sb st'.
Proof.
  revert st t. induction l as [|a l IH]; intros st t Hid Hinv Hrun x Hin;
    [destruct Hin |].
  cbn [for_each] in Hrun. rewrite run_bind in Hrun.
  destruct (body a st) as [[[e|[]] s1] t1] eqn:Ha; [discriminate |].
  destruct (for_each l body s1) as [[r s2] t2] eqn:Hrest.
  injection Hrun as -> <- <-.
  destruct (Hid a (or_introl eq_refl) _ _ _ Hinv Ha) as (I1 & L1 & _).
  assert (Hid' : forall y, In y l -> idempotent env sp fd m0 (body y))
    by (intros y Hy; apply Hid; now right).
  destruct Hin as [<-|Hin].
  - exists st, s1, t1. split; [exact Hinv | split; [exact Ha |]].
    now destruct (idempotent_for_each env sp fd m0 l body Hid' _ _ _ I1 Hrest)
      as (_ & L2 & _).
  - exact (IH s1 t2 Hid' I1 Hrest x Hin).
Qed.

Lemma src_ok_nonempty (rel : list string) :
  rel <> [] -> src_ok env sp m0 rel = reach m0 ks rel.
Proof. destruct rel; [congruence | reflexivity]. Qed.

(** What is at a name on the way to a file of the source. *)
Lemma src_child rel c r :
  src_ok env sp m0 (rel ++ c :: r) = true ->
  is_file (m0 !! (ks ++ rel ++ c :: r)) = true ->
  match r with
  | [] => is_file (m0 !! (ks ++ rel ++ [c])) = true
  | _ => is_dir (m0 !! (ks ++ rel ++ [c])) = true
  end.
Proof.
  intros Hok Hfile. destruct r as [|c' r]; [exact Hfile |].
  rewrite src_ok_nonempty in Hok by (now destruct rel).
  change (rel ++ c :: c' :: r) with (rel ++ [c] ++ c' :: r) in Hok.
  rewrite app_assoc in Hok.
  apply reach_dir_inside in Hok; [exact Hok | now destruct rel | discriminate].
Qed.

(** A walk that returns has brought every file at or below its directory
    to the destination. *)
Lemma walk_loop_covers depth top rel st st' t :
  top_ok sp top rel ->
  src_ok env sp m0 rel = true -> is_dir (m0 !! (ks ++ rel)) = true ->
  sync_inv env sp fd m0 st ->
  walk_loop env depth sp fd top st = (inr tt, st', t) ->
  forall r, r <> [] ->
    src_ok env sp m0 (rel ++ r) = true ->
    is_file (m0 !! (ks ++ rel ++ r)) = true ->
    synced env sp fd m0 st' (rel ++ r).
Proof.
  revert top rel st st' t.
  induction depth as [|depth IH];
    intros top rel st st' t Htop Hok Hdir Hinv Hrun r Hr Hokr Hfile;
    [discriminate |].
  cbn [walk_loop] in Hrun. unfold scandir in Hrun.
  rewrite run_bind_observe in Hrun.
  rewrite (src_listing_stable env sp fd m0 Hsp Hnd_s Hdisj_sd Hdisj_ds Hnice
             Hns0 st top rel Hinv Htop) in Hrun.
  destruct (src_listing env sp m0 rel) as [[dirs nondirs]|] eqn:Hl.
  2:{ exfalso. unfold src_listing, src_node in Hl. rewrite Hok in Hl.
      fold ks in Hl. destruct (m0 !! (ks ++ rel)) as [[| |]|]; discriminate. }
  destruct (src_listing_facts env sp m0 Hnice Hns0 _ _ _ Hl)
    as (_ & _ & Hdirs & Hfiles).
  rewrite run_bind in Hrun.
  destruct (walk_body env sp fd top nondirs st) as [[[e|[]] s1] t1] eqn:Hb;
    [discriminate |].
  set (body := fun dirname : string => _) in Hrun.
  destruct (for_each dirs body s1) as [[r2 s2] t2] eqn:Hf.
  injection Hrun as -> <- _.
  destruct (walk_body_idempotent env sp fd m0 Hsp Hfd Hnd_s Hnd_d Hdisj_sd
              Hdisj_ds Hnice Hns0 top rel dirs nondirs Htop Hl _ _ _ Hinv Hb)
    as (I1 & _ & _).
  assert (Hbodies : forall d, In d dirs -> idempotent env sp fd m0 (body d)).
  { intros d Hd.
    apply idempotent_ext
      with (m' := walk_loop env depth sp fd (pjoin top [d])).
    - intros s Hs. unfold body. rewrite no_symlinks_islink by apply Hs.
      reflexivity.
    - apply (walk_loop_idempotent env sp fd m0 Hsp Hfd Hnd_s Hnd_d Hdisj_sd
               Hdisj_ds Hnice Hns0 depth _ (rel ++ [d])).
      apply (top_ok_step env sp fd m0 Hsp Hnd_s Hdisj_sd Hdisj_ds Hnice Hns0);
        [exact Htop | now apply Hdirs]. }
  destruct (idempotent_for_each env sp fd m0 dirs body Hbodies _ _ _ I1 Hf)
    as (_ & L2 & _).
  destruct r as [|c r]; [congruence |]. clear Hr.
  pose proof (src_child rel c r Hokr Hfile) as Hc.
  (* the name is in the listing *)
  unfold src_listing, src_node in Hl. rewrite Hok in Hl. fold ks in Hl.
  destruct (is_dir_lookup _ _ Hdir) as (td & es & Hd). rewrite Hd in Hl.
  injection Hl as Hdirs_eq Hnondirs_eq.
  assert (Hsome : is_Some (m0 !! (ks ++ rel ++ [c]))).
  { destruct r; destruct (m0 !! (ks ++ rel ++ [c])); try discriminate; eauto. }
  assert (Hpresent :
            In c (List.filter
                    (fun c => bool_decide (is_Some (m0 !! ((ks ++ rel) ++ [c]))))
                    es)).
  { apply List.filter_In. split; [eapply Hlisted; eassumption |].
    apply bool_decide_eq_true_2. now rewrite <- app_assoc. }
  destruct r as [|c' r].
  - (* a file of this directory *)
    assert (Hin : In c nondirs).
    { rewrite <- Hnondirs_eq. apply List.filter_In. split; [exact Hpresent |].
      cbv beta. rewrite (src_ok_step env sp m0 rel c Hok Hdir). fold ks.
      now destruct (m0 !! (ks ++ rel ++ [c])) as [[| |]|]. }
    destruct (Hfiles c Hin) as (Hnc & tm & md & data & Hfc).
    unfold walk_body in Hb. rewrite <- bind_assoc_run in Hb.
    rewrite run_bind in Hb.
    set (dest_dir := pjoin fd [Posixpath.drop_chars (String.length sp) top])
      in Hb.
    destruct ((exists_ env dest_dir ≫= _) st) as [[[e|[]] s0] t0] eqn:He;
      [discriminate |].
    destruct (for_each nondirs _ s0) as [[rf sf] tf] eqn:Hfe.
    injection Hb as -> -> _.
    destruct (ensure_dest_idempotent env sp fd m0 Hfd Hnd_d Hdisj_sd Hdisj_ds
                top rel Htop Hok Hdir _ _ _ Hinv He)
      as (I0 & _ & _).
    assert (Hcopies : forall f, In f nondirs ->
              idempotent env sp fd m0
                (_maybe_copy env (pjoin top [f]) (pjoin dest_dir [f]))).
    { intros f Hf'. destruct (Hfiles f Hf') as (Hnf & tf' & mdf & dataf & Hff).
      apply (maybe_copy_idempotent env sp fd m0 Hsp Hfd Hnd_s Hnd_d Hdisj_sd
               Hdisj_ds Hnice Hns0 top rel f tf' mdf dataf);
        assumption. }
    destruct (for_each_reaches nondirs _ _ _ _ Hcopies I0 Hfe c Hin)
      as (sa & sb & ta & Ia & Hrun_c & [_ Lb]).
    apply L2, Lb.
    apply (maybe_copy_synced top rel c tm md data sa sb ta); assumption.
  - (* a file further down *)
    assert (Hin : In c dirs).
    { rewrite <- Hdirs_eq. apply List.filter_In. split; [exact Hpresent |].
      cbv beta. rewrite (src_ok_step env sp m0 rel c Hok Hdir). exact Hc. }
    destruct (for_each_reaches dirs body _ _ _ Hbodies I1 Hf c Hin)
      as (sa & sb & ta & Ia & Hrun_c & [_ Lb]).
    unfold body in Hrun_c. rewrite no_symlinks_islink in Hrun_c by apply Ia.
    apply Lb.
    change (rel ++ c :: c' :: r) with (rel ++ [c] ++ c' :: r).
    rewrite app_assoc.
    apply (IH (pjoin top [c]) (rel ++ [c]) sa sb ta).
    + apply (top_ok_step env sp fd m0 Hsp Hnd_s Hdisj_sd Hdisj_ds Hnice Hns0);
        [exact Htop | now apply Hdirs].
    + apply src_ok_step; [exact Hok | exact Hdir].
    + exact Hc.
    + exact Ia.
    + exact Hrun_c.
    + discriminate.
    + rewrite <- app_assoc. exact Hokr.
    + rewrite <- app_assoc. exact Hfile.
Qed.


End TreeCover.


Lemma dirname_prefix (cwd p : string) :
  Posixpath.dirname p <> "" ->
  from_root cwd (Posixpath.dirname p) `prefix_of` from_root cwd p.
Proof.
  unfold Posixpath.dirname.
  destruct (Posixpath.split p) as [h t] eqn:Hs. cbn [fst]. intros Hh.
  destruct (split_spec _ _ _ Hs) as (_ & _ & Hsome).
  destruct (Hsome Hh) as [Habs Hc]. unfold from_root.
  rewrite Habs, Hc. destruct (Posixpath.isabs p).
  - now exists (components t).
  - exists (components t). now rewrite app_assoc.
Qed.

(** The walk of a copy-mode call that returned, and the state it started
    in. *)
Lemma copy_staging_walk env path user sys_prefix labextensions_dir destination
    labext st0 st1 d t1 :
  let cwd := getcwd env in
  let source := pjoin (Posixpath.abspath cwd path) [""] in
  let full_dest := full_dest_of labext (destination_name destination path) in
  let ks := from_root cwd source in
  let kd := from_root cwd full_dest in
  _get_labextension_dir env
    {| user := user; sys_prefix := sys_prefix; prefix := None;
       labextensions_dir := labextensions_dir |} = inr labext ->
  no_symlinks (files st0) ->
  is_dir (files st0 !! []) = true ->
  isdir_b cwd st0 path = true ->
  is_dir (node_at (files st0) ks) = true ->
  no_dotdot kd ->
  from_root cwd labext `prefix_of` kd ->
  ~ ks `prefix_of` kd -> ~ kd `prefix_of` ks ->
  (forall r, is_file (files st0 !! (ks ++ r)) = true ->
             is_dir (files st0 !! (kd ++ r)) = false) ->
  develop_labextension env (PathStr path) false false user labextensions_dir
    destination sys_prefix st0 = (inr d, st1, t1) ->
  exists sb tw,
    sync_inv env source full_dest (files st0) sb
    /\ walk_loop env (recursion_limit env) source full_dest source sb
       = (inr tt, st1, tw).
Proof.
  intros cwd source full_dest ks kd Hdir Hns Hroot Hisdir Hsrc Hndd Hpre
    Hsd Hds Hnodir Hrun.
  rewrite (develop_copy_run _ _ _ _ _ _ _ st0 Hdir) in Hrun.
  fold full_dest in Hrun.
  assert (Hndl : no_dotdot (from_root cwd labext))
    by (eapply no_dotdot_prefix; eassumption).
  rewrite run_bind in Hrun.
  destruct (ensure_dir env labext st0) as [[[e|[]] sa] ta] eqn:Hens;
    [discriminate |].
  destruct (ensure_dir_done _ _ _ _ _ Hns Hndl Hens) as [Hga _].
  rewrite run_bind in Hrun.
  destruct (makedirs env (Posixpath.dirname full_dest) true sa)
    as [[[e|[]] sb] tb] eqn:Hmk; [discriminate |].
  assert (Hdn : Posixpath.dirname full_dest <> "").
  { intros E. rewrite E in Hmk.
    destruct (makedirs_empty env true sa) as [e He]. rewrite He in Hmk.
    discriminate. }
  pose proof (dirname_prefix cwd full_dest Hdn) as Hprh. fold kd in Hprh.
  assert (Hnsa : no_symlinks (files sa))
    by (eapply grows_within_no_symlinks; eassumption).
  assert (Hndh : no_dotdot (from_root cwd (Posixpath.dirname full_dest)))
    by (eapply no_dotdot_prefix; eassumption).
  pose proof (makedirs_done _ _ _ _ _ _ _ Hnsa Hndh Hmk) as Hgb.
  assert (Hg : grows_within kd (files st0) (files sb)).
  { apply (grows_within_trans _ _ (files sa));
      [exact (grows_within_mono _ _ _ _ Hpre Hga)
      | exact (grows_within_mono _ _ _ _ Hprh Hgb)]. }
  rewrite run_bind in Hrun.
  destruct (copy_mode env path full_dest sb) as [[[e|[]] sc] tc] eqn:Hcm;
    [discriminate |].
  rewrite run_ret in Hrun. injection Hrun as _ <- _.
  pose proof (grows_within_extends _ _ _ Hg) as Hext0.
  pose proof (isdir_extends cwd st0 sb path Hext0 Hisdir) as Hisdir_b.
  unfold copy_mode, isdir in Hcm. rewrite run_bind_observe in Hcm.
  fold cwd in Hcm. rewrite Hisdir_b in Hcm. fold source in Hcm.
  destruct (walk_loop env (recursion_limit env) source full_dest source sb)
    as [[rw sw] tw] eqn:Hw.
  injection Hcm as -> -> _.
  exists sb, tw. split; [now apply prelude_sync_inv | exact Hw].
Qed.


Lemma listed_in_parent_check (l : list (key * node)) (ks r : key) c t es :
  every_node (listed_in_parent (list_to_map l)) l = true ->
  (list_to_map l : gmap key node) !! (ks ++ r) = Some (Dir t es) ->
  is_Some ((list_to_map l : gmap key node) !! (ks ++ r ++ [c])) ->
  In c es.
Proof.
  intros H Hd [n Hn]. apply (every_node_spec _ _ H) in Hn.
  unfold listed_in_parent in Hn. rewrite app_assoc in Hn.
  rewrite parent_snoc, name_of_snoc, Hd in Hn.
  destruct ((ks ++ r) ++ [c]) eqn:E; [now destruct (ks ++ r) |].
  apply existsb_exists in Hn as (x & Hx & Heq).
  apply String.eqb_eq in Heq. now subst x.
Qed.






(** ** Staging a single file *)

(** X11. Copy-mode staging of a path that is a regular file, without
    [overwrite]: when the call has returned and the returned path is not a
    directory, the staleness check finds it up to date; and when
    [shutil.copy2] was called for it, source and returned path are the same
    file: modification time, permission bits and contents. *)
Theorem file_staging_leaves_a_copy (env : Env) (p : string) (user : bool)
    (labextensions_dir destination : option string) (sys_prefix : bool)
    (st st' : state) (d : string) (t : list event) :
  is_file (stat_node (getcwd env) st p) = true ->
  develop_labextension env (PathStr p) false false user labextensions_dir
    destination sys_prefix st = (inr d, st', t) ->
  isdir_b (getcwd env) st' d = false ->
  _should_copy env p d st' = (inr false, st', staleness_probes p d)
  /\ (In (shutil_copy2 p d) t ->
        exists tm md data,
          stat_node (getcwd env) st' p = Some (File tm md data)
          /\ stat_node (getcwd env) st' d = Some (File tm md data)).
Proof.
  intros Hfile Hrun Hnd.
  destruct (develop_labextension_returns _ _ _ _ _ _ _ _ _ _ _ _ Hrun)
    as (p' & labext & sa & t0 & ta & [= <-] & _ & _ & Hcopy & -> & Ht0 & Hext).
  specialize (Hext eq_refl).
  assert (Hp : isdir_b (getcwd env) sa p = false).
  { unfold isdir_b.
    destruct (stat_node (getcwd env) st p) as [[tm md data| |]|] eqn:Hs;
      try discriminate.
    destruct (stat_extends _ _ _ _ _ Hext Hs) as (n' & -> & Hk).
    now destruct n'. }
  unfold copy_mode, isdir in Hcopy.
  rewrite run_bind_observe, Hp in Hcopy.
  destruct (_maybe_copy env p d sa) as [[rm sm] tm] eqn:Hm.
  injection Hcopy as -> -> <-.
  assert (Hd : isdir_b (getcwd env) sa d = false).
  { destruct (isdir_b (getcwd env) sa d) eqn:E; [| reflexivity].
    rewrite <- Hnd. symmetry. apply (isdir_extends _ sa st'); [| exact E].
    pose proof (only_adds_maybe_copy env p d sa) as H. now rewrite Hm in H. }
  destruct (maybe_copy_cases env p d sa st' tm Hd Hm)
    as [(-> & -> & Hup) | (t1 & tm0 & md0 & data0 & -> & Ht1 & _ & Hs' & Hd')].
  - split; [exact Hup |].
    intros Hin. exfalso. apply in_app_or in Hin as [Hin|Hin].
    + rewrite List.Forall_forall in Ht0. discriminate (Ht0 _ Hin).
    + destruct Hin as [H|[H|[H|[H|[]]]]]; discriminate H.
  - split; [| intros _; eauto].
    rewrite (should_copy_present env p d st' _ _ Hs' Hd').
    destruct (Qlt_le_dec _ _) as [Hlt|_]; [| reflexivity].
    cbn in Hlt. now apply epsilon_refl in Hlt.
Qed.

Lemma file_staging_witness :
  exists st' t,
    develop_labextension env0 (PathStr "/s/a.js") false false false
      (Some "/d") None false st_newer_source = (inr "/d/a.js", st', t)
    /\ _should_copy env0 "/s/a.js" "/d/a.js" st'
       = (inr false, st', staleness_probes "/s/a.js" "/d/a.js").
Proof.
  remember (develop_labextension env0 (PathStr "/s/a.js") false false false
              (Some "/d") None false st_newer_source) as res eqn:Hres.
  assert (H1 : res.1.1 = inr "/d/a.js")
    by (rewrite Hres; vm_compute; reflexivity).
  assert (H2 : isdir_b (getcwd env0) res.1.2 "/d/a.js" = false)
    by (rewrite Hres; vm_compute; reflexivity).
  destruct res as [[r st'] t]. cbn in H1, H2. subst r. symmetry in Hres.
  exists st', t. split; [reflexivity |].
  exact (proj1 (file_staging_leaves_a_copy env0 "/s/a.js" false (Some "/d")
                  None false st_newer_source st' "/d/a.js" t eq_refl Hres H2)).
Defined.

(** ** Arguments that count as not given *)

(** X12. An empty string for [labextensions_dir] or for [destination] is the
    same as leaving the argument out: the call does the same and returns
    the same. *)
Theorem empty_string_arguments_are_not_given (env : Env) (path : path_arg)
    (symlink overwrite user : bool)
    (labextensions_dir destination : option string) (sys_prefix : bool)
    (st : state) :
  develop_labextension env path symlink overwrite user (Some "") destination
    sys_prefix st
  = develop_labextension env path symlink overwrite user None destination
      sys_prefix st
  /\ develop_labextension env path symlink overwrite user labextensions_dir
       (Some "") sys_prefix st
     = develop_labextension env path symlink overwrite user labextensions_dir
         None sys_prefix st.
Proof.
  split; [| reflexivity].
  unfold develop_labextension.
  assert (H : _get_labextension_dir env
                {| user := user; sys_prefix := sys_prefix; prefix := None;
                   labextensions_dir := Some "" |}
              = _get_labextension_dir env
                  {| user := user; sys_prefix := sys_prefix; prefix := None;
                     labextensions_dir := None |})
    by (destruct user, sys_prefix; reflexivity).
  now rewrite H.
Qed.

(** ** The error of conflicting selectors *)

(** X13. With two or more selectors set, what the resolver raises is a
    NameError: the class [ArgumentConflict] it names is neither defined nor
    imported in the module, so the message it would carry is never built
    and a handler for a conflict error never sees it. *)
Theorem selector_conflict_raises_NameError (env : Env) (sel : selectors) :
  2 <= length (conflicting_pairs sel) ->
  _get_labextension_dir env sel
  = inl (Exn "NameError" "name 'ArgumentConflict' is not defined").
Proof.
  intros Hlen. unfold _get_labextension_dir.
  assert (Hlt : Nat.ltb 1 (length (conflicting_set env sel)) = true)
    by (rewrite conflicting_set_length; apply Nat.ltb_lt; lia).
  now rewrite Hlt.
Qed.

Lemma selector_conflict_witness :
  _get_labextension_dir env0
    {| user := true; sys_prefix := false; prefix := None;
       labextensions_dir := Some "/lab" |}
  = inl (Exn "NameError" "name 'ArgumentConflict' is not defined").
Proof.
  apply selector_conflict_raises_NameError. cbn. lia.
Defined.


(** ** The extension builder *)

Ltac run_builder :=
  unfold build_labextension, watch_labextension, mbind, B_bind, bbind, build,
    check_call, fs, exists_, observe, mret, B_ret, bret.

(** X14. [build_labextension] installs the dependencies exactly when the
    extension has no [node_modules] once the staging build is done, and
    runs the builder last, both in the absolute extension directory; a
    failing staging build or a failing [jlpm] ends the call at once, with
    no process started after it. *)
Theorem build_labextension_processes (env : Env) (tools : Tools)
    (path : string) (app_dir : option string) (st : state) :
  let dir := options_app_dir tools app_dir in
  let p := Posixpath.abspath (getcwd env) path in
  let modules := pjoin p ["node_modules"] in
  let run := build_labextension env tools path app_dir st in
  (forall e s1,
     run_build tools dir "build:nobuild" st = (inl e, s1) ->
     run = (inl e, s1, [build_call dir "build:nobuild"]))
  /\ (forall s1,
        run_build tools dir "build:nobuild" st = (inr tt, s1) ->
        (exists_b (getcwd env) s1 modules = true ->
           processes run.2 = [(node_argv tools app_dir p, p)])
        /\ (exists_b (getcwd env) s1 modules = false ->
              (forall e s2,
                 run_check_call tools ["jlpm"] p s1 = (inl e, s2) ->
                 run = (inl e, s2,
                        [build_call dir "build:nobuild";
                         fs_call (os_path_exists modules);
                         process_call ["jlpm"] p]))
              /\ (forall s2,
                    run_check_call tools ["jlpm"] p s1 = (inr tt, s2) ->
                    processes run.2
                    = [(["jlpm"], p); (node_argv tools app_dir p, p)]))).
Proof.
  cbv zeta. split; [| intros s1 Hb; split; [| intros He; split]].
  - intros e s1 Hb. run_builder. now rewrite Hb.
  - intros He. run_builder. rewrite Hb, He. cbn [negb].
    destruct (run_check_call tools _ _ s1) as [r2 s2]. reflexivity.
  - intros e s2 Hj. run_builder. rewrite Hb, He. cbn [negb]. now rewrite Hj.
  - intros s2 Hj. run_builder. rewrite Hb, He. cbn [negb]. rewrite Hj.
    destruct (run_check_call tools _ _ s2) as [r3 s3]. reflexivity.
Qed.

Lemma build_labextension_witness :
  processes (build_labextension env0 tools0 "ext" None st_empty).2
  = [(["jlpm"], "/work/ext");
     (["node";
       "/app/staging/node_modules/@jupyterlab/buildutils/lib/build-extension.js";
       "--core-path"; "/site/jupyterlab/staging"; "/work/ext"], "/work/ext")].
Proof.
  destruct (build_labextension_processes env0 tools0 "ext" None st_empty)
    as [_ H].
  destruct (H st_empty eq_refl) as [_ Hmissing].
  destruct (Hmissing eq_refl) as [_ Hok].
  exact (Hok st_empty eq_refl).
Defined.


(** The calls of [watch_labextension] for an extension without
    [node_modules]. *)
Example watch_command_line :
  (watch_labextension env0 tools0 "ext" None st_empty).2
  = [build_call "/app" "build:nobuild";
     fs_call (os_path_exists "/work/ext/node_modules");
     process_call ["jlpm"] "/work/ext";
     process_call
       ["node";
        "/app/staging/node_modules/@jupyterlab/buildutils/lib/build-extension.js";
        "--core-path"; "/site/jupyterlab/staging"; "--watch"; "/work/ext"]
       "/work/ext"].
Proof. vm_compute. reflexivity. Qed.


(** ** Link-mode on a disk without links *)

Lemma del_entry_no_symlinks t k m :
  no_symlinks m -> no_symlinks (del_entry t k m).
Proof.
  intros Hns j tg. unfold del_entry. destruct k as [|c k0]; [apply Hns |].
  destruct (m !! parent (c :: k0)) as [[| t' es |]|]; try apply Hns.
  destruct (decide (j = parent (c :: k0))) as [->|Hne].
  - rewrite lookup_insert_eq. discriminate.
  - rewrite lookup_insert_ne by congruence. apply Hns.
Qed.

Lemma unlink_no_symlinks t k m : no_symlinks m -> no_symlinks (unlink t k m).
Proof.
  intros Hns j tg Hj. unfold unlink in Hj.
  apply lookup_delete_Some in Hj as [_ Hj].
  exact (del_entry_no_symlinks t k m Hns j tg Hj).
Qed.

Lemma remove_tree_no_symlinks t k m :
  no_symlinks m -> no_symlinks (remove_tree t k m).
Proof.
  intros Hns j tg Hj. unfold remove_tree in Hj.
  apply map_lookup_filter_Some in Hj as [Hj _].
  exact (del_entry_no_symlinks t k m Hns j tg Hj).
Qed.

Lemma purge_no_symlinks env full_dest st r st' t :
  no_symlinks (files st) -> purge env full_dest st = (r, st', t) ->
  no_symlinks (files st').
Proof.
  intros Hns. unfold purge, lexists, isdir, islink.
  rewrite run_bind_observe.
  destruct (lexists_b _ st full_dest); [| now intros [= _ <- _]].
  rewrite run_bind_observe.
  assert (Hrm : forall r0 s0 t0,
            remove env full_dest st = (r0, s0, t0) -> no_symlinks (files s0)).
  { intros r0 s0 t0. unfold remove, perform.
    destruct (locate _ st false full_dest) as [k|]; [| now intros [= _ <- _]].
    destruct (files st !! k) as [[| |]|]; intros [= _ <- _]; try exact Hns;
      now apply unlink_no_symlinks. }
  assert (Hrt : forall r0 s0 t0,
            rmtree env full_dest st = (r0, s0, t0) -> no_symlinks (files s0)).
  { intros r0 s0 t0. unfold rmtree, perform.
    destruct (locate _ st false full_dest) as [k|]; [| now intros [= _ <- _]].
    destruct (files st !! k) as [[| |]|]; intros [= _ <- _]; try exact Hns.
    now apply remove_tree_no_symlinks. }
  destruct (isdir_b _ st full_dest).
  - rewrite run_bind_observe.
    destruct (islink_b _ st full_dest); cbn [andb negb].
    + destruct (remove env full_dest st) as [[r0 s0] t0] eqn:E.
      intros [= _ <- _]. exact (Hrm _ _ _ eq_refl).
    + destruct (rmtree env full_dest st) as [[r0 s0] t0] eqn:E.
      intros [= _ <- _]. exact (Hrt _ _ _ eq_refl).
  - rewrite run_bind, run_ret. cbn [andb].
    destruct (remove env full_dest st) as [[r0 s0] t0] eqn:E.
    intros [= _ <- _]. exact (Hrm _ _ _ eq_refl).
Qed.




(** ** When the resolver fails *)

(** X17. The resolver fails in three cases and no other: two or more selectors
    are set; only [sys_prefix] is set and [ENV_JUPYTER_PATH] is empty; no
    selector is set and [SYSTEM_JUPYTER_PATH] is empty. *)
Theorem resolver_failure_cases (env : Env) (sel : selectors) :
  (exists e, _get_labextension_dir env sel = inl e)
  <-> 2 <= length (conflicting_pairs sel)
      \/ (conflicting_pairs sel = [("sys_prefix", VBool true)]
          /\ ENV_JUPYTER_PATH env = [])
      \/ (conflicting_pairs sel = [] /\ SYSTEM_JUPYTER_PATH env = []).
Proof.
  destruct sel as [u sp p d]. unfold _get_labextension_dir.
  rewrite conflicting_set_length. unfold conflicting_pairs, conflicting.
  cbn [user sys_prefix prefix labextensions_dir List.filter selval_truthy snd].
  destruct u, sp, (truthy_str p), (truthy_str d),
    (ENV_JUPYTER_PATH env) as [|e0 erest],
    (SYSTEM_JUPYTER_PATH env) as [|s0 srest];
    cbn; split;
    first
      [ intros [e He]; discriminate He
      | intros _; left; lia
      | intros _; right; left; split; reflexivity
      | intros _; right; right; split; reflexivity
      | intros _; eexists; reflexivity
      | intros [H|[[H1 H2]|[H1 H2]]]; try discriminate; cbn in *; lia ].
Qed.


(** ** Link-mode onto something that is not a link *)

Lemma not_a_link_extends cwd st st' p :
  extends (files st) (files st') ->
  exists_b cwd st p = true -> islink_b cwd st p = false ->
  islink_b cwd st' p = false.
Proof.
  intros Hext He Hi. unfold islink_b in *.
  destruct (lstat_node cwd st p) as [n|] eqn:Hl.
  - destruct (lstat_extends _ _ _ _ _ Hext Hl) as (n' & -> & Hk).
    destruct n, n'; cbn in Hk; try contradiction; try reflexivity.
    discriminate.
  - assert (Hle : lexists_b cwd st p = false)
      by (unfold lexists_b; now rewrite Hl).
    apply lexists_false_exists_false in Hle. congruence.
Qed.

(** X18. Without [overwrite], a link-mode request whose destination exists
    and is not a symbolic link, and that gets past the creation of the
    labextensions directory and of the destination's parent, fails with a
    ValueError after two tests of the destination; the message names the
    absolute source path, not the destination, and [os.symlink] is not
    called. *)
Theorem link_staging_onto_a_non_link_fails (env : Env) (path : string)
    (user : bool) (labextensions_dir destination : option string)
    (sys_prefix : bool) (labext : string) (st st1 st2 : state)
    (t1 t2 : list event) :
  let full_dest := full_dest_of labext (destination_name destination path) in
  _get_labextension_dir env
    {| user := user; sys_prefix := sys_prefix; prefix := None;
       labextensions_dir := labextensions_dir |} = inr labext ->
  exists_b (getcwd env) st full_dest = true ->
  islink_b (getcwd env) st full_dest = false ->
  ensure_dir env labext st = (inr tt, st1, t1) ->
  makedirs env (Posixpath.dirname full_dest) true st1 = (inr tt, st2, t2) ->
  develop_labextension env (PathStr path) true false user labextensions_dir
    destination sys_prefix st
  = (inl (Exn "ValueError"
            (Posixpath.abspath (getcwd env) path
             +:+ " exists and is not a symlink")),
     st2, t1 ++ t2 ++ [os_path_exists full_dest; os_path_islink full_dest]).
Proof.
  intros full_dest Hdir He Hi Hens Hmk.
  assert (Hext : extends (files st) (files st2)).
  { eapply extends_trans;
      [eapply ensure_dir_extends | eapply makedirs_extends]; eassumption. }
  pose proof (not_a_link_extends _ _ _ _ Hext He Hi) as Hi2.
  pose proof (exists_extends _ _ _ _ Hext He) as He2.
  rewrite (develop_labextension_unfold _ _ _ _ _ _ _ _ _ _ _ _ Hdir Hens).
  unfold stage_under. rewrite run_bind, run_ret. fold full_dest.
  rewrite run_bind, run_ret. unfold install_at.
  rewrite run_bind, Hmk.
  unfold link_mode, exists_, islink.
  rewrite run_bind, run_bind_observe, He2. cbn [negb].
  rewrite run_bind_observe, Hi2. cbn [negb]. reflexivity.
Qed.

Lemma link_staging_onto_a_non_link_witness :
  exists st2 t,
    develop_labextension env0 (PathStr "/ext/foo") true false false
      (Some "/lab") None false st_installed
    = (inl (Exn "ValueError" "/ext/foo exists and is not a symlink"), st2, t).
Proof.
  eexists _, _.
  apply (link_staging_onto_a_non_link_fails env0 "/ext/foo" false
           (Some "/lab") None false "/lab" st_installed st_installed
           st_installed [ensure_dir_exists "/lab"] [os_makedirs "/lab" true]);
    vm_compute; reflexivity.
Defined.


(** ** The paths [develop_labextension_py] returns *)

Lemma labexts_loop_returns env base_path user sys_prefix overwrite symlink
    labextensions_dir labext labexts full_dests st ds st' t :
  _get_labextension_dir env
    {| user := user; sys_prefix := sys_prefix; prefix := None;
       labextensions_dir := labextensions_dir |} = inr labext ->
  labexts_loop env base_path user sys_prefix overwrite symlink
    labextensions_dir labexts full_dests st = (inr ds, st', t) ->
  ds = full_dests
       ++ List.map
            (fun x => full_dest_of labext
                        (destination_name (Some (dest x))
                           (pjoin base_path [src x])))
            labexts.
Proof.
  intros Hdir. revert full_dests st t.
  induction labexts as [|x rest IH]; intros full_dests st t.
  - cbn. intros [= <- _ _]. now rewrite app_nil_r.
  - cbn [labexts_loop List.map]. rewrite run_bind.
    destruct (develop_labextension env _ symlink overwrite user
                labextensions_dir (Some (dest x)) sys_prefix st)
      as [[[e|d] s1] t1] eqn:Hx; [discriminate |].
    destruct (labexts_loop env base_path user sys_prefix overwrite symlink
                labextensions_dir rest (full_dests ++ [d]) s1)
      as [[r s2] t2] eqn:Hrest.
    intros [= -> <- <-].
    destruct (develop_labextension_returns _ _ _ _ _ _ _ _ _ _ _ _ Hx)
      as (p & labext' & _ & _ & _ & [= <-] & Hdir' & -> & _).
    rewrite Hdir in Hdir'. injection Hdir' as <-.
    rewrite (IH _ _ _ Hrest), <- app_assoc. reflexivity.
Qed.

(** X19. The list [develop_labextension_py] returns holds, for the records
    of the module in their order, the normalised join of the labextensions
    directory and the record's [dest]; an empty [dest] stands for the base
    name of the record's source path below the module's directory. *)
Theorem develop_py_returns_the_destinations (env : Env) (module : string)
    (m : module_obj) (labexts : list labext_entry)
    (user sys_prefix overwrite symlink : bool)
    (labextensions_dir : option string) (labext : string)
    (st st' : state) (ds : list string) (t : list event) :
  import_item env module = Some m ->
  labextension_paths m = Some labexts ->
  _get_labextension_dir env
    {| user := user; sys_prefix := sys_prefix; prefix := None;
       labextensions_dir := labextensions_dir |} = inr labext ->
  develop_labextension_py env module user sys_prefix overwrite symlink
    labextensions_dir st = (inr ds, st', t) ->
  ds = List.map
         (fun x => full_dest_of labext
                     (destination_name (Some (dest x))
                        (pjoin (Posixpath.dirname (module_file m)) [src x])))
         labexts.
Proof.
  intros Him Hl Hdir. unfold develop_labextension_py.
  rewrite run_bind, (metadata_of_provider env module m labexts st Him Hl).
  cbn [fst snd].
  destruct (labexts_loop env _ user sys_prefix overwrite symlink
              labextensions_dir labexts [] st) as [[r s1] t1] eqn:Hloop.
  intros [= -> _ _].
  exact (labexts_loop_returns _ _ _ _ _ _ _ _ _ _ _ _ _ _ Hdir Hloop).
Qed.

Lemma develop_py_returns_witness :
  exists st' t,
    develop_labextension_py env_pkg "mypkg" false false false true
      (Some "/lab") st_pkg = (inr ["/lab/x"; "/lab/y"], st', t).
Proof.
  remember (develop_labextension_py env_pkg "mypkg" false false false true
              (Some "/lab") st_pkg) as res eqn:Hres.
  assert (H1 : exists ds, res.1.1 = inr ds)
    by (rewrite Hres; vm_compute; eauto).
  destruct res as [[r st'] t]. destruct H1 as [ds H1]. cbn in H1. subst r.
  symmetry in Hres. exists st', t.
  rewrite (develop_py_returns_the_destinations env_pkg "mypkg" mypkg
             [ {| src := "one"; dest := "x" |}; {| src := "two"; dest := "y" |} ]
             false false false true (Some "/lab") "/lab" st_pkg st' ds t
             eq_refl eq_refl eq_refl Hres).
  reflexivity.
Defined.
